(** * CityGaussian level-of-detail video drivers

    A shallow embedding of [render_video_lodv2.py] and [render_video.py]:
    the [BlockedGaussian] partitioner with its two distance filters, the
    height sweep of [render_set], and the multi-level driver [render_sets].

    Conventions of the embedding.
    - A tensor of scalars is a [list]; a row of three coordinates is a [vec3].
      The value of a tensor entry is given as an exact rational [Q] (every
      finite float is one).
    - Tensors of scalars are float32, torch's default.  The two distance
      filters decide in float32, as torch does: tensor entries and the
      Python scalars they are compared with are converted to float32 (round
      to nearest, ties to even) and compared as IEEE 754 values.  The two reductions whose order of accumulation torch leaves
      to its backend, the matrix product and the norm, are the fields of a
      [Kernel]; everything proved of the filters holds for every kernel.
    - The stored feature rows are half-precision values.
    - The arithmetic of the cell boxes (median, deviation, clamping) is the
      mathematical one on rationals.
    - A Python exception is a [Raise e] result; the interpreter state touched
      by the drivers (wall clock, log of calls to the external collaborators)
      is threaded explicitly through the [io] monad. *)

From Stdlib Require Import String Bool ZArith QArith Qabs Reals Qreals Psatz List SpecFloat.
Import ListNotations.

(** ** Python results *)

Inductive exn : Type :=
| AssertionError
| IndexError
| RuntimeError
| ZeroDivisionError
| UnboundLocalError (name : string).

Inductive result (A : Type) : Type :=
| Ok (a : A)
| Raise (e : exn).

Arguments Ok {A} a.
Arguments Raise {A} e.

Definition rbind {A B} (r : result A) (k : A -> result B) : result B :=
  match r with
  | Ok a => k a
  | Raise e => Raise e
  end.

Declare Scope result_scope.
Delimit Scope result_scope with result.
Notation "x <- r ;; k" := (rbind r (fun x => k))
  (at level 61, r at next level, right associativity) : result_scope.

(** [l[i]] on a Python list, for a non-negative index. *)
Definition py_index {A} (l : list A) (i : nat) : result A :=
  match nth_error l i with
  | Some a => Ok a
  | None => Raise IndexError
  end.

(** ** Scalars *)

Open Scope Q_scope.

(** [x < y] as its own comparison ([Qle_bool] is [x <= y]). *)
Definition Qlt_bool (x y : Q) : bool :=
  (Qnum x * QDen y <? Qnum y * QDen x)%Z.

(** Python's and torch's two-argument [max] and [min]. *)
Definition py_max (a b : Q) : Q := if Qlt_bool a b then b else a.
Definition py_min (a b : Q) : Q := if Qlt_bool b a then b else a.

(** ** Rows of three and four scalars *)

Record vec3 : Type := V3 { vx : Q; vy : Q; vz : Q }.
Record vec4 : Type := V4 { w0 : Q; w1 : Q; w2 : Q; w3 : Q }.

(** A 4x4 matrix, by rows: [m[i][j]] is component [j] of row [i]. *)
Record mat4 : Type := M4 { row0 : vec4; row1 : vec4; row2 : vec4; row3 : vec4 }.

Definition vmap (f : Q -> Q) (a : vec3) : vec3 :=
  V3 (f (vx a)) (f (vy a)) (f (vz a)).

Definition vmap2 (f : Q -> Q -> Q) (a b : vec3) : vec3 :=
  V3 (f (vx a) (vx b)) (f (vy a) (vy b)) (f (vz a) (vz b)).

Definition vadd : vec3 -> vec3 -> vec3 := vmap2 Qplus.
Definition vsub : vec3 -> vec3 -> vec3 := vmap2 Qminus.
Definition vabs : vec3 -> vec3 := vmap Qabs.
Definition vscale (n : Q) : vec3 -> vec3 := vmap (Qmult n).
Definition vmax : vec3 -> vec3 -> vec3 := vmap2 py_max.
Definition vmin : vec3 -> vec3 -> vec3 := vmap2 py_min.

(** [torch.cat([xyz, ones_like(xyz[..., [0]])], dim=-1)] on one row. *)
Definition homo (p : vec3) : vec4 := V4 (vx p) (vy p) (vz p) 1.

(** ** Floating-point values *)

(** A float32 and a float16 value.  The operations on them are those of
    IEEE 754 at precision 24 (exponent bound 128) and at precision 11
    (exponent bound 16), rounding to nearest with ties to even. *)
Definition float32 : Type := spec_float.
Definition float16 : Type := spec_float.

(** The float of a format nearest to a rational. *)
Definition round_Q (prec emax : Z) (q : Q) : spec_float :=
  match Qnum q with
  | Z0 => S754_zero false
  | Zpos n => SFdiv prec emax (S754_finite false n 0) (S754_finite false (Qden q) 0)
  | Zneg n => SFdiv prec emax (S754_finite true n 0) (S754_finite false (Qden q) 0)
  end.

(** A float converted to another format. *)
Definition convert (prec emax : Z) (x : spec_float) : spec_float :=
  match x with
  | S754_finite s m e => binary_round prec emax s m e
  | _ => x
  end.

(** The entry of a float32 tensor whose value is [q]. *)
Definition to_float32 (q : Q) : float32 := round_Q 24 128 q.

(** A Python scalar in a comparison with a float32 tensor: the double it is
    (for a literal such as [0.2], the double nearest to it), converted to
    float32. *)
Definition scalar_to_float32 (q : Q) : float32 := convert 24 128 (round_Q 53 1024 q).

(** [t.half()] on one entry of a float32 tensor. *)
Definition half (q : Q) : float16 := convert 11 16 (to_float32 q).

(** [a > b], [a >= b] and [a < b] on float32 values. *)
Definition f_gt (a b : float32) : bool := SFltb b a.
Definition f_ge (a b : float32) : bool := SFleb b a.
Definition f_lt (a b : float32) : bool := SFltb a b.

(** Rows of three and of four float32 values. *)
Record floats3 : Type := R3 { r0 : float32; r1 : float32; r2 : float32 }.
Record floats4 : Type := R4 { c0 : float32; c1 : float32; c2 : float32; c3 : float32 }.

(** [a - b] on rows of a float32 tensor. *)
Definition tsub (a b : vec3) : floats3 :=
  R3 (SFsub 24 128 (to_float32 (vx a)) (to_float32 (vx b)))
     (SFsub 24 128 (to_float32 (vy a)) (to_float32 (vy b)))
     (SFsub 24 128 (to_float32 (vz a)) (to_float32 (vz b))).

(** The float32 reductions of the fine filter.  The order in which a sum of
    products is accumulated is the backend's, so the two are taken as given. *)
Record Kernel : Type := {
  (** one row of [homo_xyz @ viewmatrix] *)
  matmul : vec4 -> mat4 -> floats4;
  (** [torch.norm(v, dim=-1)] on one row *)
  torch_norm : floats3 -> float32
}.

(** ** Boolean masks *)

(** [mask.sum()]. *)
Definition mask_sum (m : list bool) : nat := count_occ bool_dec m true.

(** [a & b] on masks of one shape. *)
Fixpoint mask_and (a b : list bool) : list bool :=
  match a, b with
  | x :: a', y :: b' => (x && y) :: mask_and a' b'
  | _, _ => []
  end.

(** [t[mask]]: the rows of [t] where [mask] holds, in order.  torch raises
    when the mask and the first dimension of [t] differ in size. *)
Fixpoint index_mask {A} (t : list A) (m : list bool) : result (list A) :=
  match t, m with
  | [], [] => Ok []
  | a :: t', b :: m' =>
      match index_mask t' m' with
      | Ok r => Ok (if b then a :: r else r)
      | Raise e => Raise e
      end
  | _, _ => Raise IndexError
  end.

(** [t[mask] = v]: in-place masked assignment. *)
Fixpoint assign_mask {A} (t : list A) (m : list bool) (v : A) : result (list A) :=
  match t, m with
  | [], [] => Ok []
  | a :: t', b :: m' =>
      match assign_mask t' m' v with
      | Ok r => Ok ((if b then v else a) :: r)
      | Raise e => Raise e
      end
  | _, _ => Raise IndexError
  end.

(** ** Cameras and levels *)

Record Camera : Type := {
  camera_center : vec3;
  world_view_transform : mat4
}.

(** One feature row: opacity, flattened colour features, geometry, in half
    precision. *)
Definition feat : Type := list float16.

Record BlockedGaussian : Type := {
  cell_corners : list (list vec3);
  xyz : list vec3;
  feats : list feat;
  cell_ids : list nat;
  mask : list bool;
  block_dim : nat * nat * nat;
  num_cell : nat;
  aabb : list Q;
  scale : Q;
  range : Q * Q
}.

Definition set_mask (self : BlockedGaussian) (m : list bool) : BlockedGaussian :=
  {| cell_corners := cell_corners self; xyz := xyz self; feats := feats self;
     cell_ids := cell_ids self; mask := m; block_dim := block_dim self;
     num_cell := num_cell self; aabb := aabb self; scale := scale self;
     range := range self |}.

(** The near clip of the fine filter, [0.2]. *)
Definition near_clip : Q := 2 # 10.

(** [(distances >= self.range[0]) & (distances < self.range[1])] on one
    entry of [distances]. *)
Definition range_test (r : Q * Q) (d : float32) : bool :=
  f_ge d (scalar_to_float32 (fst r)) && f_lt d (scalar_to_float32 (snd r)).

(** [BlockedGaussian.get_feats_ptwise]: the new state of [self] (its scratch
    mask is overwritten) and the returned pair. *)
Definition get_feats_ptwise (K : Kernel) (self : BlockedGaussian) (viewpoint_cam : Camera)
  : BlockedGaussian * result (list vec3 * list feat) :=
  let out_xyz : list vec3 := [] in
  let out_feats : list feat := [] in
  let homo_xyz := map homo (xyz self) in
  let cam_center := camera_center viewpoint_cam in
  let viewmatrix := world_view_transform viewpoint_cam in
  let xyz_cam := map (fun h => matmul K h viewmatrix) homo_xyz in
  let mask1 := map (fun c => f_gt (c2 c) (scalar_to_float32 near_clip)) xyz_cam in
  let self1 := set_mask self mask1 in
  if (mask_sum mask1 =? 0)%nat then (self1, Ok (out_xyz, out_feats))
  else
    let distances := map (fun p => torch_norm K (tsub p cam_center)) (xyz self) in
    let mask2 := mask_and mask1 (map (range_test (range self)) distances) in
    let self2 := set_mask self mask2 in
    if (0 <? mask_sum mask2)%nat then
      (self2,
       (out_xyz <- index_mask (xyz self) mask2 ;;
        out_feats <- index_mask (feats self) mask2 ;;
        Ok (out_xyz, out_feats))%result)
    else (self2, Ok (out_xyz, out_feats)).

(** [BlockedGaussian.get_feats]: the coarse, per-cell filter.  [indices]
    are cell ids and [distances] one representative distance per cell. *)
Definition get_feats (self : BlockedGaussian) (indices : list nat) (distances : list float32)
  : BlockedGaussian * result (list vec3 * list feat) :=
  let out_xyz : list vec3 := [] in
  let out_feats : list feat := [] in
  let block_mask := map (range_test (range self)) distances in
  if (0 <? mask_sum block_mask)%nat then
    match index_mask indices block_mask with
    | Raise e => (self, Raise e)
    | Ok wanted =>
        let m := map (fun c => existsb (Nat.eqb c) wanted) (cell_ids self) in
        let self1 := set_mask self m in
        (self1,
         (out_xyz <- index_mask (xyz self) m ;;
          out_feats <- index_mask (feats self) m ;;
          Ok (out_xyz, out_feats))%result)
    end
  else (self, Ok (out_xyz, out_feats)).

(** ** Robust cell boxes *)

Fixpoint insert_sorted (x : Q) (l : list Q) : list Q :=
  match l with
  | [] => [x]
  | y :: l' => if Qle_bool x y then x :: l else y :: insert_sorted x l'
  end.

Definition sort_asc (l : list Q) : list Q := fold_right insert_sorted [] l.

(** [torch.median] along a dimension: the lower of the two middle values
    for an even count; it raises on an empty dimension. *)
Definition median (l : list Q) : result Q :=
  match l with
  | [] => Raise IndexError
  | _ :: _ => py_index (sort_asc l) ((length l - 1) / 2)
  end.

(** [torch.min(t, dim)[0]] and [torch.max(t, dim)[0]]. *)
Definition amin (l : list Q) : result Q :=
  match l with
  | [] => Raise IndexError
  | x :: l' => Ok (fold_left py_min l' x)
  end.

Definition amax (l : list Q) : result Q :=
  match l with
  | [] => Raise IndexError
  | x :: l' => Ok (fold_left py_max l' x)
  end.

(** A reduction along [dim=0] of an [m x 3] tensor: one value per column. *)
Definition reduce_dim0 (f : list Q -> result Q) (rows : list vec3) : result vec3 :=
  (x <- f (map vx rows) ;;
   y <- f (map vy rows) ;;
   z <- f (map vz rows) ;;
   Ok (V3 x y z))%result.

Definition median_dim0 : list vec3 -> result vec3 := reduce_dim0 median.
Definition min_dim0 : list vec3 -> result vec3 := reduce_dim0 amin.
Definition max_dim0 : list vec3 -> result vec3 := reduce_dim0 amax.

(** The body of the cell loop of [cell_divider] after the membership mask:
    the two opposite corners [(xyz_min, xyz_max)] of the cell's box. *)
Definition cell_bbox (n : Q) (members : list vec3) : result (vec3 * vec3) :=
  (xyz_median <- median_dim0 members ;;
   delta_median <- median_dim0 (map (fun p => vabs (vsub p xyz_median)) members) ;;
   let xyz_min := vsub xyz_median (vscale n delta_median) in
   lo <- min_dim0 members ;;
   let xyz_min := vmax xyz_min lo in
   let xyz_max := vadd xyz_median (vscale n delta_median) in
   hi <- max_dim0 members ;;
   let xyz_max := vmin xyz_max hi in
   Ok (xyz_min, xyz_max))%result.

(** The eight corner rows, in the order the source lists them. *)
Definition corners_of (xyz_min xyz_max : vec3) : list vec3 :=
  [ V3 (vx xyz_min) (vy xyz_min) (vz xyz_min);
    V3 (vx xyz_min) (vy xyz_min) (vz xyz_max);
    V3 (vx xyz_min) (vy xyz_max) (vz xyz_min);
    V3 (vx xyz_min) (vy xyz_max) (vz xyz_max);
    V3 (vx xyz_max) (vy xyz_min) (vz xyz_min);
    V3 (vx xyz_max) (vy xyz_min) (vz xyz_max);
    V3 (vx xyz_max) (vy xyz_max) (vz xyz_min);
    V3 (vx xyz_max) (vy xyz_max) (vz xyz_max) ].

(** The scene representation handed to the partitioner (an external
    collaborator): its accessors, one row per point. *)
Record GaussianModel : Type := {
  get_xyz : list vec3;
  get_opacity : list (list Q);
  get_features : list (list Q);
  get_scaling : list (list Q);
  get_rotation : list (list Q);
  get_covariance : Q -> list (list Q)
}.

(** [torch.cat([a, b], dim=1)]: rows joined pairwise. *)
Fixpoint cat_dim1 (a b : list (list Q)) : result (list (list Q)) :=
  match a, b with
  | [], [] => Ok []
  | x :: a', y :: b' =>
      match cat_dim1 a' b' with
      | Ok r => Ok ((x ++ y) :: r)
      | Raise e => Raise e
      end
  | _, _ => Raise RuntimeError
  end.

(** [t.reshape(rows, -1)]: the entries in row-major order, regrouped into
    [rows] rows of one width.  torch raises when the entries do not divide
    into [rows] rows, and for [rows = 0]. *)
Definition reshape_rows (rows : nat) (t : list (list Q)) : result (list (list Q)) :=
  let entries := concat t in
  match rows with
  | O => Raise RuntimeError
  | S _ =>
      if (length entries mod rows =? 0)%nat then
        let width := (length entries / rows)%nat in
        Ok (map (fun i => firstn width (skipn (i * width) entries)) (seq 0 rows))
      else Raise RuntimeError
  end.

(** The model parameters the drivers read ([lp], which is also [dataset]). *)
Record ModelParams : Type := {
  sh_degree : nat;
  lp_block_dim : nat * nat * nat;
  lp_aabb : list Q;
  lod_configs : list string;
  dist_threshold : list Q;
  model_path : string;
  source_path : option string;
  white_background : bool
}.

Section Partitioner.

(** [utils.large_utils.block_filtering]: the membership mask of one cell. *)
Variable block_filtering :
  nat -> list vec3 -> list Q -> nat * nat * nat -> Q -> list bool.

(** One iteration of the cell loop of [cell_divider]. *)
Definition cell_step (n : Q) (self : BlockedGaussian) (cell_idx : nat)
  : result BlockedGaussian :=
  let cell_mask :=
    block_filtering cell_idx (xyz self) (aabb self) (block_dim self) (scale self) in
  (ids <- assign_mask (cell_ids self) cell_mask cell_idx ;;
   members <- index_mask (xyz self) cell_mask ;;
   box <- cell_bbox n members ;;
   let corners := corners_of (fst box) (snd box) in
   Ok {| cell_corners := cell_corners self ++ [corners];
         xyz := xyz self; feats := feats self; cell_ids := ids;
         mask := mask self; block_dim := block_dim self;
         num_cell := num_cell self; aabb := aabb self; scale := scale self;
         range := range self |})%result.

(** [for cell_idx in range(self.num_cell)]. *)
Fixpoint cell_loop (n : Q) (self : BlockedGaussian) (cells : list nat)
  : result BlockedGaussian :=
  match cells with
  | [] => Ok self
  | c :: cells' =>
      match cell_step n self c with
      | Ok self' => cell_loop n self' cells'
      | Raise e => Raise e
      end
  end.

(** [BlockedGaussian.cell_divider], with its default [n = 4]. *)
Definition cell_divider (self : BlockedGaussian) (gaussians : GaussianModel)
           (compute_cov3D_python : bool) (n : Q) : result BlockedGaussian :=
  (geometry <-
     (if compute_cov3D_python then Ok (get_covariance gaussians (scale self))
      else cat_dim1 (get_scaling gaussians) (get_rotation gaussians)) ;;
   flat <- reshape_rows (length geometry) (get_features gaussians) ;;
   head <- cat_dim1 (get_opacity gaussians) flat ;;
   fs <- cat_dim1 head geometry ;;
   let self1 :=
     {| cell_corners := cell_corners self; xyz := get_xyz gaussians;
        feats := map (map half) fs;
        cell_ids := cell_ids self; mask := mask self; block_dim := block_dim self;
        num_cell := num_cell self; aabb := aabb self; scale := scale self;
        range := range self |} in
   cell_loop n self1 (seq 0 (num_cell self1)))%result.

(** [BlockedGaussian.__init__]. *)
Definition BlockedGaussian_init (gaussians : GaussianModel) (lp : ModelParams)
           (rng : Q * Q) (scl : Q) (compute_cov3D_python : bool)
  : result BlockedGaussian :=
  let points := length (get_opacity gaussians) in
  let self :=
    {| cell_corners := []; xyz := []; feats := [];
       cell_ids := repeat 0%nat points; mask := repeat false points;
       block_dim := lp_block_dim lp;
       num_cell := (fst (fst (lp_block_dim lp)) * snd (fst (lp_block_dim lp))
                    * snd (lp_block_dim lp))%nat;
       aabb := lp_aabb lp; scale := scl; range := rng |} in
  (self <- cell_divider self gaussians compute_cov3D_python 4 ;;
   (* [torch.stack(self.cell_corners, dim=0)] needs at least one tensor *)
   match cell_corners self with
   | [] => Raise RuntimeError
   | _ :: _ => Ok self
   end)%result.

End Partitioner.

(** ** The drivers *)

(** The values the local [height] of [render_set] holds: the command-line
    flag is a float or absent, the loop variable an integer. *)
Inductive pyval : Type :=
| PyNone
| PyFloat (q : Q)
| PyInt (z : Z).

(** [os.path.join] of its components. *)
Definition path : Type := list string.

(** [range(start, stop, step)] for a positive step, the only kind the
    drivers use. *)
Definition py_range (start stop step : Z) : list Z :=
  if (0 <? step)%Z then
    map (fun i => (start + Z.of_nat i * step)%Z)
        (seq 0 (Z.to_nat ((stop - start + step - 1) / step)))
  else [].

(** [a / b] on Python numbers. *)
Definition py_div (a b : Q) : result Q :=
  if Qeq_bool b 0 then Raise ZeroDivisionError else Ok (a / b).

(** Truth value of an optional string argument ([None] and [''] are false). *)
Definition truthy (s : option string) : bool :=
  match s with
  | None => false
  | Some s' => negb (String.eqb s' EmptyString)
  end.

Record PipelineParams : Type := {
  convert_SHs_python : bool;
  compute_cov3D_python : bool;
  debug : bool
}.

Definition with_dist_threshold (d : ModelParams) (t : list Q) : ModelParams :=
  {| sh_degree := sh_degree d; lp_block_dim := lp_block_dim d; lp_aabb := lp_aabb d;
     lod_configs := lod_configs d; dist_threshold := t; model_path := model_path d;
     source_path := source_path d; white_background := white_background d |}.

Definition with_source_path (d : ModelParams) (s : option string) : ModelParams :=
  {| sh_degree := sh_degree d; lp_block_dim := lp_block_dim d; lp_aabb := lp_aabb d;
     lod_configs := lod_configs d; dist_threshold := dist_threshold d;
     model_path := model_path d; source_path := s;
     white_background := white_background d |}.

(** The far bound of the last level, [1e6]. *)
Definition far_sentinel : Q := 1000000.

Section Environment.

(** Values owned by the external collaborators. *)
Variables View Image Frame Cfg : Type.

Record Scene : Type := {
  getTrainCameras : list View;
  getTestCameras : list View;
  loaded_iter : Z
}.

Inductive printed : Type :=
| PInit (config_name : string) (points : nat)
| PSaved (video_path : path)
| PHeight (h : pyval)
| PAverageFPS (v : Q)
| PMinFPS (v : Q)
| PText (s : string).

(** What the drivers do to the outside, in order. *)
Inductive event : Type :=
| EvLoadGaussians (config_name : string) (source : option string)
| EvMakedirs (p : path)
| EvLoadCam (idx : nat) (view : View) (resolution pitch height : Q)
| EvSynchronize
| EvRender (cam : Camera)
| EvMimsave (p : path) (frames : list Frame) (duration : list Q)
| EvPrint (line : printed).

(** [ticks] counts the calls of [time.time()] made so far. *)
Record world : Type := { ticks : nat; log : list event }.

Definition io (A : Type) : Type := world -> world * result A.

Definition ret {A} (a : A) : io A := fun w => (w, Ok a).
Definition raise {A} (e : exn) : io A := fun w => (w, Raise e).
Definition lift {A} (r : result A) : io A := fun w => (w, r).

Definition bind {A B} (m : io A) (k : A -> io B) : io B :=
  fun w =>
    match m w with
    | (w', Ok a) => k a w'
    | (w', Raise e) => (w', Raise e)
    end.

Definition emit (e : event) : io unit :=
  fun w => ({| ticks := ticks w; log := log w ++ [e] |}, Ok tt).

Declare Scope io_scope.
Delimit Scope io_scope with io.
Notation "x <- m ;; k" := (bind m (fun x => k))
  (at level 61, m at next level, right associativity) : io_scope.
Notation "m ;; k" := (bind m (fun _ => k))
  (at level 61, right associativity) : io_scope.

(** [assert c]. *)
Definition py_assert (c : bool) : io unit :=
  if c then ret tt else raise AssertionError.

(** Reading a local that may not have been assigned yet. *)
Definition read_local {A} (name : string) (v : option A) : io A :=
  match v with
  | Some a => ret a
  | None => raise (UnboundLocalError name)
  end.

(** The reading of the [n]-th call of [time.time()]. *)
Variable wall_clock : nat -> Q.

Definition time : io Q :=
  fun w => ({| ticks := S (ticks w); log := log w |}, Ok (wall_clock (ticks w))).

(** The module globals [lp] and [pp]. *)
Variable lp : ModelParams.
Variable pp : PipelineParams.

(** [utils.camera_utils.loadCamV2]. *)
Variable loadCamV2 : ModelParams -> nat -> View -> Q -> Q -> Q -> Camera.

(** [(img * 255).clamp(0, 255).to(torch.uint8).permute(1, 2, 0).cpu().numpy()]. *)
Variable to_uint8_frame : Image -> Frame.

(** [for x in l: body], threading the locals [s]. *)
Fixpoint for_each {S X} (body : S -> X -> io S) (s : S) (l : list X) : io S :=
  match l with
  | [] => ret s
  | x :: l' => (s' <- body s x ;; for_each body s' l')%io
  end.

Section RenderSet.

(** [render_set] is the same text in both drivers up to the renderer it
    calls: [render] on one model, [render_lod] on the list of levels. *)
Variable G : Type.
Variable render : Camera -> G -> PipelineParams -> list Q -> Image.

(** The locals of [render_set] that the loop updates; they start as
    the argument [height], [[]], [[]], [0] and [0]. *)
Record locals : Type := {
  height : pyval;
  frames : list Frame;
  duration_list : list Q;
  avg_render_time : Q;
  max_render_time : Q
}.

(** One iteration of [for height in tqdm(range(500, 2525, 25))]. *)
Definition sweep_body (views : list View) (gaussians : G)
           (pipeline : PipelineParams) (background : list Q) (pitch : Q)
           (idx : nat) (s : locals) (h : Z) : io locals :=
  (let s := {| height := PyInt h; frames := frames s;
               duration_list := duration_list s;
               avg_render_time := avg_render_time s;
               max_render_time := max_render_time s |} in
   view <- lift (py_index views idx) ;;
   emit (EvLoadCam idx view 1 pitch (inject_Z h / 100)) ;;
   let viewpoint_cam := loadCamV2 lp idx view 1 pitch (inject_Z h / 100) in
   emit EvSynchronize ;;
   start <- time ;;
   emit (EvRender viewpoint_cam) ;;
   let img := to_uint8_frame (render viewpoint_cam gaussians pipeline background) in
   emit EvSynchronize ;;
   end_ <- time ;;
   ret {| height := height s;
          frames := frames s ++ [img];
          duration_list := duration_list s ++ [end_ - start];
          avg_render_time := avg_render_time s + (end_ - start);
          max_render_time := py_max (max_render_time s) (end_ - start) |})%io.

Definition render_set (model_path name : string) (iteration : Z)
           (views : list View) (gaussians : G) (pipeline : PipelineParams)
           (background : list Q) (pitch : Q) (height : pyval) : io unit :=
  (let video_path : path := [model_path; name; "ours_lod_video"%string] in
   emit (EvMakedirs video_path) ;;
   let idx := 481%nat in
   s <- for_each (sweep_body views gaussians pipeline background pitch idx)
          (Build_locals height [] [] 0 0)
          (py_range 500 2525 25) ;;
   let '(Build_locals height frames duration_list avg_render_time max_render_time) := s in
   emit (EvMimsave (video_path ++ ["video.gif"%string]) frames duration_list) ;;
   emit (EvPrint (PSaved video_path)) ;;
   emit (EvPrint (PHeight height)) ;;
   avg <- lift (py_div (inject_Z (Z.of_nat (length views))) avg_render_time) ;;
   emit (EvPrint (PAverageFPS avg)) ;;
   worst <- lift (py_div 1 max_render_time) ;;
   emit (EvPrint (PMinFPS worst)))%io.

End RenderSet.

Section Levels.

(** External collaborators of the multi-level driver. *)
Variable block_filtering :
  nat -> list vec3 -> list Q -> nat * nat * nat -> Q -> list bool.
Variable yaml_load : string -> Cfg.
Variable parse_cfg : Cfg -> ModelParams.
Variable LargeScene : ModelParams -> option Z -> bool -> GaussianModel * Scene.
Variable render_lod :
  Camera -> list BlockedGaussian -> PipelineParams -> list Q -> Image.

(** [os.path.splitext(os.path.basename(p))[0]] and [os.path.basename]. *)
Variable stem : string -> string.
Variable basename : string -> string.

Definition with_model_path (d : ModelParams) (m : string) : ModelParams :=
  {| sh_degree := sh_degree d; lp_block_dim := lp_block_dim d; lp_aabb := lp_aabb d;
     lod_configs := lod_configs d; dist_threshold := dist_threshold d;
     model_path := m; source_path := source_path d;
     white_background := white_background d |}.

(** [load_gaussians]; its own [lp] is local to it. *)
Definition load_gaussians (cfg : Cfg) (config_name : string) (iteration : option Z)
           (load_vq : bool) (source : option string) : io (GaussianModel * Scene) :=
  (let lp := parse_cfg cfg in
   let lp := with_source_path lp source in
   let lp := with_model_path lp ("output/" ++ config_name)%string in
   emit (EvLoadGaussians config_name source) ;;
   let loaded := LargeScene lp iteration load_vq in
   emit (EvPrint (PInit config_name (length (get_opacity (fst loaded))))) ;;
   ret loaded)%io.

(** [for i in range(len(dataset.lod_configs))] of [render_sets]: the list
    of levels built so far and the local [scene], which holds the scene
    of the last iteration once there was one. *)
Fixpoint load_levels (dataset : ModelParams) (iteration : option Z) (load_vq : bool)
         (custom_test : option string) (lod_gs_list : list BlockedGaussian)
         (scene : option Scene) (indices : list nat)
  : io (list BlockedGaussian * option Scene) :=
  match indices with
  | [] => ret (lod_gs_list, scene)
  | i :: indices' =>
      (config <- lift (py_index (lod_configs dataset) i) ;;
       let config_name := stem config in
       let cfg := yaml_load config in
       loaded <- load_gaussians cfg config_name iteration load_vq custom_test ;;
       near <- lift (py_index (dist_threshold dataset) i) ;;
       far <- lift (py_index (dist_threshold dataset) (i + 1)) ;;
       lod_gs <- lift (BlockedGaussian_init block_filtering (fst loaded) lp
                         (near, far) 1 (compute_cov3D_python pp)) ;;
       load_levels dataset iteration load_vq custom_test
                   (lod_gs_list ++ [lod_gs]) (Some (snd loaded)) indices')%io
  end.

(** [render_sets] of the multi-level driver.  The locals [scene],
    [filename] and [views] are optional: each is assigned on some paths
    only, and reading an unassigned one raises. *)
Definition render_sets (dataset : ModelParams) (iteration : option Z)
           (pipeline : PipelineParams) (load_vq skip_train skip_test : bool)
           (custom_test : option string) (pitch : Q) (height : pyval) : io unit :=
  (py_assert (Z.of_nat (length (lod_configs dataset)) - 1
              =? Z.of_nat (length (dist_threshold dataset)))%Z ;;
   let dataset :=
     with_dist_threshold dataset ([0] ++ dist_threshold dataset ++ [far_sentinel]) in
   built <- load_levels dataset iteration load_vq custom_test [] None
              (seq 0 (length (lod_configs dataset))) ;;
   let lod_gs_list := fst built in
   let scene := snd built in
   let dataset :=
     if truthy custom_test then with_source_path dataset custom_test else dataset in
   let filename :=
     if truthy custom_test then option_map basename (source_path dataset) else None in
   let bg_color := if white_background dataset then [1; 1; 1] else [0; 0; 0] in
   let background := bg_color in
   if truthy custom_test then
     sc <- read_local "scene" scene ;;
     let views := Some (getTrainCameras sc ++ getTestCameras sc) in
     name <- read_local "filename" filename ;;
     sc <- read_local "scene" scene ;;
     vs <- read_local "views" views ;;
     render_set (list BlockedGaussian) render_lod (model_path dataset) name
                (loaded_iter sc) vs lod_gs_list pipeline background pitch height ;;
     emit (EvPrint (PText "Skip both train and test, render all views"))
   else
     let views : option (list View) := None in
     (if negb skip_train then
        sc <- read_local "scene" scene ;;
        vs <- read_local "views" views ;;
        render_set (list BlockedGaussian) render_lod (model_path dataset) "train"
                   (loaded_iter sc) vs lod_gs_list pipeline background pitch height
      else ret tt) ;;
     (if negb skip_test then
        sc <- read_local "scene" scene ;;
        vs <- read_local "views" views ;;
        render_set (list BlockedGaussian) render_lod (model_path dataset) "test"
                   (loaded_iter sc) vs lod_gs_list pipeline background pitch height
      else ret tt))%io.

End Levels.

End Environment.

Arguments Build_Scene {View}.
Arguments getTrainCameras {View}.
Arguments getTestCameras {View}.
Arguments loaded_iter {View}.
Arguments EvLoadGaussians {View Frame}.
Arguments EvMakedirs {View Frame}.
Arguments EvLoadCam {View Frame}.
Arguments EvSynchronize {View Frame}.
Arguments EvRender {View Frame}.
Arguments EvMimsave {View Frame}.
Arguments EvPrint {View Frame}.
Arguments Build_world {View Frame}.
Arguments ticks {View Frame}.
Arguments log {View Frame}.
Arguments ret {View Frame A}.
Arguments raise {View Frame A}.
Arguments lift {View Frame A}.
Arguments bind {View Frame A B}.
Arguments emit {View Frame}.
Arguments py_assert {View Frame}.
Arguments read_local {View Frame A}.
Arguments time {View Frame}.
Arguments for_each {View Frame S X}.
Arguments Build_locals {Frame}.
Arguments height {Frame}.
Arguments frames {Frame}.
Arguments duration_list {Frame}.
Arguments avg_render_time {Frame}.
Arguments max_render_time {Frame}.
Arguments sweep_body {View Image Frame} wall_clock lp loadCamV2 to_uint8_frame {G}.
Arguments render_set {View Image Frame} wall_clock lp loadCamV2 to_uint8_frame {G}.
Arguments load_gaussians {View Frame Cfg}.
Arguments load_levels {View Frame Cfg}.
Arguments render_sets {View Image Frame Cfg}.

(** ** The selection of the fine filter *)

(** The camera-space depth and the distance from the camera centre the fine
    filter computes for a point. *)
Definition cam_depth (K : Kernel) (cam : Camera) (p : vec3) : float32 :=
  c2 (matmul K (homo p) (world_view_transform cam)).

Definition cam_distance (K : Kernel) (cam : Camera) (p : vec3) : float32 :=
  torch_norm K (tsub p (camera_center cam)).

(** The entry of the final mask for a point: it is in front of the near
    clip and its distance passes the range test. *)
Definition keep (K : Kernel) (cam : Camera) (r : Q * Q) (p : vec3) : bool :=
  f_gt (cam_depth K cam p) (scalar_to_float32 near_clip)
  && range_test r (cam_distance K cam p).

(** The rows of a level paired with their features, restricted to the points
    whose mask entry holds. *)
Definition selected (K : Kernel) (cam : Camera) (r : Q * Q) (rows : list (vec3 * feat))
  : list (vec3 * feat) :=
  filter (fun pf => keep K cam r (fst pf)) rows.

(** The positions a call of the fine filter hands back (none when it raises). *)
Definition out_positions (K : Kernel) (self : BlockedGaussian) (cam : Camera) : list vec3 :=
  match snd (get_feats_ptwise K self cam) with
  | Ok (out_xyz, _) => out_xyz
  | Raise _ => []
  end.

(** ** The same quantities in exact arithmetic *)

(** Row vector times matrix. *)
Definition vecmat (h : vec4) (m : mat4) : vec4 :=
  V4 (w0 h * w0 (row0 m) + w1 h * w0 (row1 m) + w2 h * w0 (row2 m) + w3 h * w0 (row3 m))
     (w0 h * w1 (row0 m) + w1 h * w1 (row1 m) + w2 h * w1 (row2 m) + w3 h * w1 (row3 m))
     (w0 h * w2 (row0 m) + w1 h * w2 (row1 m) + w2 h * w2 (row2 m) + w3 h * w2 (row3 m))
     (w0 h * w3 (row0 m) + w1 h * w3 (row1 m) + w2 h * w3 (row2 m) + w3 h * w3 (row3 m)).

(** [Sqrt r] stands for the non-negative square root of [r]. *)
Record dist : Type := Sqrt { radicand : Q }.

(** The Euclidean norm of a row. *)
Definition norm (v : vec3) : dist :=
  Sqrt (vx v * vx v + vy v * vy v + vz v * vz v).

(** [d >= t]: a root is never negative, so every [t <= 0] is below it;
    a positive [t] is below it when its square is below the radicand. *)
Definition dist_ge (d : dist) (t : Q) : bool :=
  Qle_bool t 0 || Qle_bool (t * t) (radicand d).

(** [d < t]. *)
Definition dist_lt (d : dist) (t : Q) : bool :=
  Qlt_bool 0 t && Qlt_bool (radicand d) (t * t).

(** The camera-space depth of a point: the third component of its
    homogeneous row times the world-to-view matrix. *)
Definition depth (cam : Camera) (p : vec3) : Q :=
  w2 (vecmat (homo p) (world_view_transform cam)).

(** The Euclidean distance of a point from the camera centre. *)
Definition distance (cam : Camera) (p : vec3) : dist :=
  norm (vsub p (camera_center cam)).

(** The distance [d] lies in the half-open range [[near, far)]. *)
Definition in_range (r : Q * Q) (d : dist) : bool :=
  dist_ge d (fst r) && dist_lt d (snd r).

(** The real number a symbolic distance stands for. *)
Definition dist_value (d : dist) : R := sqrt (Q2R (radicand d)).

(** Componentwise order on rows. *)
Definition vle (a b : vec3) : Prop :=
  vx a <= vx b /\ vy a <= vy b /\ vz a <= vz b.

(** A point lies in the box spanned by two opposite corners. *)
Definition inside (lo hi p : vec3) : Prop := vle lo p /\ vle p hi.

(** [t[i] <= t[i+1]] along a list of thresholds. *)
Fixpoint ascending (t : list Q) : bool :=
  match t with
  | a :: (b :: _) as t' => Qle_bool a b && ascending t'
  | _ => true
  end.

(** The distance ranges of a list of levels, in level order. *)
Definition level_ranges (levels : list BlockedGaussian) : list (Q * Q) :=
  map range levels.

(** The distance [d] lies in the range of some level. *)
Definition covered (levels : list BlockedGaussian) (d : dist) : bool :=
  existsb (fun r => in_range r d) (level_ranges levels).

(** ** Sample data *)

(** A kernel that accumulates from left to right, rounding every product and
    every sum to float32. *)
Definition dot4 (h : vec4) (a b c d : Q) : float32 :=
  let prod x y := SFmul 24 128 (to_float32 x) (to_float32 y) in
  SFadd 24 128
    (SFadd 24 128 (SFadd 24 128 (prod (w0 h) a) (prod (w1 h) b)) (prod (w2 h) c))
    (prod (w3 h) d).

Definition sequential : Kernel :=
  {| matmul := fun h m =>
       R4 (dot4 h (w0 (row0 m)) (w0 (row1 m)) (w0 (row2 m)) (w0 (row3 m)))
          (dot4 h (w1 (row0 m)) (w1 (row1 m)) (w1 (row2 m)) (w1 (row3 m)))
          (dot4 h (w2 (row0 m)) (w2 (row1 m)) (w2 (row2 m)) (w2 (row3 m)))
          (dot4 h (w3 (row0 m)) (w3 (row1 m)) (w3 (row2 m)) (w3 (row3 m)));
     torch_norm := fun v =>
       SFsqrt 24 128
         (SFadd 24 128
            (SFadd 24 128 (SFmul 24 128 (r0 v) (r0 v)) (SFmul 24 128 (r1 v) (r1 v)))
            (SFmul 24 128 (r2 v) (r2 v))) |}.

Definition identity_view : mat4 :=
  M4 (V4 1 0 0 0) (V4 0 1 0 0) (V4 0 0 1 0) (V4 0 0 0 1).

Definition origin_cam : Camera :=
  {| camera_center := V3 0 0 0; world_view_transform := identity_view |}.

Definition sample_level (r : Q * Q) (points : list vec3) (rows : list feat)
  : BlockedGaussian :=
  {| cell_corners := []; xyz := points; feats := rows;
     cell_ids := repeat 0%nat (length points); mask := repeat false (length points);
     block_dim := (1, 1, 1)%nat; num_cell := 1; aabb := []; scale := 1; range := r |}.

Definition sample_points : list vec3 :=
  [V3 0 0 1; V3 0 0 2; V3 0 0 5; V3 0 0 (-1)].

Definition sample_rows : list feat := map (map half) [[1]; [2]; [3]; [4]].

Definition near_level : BlockedGaussian := sample_level (0, 2) sample_points sample_rows.
Definition far_level : BlockedGaussian := sample_level (2, 10) sample_points sample_rows.

(** A level whose points are all behind the near clip, with no feature rows. *)
Definition clipped_level : BlockedGaussian :=
  sample_level (0, 2) [V3 0 0 (-1); V3 3 4 (1 # 10)] [].

(** Five points on the x axis, one of them far from the others. *)
Definition outlier_cell : list vec3 :=
  [V3 0 0 0; V3 0 0 0; V3 0 0 0; V3 0 0 0; V3 100 0 0].

(** ** Reading the log *)

(** The events that are rendering work: everything [render_set] does to the
    outside (loading scene variants and printing are not). *)
Definition rendering_work {View Frame} (e : event View Frame) : bool :=
  match e with
  | EvMakedirs _ | EvLoadCam _ _ _ _ _ | EvSynchronize | EvRender _
  | EvMimsave _ _ _ => true
  | EvLoadGaussians _ _ | EvPrint _ => false
  end.

(** The arguments of the calls of [loadCamV2], in call order:
    index, base view, resolution scale, pitch, height. *)
Definition cam_requests {View Frame} (l : list (event View Frame))
  : list (nat * View * Q * Q * Q) :=
  flat_map (fun e => match e with
                     | EvLoadCam idx view res pitch h => [(idx, view, res, pitch, h)]
                     | _ => []
                     end) l.

(** The values printed as average and as minimum FPS, in print order. *)
Definition printed_avg_fps {View Frame} (l : list (event View Frame)) : list Q :=
  flat_map (fun e => match e with EvPrint (PAverageFPS v) => [v] | _ => [] end) l.

Definition printed_min_fps {View Frame} (l : list (event View Frame)) : list Q :=
  flat_map (fun e => match e with EvPrint (PMinFPS v) => [v] | _ => [] end) l.

(** The duration lists handed to [imageio.mimsave], in call order. *)
Definition saved_durations {View Frame} (l : list (event View Frame)) : list (list Q) :=
  flat_map (fun e => match e with EvMimsave _ _ d => [d] | _ => [] end) l.

(** [sum(l)] and [max(l)] of a list of durations. *)
Definition Qsum (l : list Q) : Q := fold_right Qplus 0 l.

Definition Qmaximum (l : list Q) : Q :=
  match l with
  | [] => 0
  | x :: l' => fold_left py_max l' x
  end.

(** ** A sample environment *)

Definition sample_clock (n : nat) : Q := inject_Z (Z.of_nat n) / 100.

Definition sample_lp (configs : list string) (thresholds : list Q) : ModelParams :=
  {| sh_degree := 3; lp_block_dim := (1, 1, 1)%nat; lp_aabb := [];
     lod_configs := configs; dist_threshold := thresholds;
     model_path := "output/demo"; source_path := None;
     white_background := false |}.

Definition sample_pp : PipelineParams :=
  {| convert_SHs_python := false; compute_cov3D_python := false; debug := false |}.

Definition sample_loadCam (_ : ModelParams) (_ : nat) (_ : nat) (_ pitch h : Q) : Camera :=
  {| camera_center := V3 0 0 h; world_view_transform := identity_view |}.

(** One cell that holds every point. *)
Definition sample_block_filtering (_ : nat) (points : list vec3) (_ : list Q)
           (_ : nat * nat * nat) (_ : Q) : list bool :=
  map (fun _ => true) points.

Definition sample_model : GaussianModel :=
  {| get_xyz := [V3 0 0 1; V3 0 0 20];
     get_opacity := [[1]; [1]];
     get_features := [[1 # 2]; [1 # 3]];
     get_scaling := [[1]; [1]];
     get_rotation := [[0]; [0]];
     get_covariance := fun _ => [[1]; [1]] |}.

Definition sample_scene : Scene nat :=
  {| getTrainCameras := seq 0 400; getTestCameras := seq 400 82; loaded_iter := 30000 |}.

Definition sample_LargeScene (_ : ModelParams) (_ : option Z) (_ : bool)
  : GaussianModel * Scene nat :=
  (sample_model, sample_scene).

(** A stand-in renderer: the image is the number of composited points. *)
Definition sample_render_lod (cam : Camera) (levels : list BlockedGaussian)
           (_ : PipelineParams) (_ : list Q) : nat :=
  length (flat_map (fun l => out_positions sequential l cam) levels).

Definition sample_world : world nat nat := {| ticks := 0; log := [] |}.

Definition two_levels : ModelParams :=
  sample_lp ["fine.yaml"; "coarse.yaml"]%string [10].

(** Two configurations and no threshold. *)
Definition missing_threshold : ModelParams :=
  sample_lp ["fine.yaml"; "coarse.yaml"]%string [].

(** The level loop of [render_sets] on [two_levels]. *)
Definition sample_loaded
  : world nat nat * result (list BlockedGaussian * option (Scene nat)) :=
  load_levels (sample_lp [] []) sample_pp sample_block_filtering
    (fun s => s) (fun _ => sample_lp [] []) sample_LargeScene (fun s => s)
    (with_dist_threshold two_levels ([0] ++ dist_threshold two_levels ++ [far_sentinel]))
    None false None [] None (seq 0 (length (lod_configs two_levels))) sample_world.

Definition sample_levels : list BlockedGaussian :=
  match snd sample_loaded with
  | Ok built => fst built
  | Raise _ => []
  end.

Definition sample_scene_local : option (Scene nat) :=
  match snd sample_loaded with
  | Ok built => snd built
  | Raise _ => None
  end.

(** [render_sets] on a sample dataset. *)
Definition sample_render_sets (dataset : ModelParams) (skip_train skip_test : bool)
           (custom_test : option string) : world nat nat * result unit :=
  render_sets sample_clock (sample_lp [] []) sample_pp sample_loadCam (fun i : nat => i)
    sample_block_filtering (fun s => s) (fun _ => sample_lp [] []) sample_LargeScene
    sample_render_lod (fun s => s) (fun s => s)
    dataset None sample_pp false skip_train skip_test custom_test (-180) PyNone
    sample_world.

(** [render_set] of the single-model driver on 482 views, with a clock that
    advances by one hundredth of a second per reading. *)
Definition sample_render_set (height : pyval) : world nat nat * result unit :=
  render_set sample_clock (sample_lp [] []) sample_loadCam (fun i : nat => i)
    (fun (_ : Camera) (g : nat) (_ : PipelineParams) (_ : list Q) => g)
    "output/demo" "test" 30000 (seq 0 482) 7%nat sample_pp [0; 0; 0] (-180) height
    sample_world.


(** ** The sweep, frame by frame *)

(** The durations a sweep of [n] frames measures when it starts at the clock
    reading number [t0]: each frame takes two consecutive readings. *)
Fixpoint clock_durations (wall_clock : nat -> Q) (t0 n : nat) : list Q :=
  match n with
  | O => []
  | S n' =>
      (wall_clock (S t0) - wall_clock t0) :: clock_durations wall_clock (S (S t0)) n'
  end.

Section SweepTrace.

Variables View Image Frame : Type.
Variable lp : ModelParams.
Variable loadCamV2 : ModelParams -> nat -> View -> Q -> Q -> Q -> Camera.
Variable to_uint8_frame : Image -> Frame.
Variable G : Type.
Variable render : Camera -> G -> PipelineParams -> list Q -> Image.

(** The camera of the sweep at height [h], from the base view. *)
Definition pose (view : View) (pitch : Q) (h : Z) : Camera :=
  loadCamV2 lp 481 view 1 pitch (inject_Z h / 100).

(** What one frame of the sweep does to the outside. *)
Definition frame_events (view : View) (pitch : Q) (h : Z) : list (event View Frame) :=
  [EvLoadCam 481 view 1 pitch (inject_Z h / 100); EvSynchronize;
   EvRender (pose view pitch h); EvSynchronize].

(** The frame stored for height [h]. *)
Definition rendered_frame (gaussians : G) (pipeline : PipelineParams)
           (background : list Q) (view : View) (pitch : Q) (h : Z) : Frame :=
  to_uint8_frame (render (pose view pitch h) gaussians pipeline background).

End SweepTrace.

Arguments pose {View}.
Arguments frame_events {View} Frame.
Arguments rendered_frame {View Image Frame} lp loadCamV2 to_uint8_frame {G}.

(** The videos written, in order: path, frames, per-frame durations. *)
Definition saved_videos {View Frame} (l : list (event View Frame))
  : list (path * list Frame * list Q) :=
  flat_map (fun e => match e with EvMimsave p f d => [(p, f, d)] | _ => [] end) l.

(** The scene variants loaded, in order: configuration name and data path. *)
Definition loads {View Frame} (l : list (event View Frame))
  : list (string * option string) :=
  flat_map (fun e => match e with EvLoadGaussians c s => [(c, s)] | _ => [] end) l.

(** The directories created, in order. *)
Definition made_dirs {View Frame} (l : list (event View Frame)) : list path :=
  flat_map (fun e => match e with EvMakedirs p => [p] | _ => [] end) l.

(** Componentwise equality of rows, up to the representation of a rational. *)
Definition veq (a b : vec3) : Prop :=
  vx a == vx b /\ vy a == vy b /\ vz a == vz b.

(** ** The single-model driver *)

Module render_video.

Section SingleModel.

Variables View Image Frame : Type.
Variable wall_clock : nat -> Q.
Variable lp : ModelParams.
Variable loadCamV2 : ModelParams -> nat -> View -> Q -> Q -> Q -> Camera.
Variable to_uint8_frame : Image -> Frame.

(** The model class named by the configuration and [LargeScene], which
    loads the model it is given: the loaded model and the scene. *)
Variable LargeScene : ModelParams -> option Z -> bool -> GaussianModel * Scene View.
Variable render : Camera -> GaussianModel -> PipelineParams -> list Q -> Image.
Variable basename : string -> string.

Local Notation "x <- m ;; k" := (bind m (fun x => k))
  (at level 61, m at next level, right associativity).
Local Notation "m ;; k" := (bind m (fun _ => k))
  (at level 61, right associativity).

(** [render_sets] of [render_video.py]. *)
Definition render_sets (dataset : ModelParams) (iteration : option Z)
           (pipeline : PipelineParams) (load_vq skip_train skip_test : bool)
           (custom_test : option string) (pitch : Q) (height : pyval)
  : io View Frame unit :=
  let dataset :=
    if truthy custom_test then with_source_path dataset custom_test else dataset in
  let filename :=
    if truthy custom_test then option_map basename (source_path dataset) else None in
  let loaded := LargeScene dataset iteration load_vq in
  let gaussians := fst loaded in
  let scene := snd loaded in
  let bg_color := if white_background dataset then [1; 1; 1] else [0; 0; 0] in
  let background := bg_color in
  if truthy custom_test then
    let views := getTrainCameras scene ++ getTestCameras scene in
    name <- read_local "filename" filename ;;
    render_set wall_clock lp loadCamV2 to_uint8_frame render (model_path dataset) name
               (loaded_iter scene) views gaussians pipeline background pitch height ;;
    emit (EvPrint (PText "Skip both train and test, render all views"))
  else
    (if negb skip_train then
       render_set wall_clock lp loadCamV2 to_uint8_frame render (model_path dataset)
                  "train" (loaded_iter scene) (getTrainCameras scene) gaussians
                  pipeline background pitch height
     else ret tt) ;;
    (if negb skip_test then
       render_set wall_clock lp loadCamV2 to_uint8_frame render (model_path dataset)
                  "test" (loaded_iter scene) (getTestCameras scene) gaussians
                  pipeline background pitch height
     else ret tt).

End SingleModel.

Arguments render_sets {View Image Frame}.

End render_video.

(** ** More sample runs *)

(** The stand-in renderer of the single-model samples: the image is the
    number of points of the model. *)
Definition sample_render (_ : Camera) (g : GaussianModel) (_ : PipelineParams)
           (_ : list Q) : nat :=
  length (get_xyz g).

(** [render_set] on a view list, with the sample clock or another one. *)
Definition sample_sweep (clock : nat -> Q) (views : list nat)
  : world nat nat * result unit :=
  render_set clock (sample_lp [] []) sample_loadCam (fun i : nat => i) sample_render
    "output/demo" "test" 30000 views sample_model sample_pp [0; 0; 0] (-180) PyNone
    sample_world.


(** The level loop of [render_sets] on [two_levels] with a custom test path. *)
Definition sample_loaded_custom
  : world nat nat * result (list BlockedGaussian * option (Scene nat)) :=
  load_levels (sample_lp [] []) sample_pp sample_block_filtering
    (fun s => s) (fun _ => sample_lp [] []) sample_LargeScene (fun s => s)
    (with_dist_threshold two_levels ([0] ++ dist_threshold two_levels ++ [far_sentinel]))
    None false (Some "data/custom"%string) [] None
    (seq 0 (length (lod_configs two_levels))) sample_world.

(** The one sweep of the multi-level driver on that path. *)
Definition sample_custom_sweep : world nat nat * result unit :=
  render_set sample_clock (sample_lp [] []) sample_loadCam (fun i : nat => i)
    sample_render_lod (model_path two_levels) "data/custom" (loaded_iter sample_scene)
    (getTrainCameras sample_scene ++ getTestCameras sample_scene) sample_levels
    sample_pp [0; 0; 0] (-180) PyNone (fst sample_loaded_custom).

(** A scene whose train split alone reaches index 481. *)
Definition wide_scene : Scene nat :=
  {| getTrainCameras := seq 0 500; getTestCameras := seq 500 10; loaded_iter := 30000 |}.

(** [render_sets] of the single-model driver on a sample scene. *)
Definition sample_single (scene : Scene nat) (skip_train skip_test : bool)
           (custom_test : option string) : world nat nat * result unit :=
  render_video.render_sets sample_clock (sample_lp [] []) sample_loadCam
    (fun i : nat => i) (fun _ _ _ => (sample_model, scene)) sample_render (fun s => s)
    two_levels None sample_pp false skip_train skip_test custom_test (-180) PyNone
    sample_world.

(** ** The coarse filter, as a selection *)

(** The cell ids whose representative distance passes the range test. *)
Definition wanted_cells (r : Q * Q) (indices : list nat) (distances : list float32)
  : list nat :=
  map snd (filter (fun di => range_test r (fst di)) (combine distances indices)).

(** The rows of a tensor whose cell id is among [wanted]. *)
Definition rows_of_cells {A} (wanted : list nat) (ids : list nat) (rows : list A)
  : list A :=
  map snd (filter (fun ir => existsb (Nat.eqb (fst ir)) wanted) (combine ids rows)).

(** A level with cell ids, for the coarse filter: the first two points are
    in cell 0, the third in cell 1, the fourth in cell 2. *)
Definition celled_level : BlockedGaussian :=
  {| cell_corners := []; xyz := sample_points; feats := sample_rows;
     cell_ids := [0; 0; 1; 2]%nat; mask := repeat false 4;
     block_dim := (3, 1, 1)%nat; num_cell := 3; aabb := []; scale := 1;
     range := (0, 2) |}.

(** A level that lost its feature rows. *)
Definition broken_level : BlockedGaussian := sample_level (0, 2) sample_points [].

(** ** A sample grid of two cells *)

(** Cell 0 holds the points with [z < 10], cell 1 the others. *)
Definition split_block_filtering (cell_idx : nat) (points : list vec3) (_ : list Q)
           (_ : nat * nat * nat) (_ : Q) : list bool :=
  map (fun p => if (cell_idx =? 0)%nat then Qlt_bool (vz p) 10 else Qle_bool 10 (vz p))
      points.

Definition split_lp : ModelParams :=
  {| sh_degree := 3; lp_block_dim := (2, 1, 1)%nat; lp_aabb := [];
     lod_configs := []; dist_threshold := [];
     model_path := "output/demo"; source_path := None;
     white_background := false |}.

Definition split_built : result BlockedGaussian :=
  BlockedGaussian_init split_block_filtering sample_model split_lp (0, 10) 1 false.

Definition split_level : BlockedGaussian :=
  match split_built with
  | Ok level => level
  | Raise _ => near_level
  end.

(** ** Levels at the edge of a float32 comparison *)

(** One point whose depth from [origin_cam] is the float32 nearest to 0.2. *)
Definition edge_level : BlockedGaussian :=
  sample_level (0, 10) [V3 0 0 (13421773 # 67108864)] [[half 1]].

(** One point at distance the square root of 3; the far bound is a double
    just above it. *)
Definition diagonal_level : BlockedGaussian :=
  sample_level (0, 116235963 # 67108864) [V3 1 1 1] [[half 1]].

(** Two levels that share that double as a threshold. *)
Definition rounded_lower : BlockedGaussian :=
  sample_level (0, 116235963 # 67108864) [V3 1 1 1] [[half 1]].

Definition rounded_upper : BlockedGaussian :=
  sample_level (116235963 # 67108864, 10) [V3 1 1 1] [[half 1]].

(** A threshold beyond the far bound of the last level. *)
Definition beyond_sentinel : ModelParams :=
  sample_lp ["fine.yaml"; "coarse.yaml"]%string [2000000].

(** The level loop of [render_sets] on [beyond_sentinel]. *)
Definition beyond_loaded
  : world nat nat * result (list BlockedGaussian * option (Scene nat)) :=
  load_levels (sample_lp [] []) sample_pp sample_block_filtering
    (fun s => s) (fun _ => sample_lp [] []) sample_LargeScene (fun s => s)
    (with_dist_threshold beyond_sentinel
       ([0] ++ dist_threshold beyond_sentinel ++ [far_sentinel]))
    None false None [] None (seq 0 (length (lod_configs beyond_sentinel))) sample_world.

Definition beyond_levels : list BlockedGaussian :=
  match snd beyond_loaded with
  | Ok built => fst built
  | Raise _ => []
  end.

(** The bounds of a list of ranges, in order: near and far of the first,
    near and far of the second, and so on. *)
Definition bounds (rs : list (Q * Q)) : list Q :=
  flat_map (fun r => [fst r; snd r]) rs.
(** * Properties *)

(** ** Comparisons *)

Lemma Qlt_bool_iff (x y : Q) : Qlt_bool x y = true <-> x < y.
Proof. unfold Qlt_bool, Qlt. apply Z.ltb_lt. Qed.

Lemma Qlt_bool_false_iff (x y : Q) : Qlt_bool x y = false <-> y <= x.
Proof. unfold Qlt_bool, Qle. rewrite Z.ltb_ge. reflexivity. Qed.

Lemma Qle_bool_false_iff (x y : Q) : Qle_bool x y = false <-> y < x.
Proof.
  split; intro H.
  - apply Qnot_le_lt. intro C. apply Qle_bool_iff in C. congruence.
  - destruct (Qle_bool x y) eqn:E; [|reflexivity].
    apply Qle_bool_iff in E. exfalso. apply (Qlt_not_le _ _ H E).
Qed.

Lemma py_max_ge_l (a b : Q) : a <= py_max a b.
Proof.
  unfold py_max. destruct (Qlt_bool a b) eqn:E.
  - apply Qlt_bool_iff in E. apply Qlt_le_weak, E.
  - apply Qle_refl.
Qed.

Lemma py_max_ge_r (a b : Q) : b <= py_max a b.
Proof.
  unfold py_max. destruct (Qlt_bool a b) eqn:E.
  - apply Qle_refl.
  - apply Qlt_bool_false_iff, E.
Qed.

Lemma py_min_le_l (a b : Q) : py_min a b <= a.
Proof.
  unfold py_min. destruct (Qlt_bool b a) eqn:E.
  - apply Qlt_bool_iff in E. apply Qlt_le_weak, E.
  - apply Qle_refl.
Qed.

Lemma py_min_le_r (a b : Q) : py_min a b <= b.
Proof.
  unfold py_min. destruct (Qlt_bool b a) eqn:E.
  - apply Qle_refl.
  - apply Qlt_bool_false_iff, E.
Qed.

Lemma py_max_lub (a b c : Q) : a <= c -> b <= c -> py_max a b <= c.
Proof. unfold py_max. destruct (Qlt_bool a b); auto. Qed.

Lemma py_min_glb (a b c : Q) : c <= a -> c <= b -> c <= py_min a b.
Proof. unfold py_min. destruct (Qlt_bool b a); auto. Qed.

(** The two distance tests are complementary: [d < t] exactly when not [d >= t]. *)
Lemma dist_lt_negb_ge (d : dist) (t : Q) : dist_lt d t = negb (dist_ge d t).
Proof.
  unfold dist_lt, dist_ge. rewrite negb_orb. f_equal.
  - destruct (Qle_bool t 0) eqn:E; simpl.
    + apply Qlt_bool_false_iff. apply Qle_bool_iff, E.
    + apply Qlt_bool_iff. apply Qle_bool_false_iff, E.
  - destruct (Qle_bool (t * t) (radicand d)) eqn:E; simpl.
    + apply Qlt_bool_false_iff. apply Qle_bool_iff, E.
    + apply Qlt_bool_iff. apply Qle_bool_false_iff, E.
Qed.

(** [d >= t] is downward closed in the threshold. *)
Lemma dist_ge_mono (d : dist) (s t : Q) :
  s <= t -> dist_ge d t = true -> dist_ge d s = true.
Proof.
  unfold dist_ge. intros Hst H.
  apply orb_true_iff in H. apply orb_true_iff.
  destruct (Qle_bool s 0) eqn:Es; [now left|right].
  apply Qle_bool_false_iff in Es.
  destruct H as [H|H]; apply Qle_bool_iff in H; apply Qle_bool_iff.
  - exfalso. lra.
  - apply Qle_trans with (t * t); [|exact H]. nra.
Qed.

Lemma dist_ge_proper (d : dist) (s t : Q) : s == t -> dist_ge d s = dist_ge d t.
Proof.
  intro E.
  destruct (dist_ge d t) eqn:Ht.
  - apply dist_ge_mono with t; [rewrite E; apply Qle_refl|exact Ht].
  - destruct (dist_ge d s) eqn:Hs; [|reflexivity].
    rewrite <- Ht. symmetry.
    apply dist_ge_mono with s; [rewrite E; apply Qle_refl|exact Hs].
Qed.

Lemma Q2R_zero : Q2R 0 = 0%R.
Proof. unfold Q2R. simpl. apply Rmult_0_l. Qed.

(** The two tests decide the order between the real distance and the
    threshold. *)
Lemma dist_ge_real (d : dist) (t : Q) :
  dist_ge d t = true <-> (Q2R t <= dist_value d)%R.
Proof.
  unfold dist_ge, dist_value. rewrite orb_true_iff, !Qle_bool_iff.
  set (r := radicand d).
  pose proof (sqrt_pos (Q2R r)) as Hpos.
  split.
  - intros [H|H].
    + apply Qle_Rle in H. rewrite Q2R_zero in H. lra.
    + destruct (Qlt_le_dec 0 t) as [Ht|Ht].
      * apply Qlt_Rlt in Ht. rewrite Q2R_zero in Ht.
        apply Qle_Rle in H. rewrite Q2R_mult in H.
        rewrite <- (sqrt_square (Q2R t)) by lra.
        apply sqrt_le_1_alt. exact H.
      * apply Qle_Rle in Ht. rewrite Q2R_zero in Ht. lra.
  - intro H.
    destruct (Qlt_le_dec 0 t) as [Ht|Ht]; [right|now left].
    apply Qlt_Rlt in Ht. rewrite Q2R_zero in Ht.
    apply Rle_Qle. rewrite Q2R_mult.
    destruct (Rle_lt_dec 0 (Q2R r)) as [Hr|Hr].
    + rewrite <- (sqrt_sqrt (Q2R r)) by exact Hr.
      apply Rmult_le_compat; lra.
    + rewrite sqrt_neg_0 in H by lra. lra.
Qed.

Lemma dist_lt_real (d : dist) (t : Q) :
  dist_lt d t = true <-> (dist_value d < Q2R t)%R.
Proof.
  rewrite dist_lt_negb_ge, negb_true_iff.
  pose proof (dist_ge_real d t) as H.
  destruct (dist_ge d t).
  - split; [discriminate|]. intro C. apply proj1 in H. specialize (H eq_refl). lra.
  - split; [intros _|reflexivity].
    apply Rnot_le_lt. intro C. apply H in C. discriminate.
Qed.

(** ** Masks *)

Lemma mask_sum_map_zero {A} (f : A -> bool) (l : list A) :
  mask_sum (map f l) = 0%nat <-> (forall x, In x l -> f x = false).
Proof.
  unfold mask_sum. induction l as [|a l IH]; simpl.
  - split; [intros _ x []|reflexivity].
  - destruct (f a) eqn:E; simpl.
    + destruct (bool_dec true true) as [_|n]; [|congruence].
      split; [discriminate|]. intro H. specialize (H a (or_introl eq_refl)). congruence.
    + destruct (bool_dec false true) as [e|_]; [discriminate|].
      rewrite IH. split.
      * intros H x [<-|Hx]; auto.
      * intros H x Hx. apply H. now right.
Qed.

Lemma mask_and_map {A} (f g : A -> bool) (l : list A) :
  mask_and (map f l) (map g l) = map (fun x => f x && g x) l.
Proof. induction l as [|a l IH]; simpl; [reflexivity|now rewrite IH]. Qed.

Lemma index_mask_map {A} (f : A -> bool) (l : list A) :
  index_mask l (map f l) = Ok (filter f l).
Proof.
  induction l as [|a l IH]; simpl; [reflexivity|].
  rewrite IH. now destruct (f a).
Qed.

Lemma index_mask_rows {A B} (f : A -> bool) (l : list A) (fs : list B) :
  length fs = length l ->
  index_mask fs (map f l)
  = Ok (map snd (filter (fun pf => f (fst pf)) (combine l fs))).
Proof.
  revert fs. induction l as [|a l IH]; intros [|b fs] H; simpl in *; try discriminate.
  - reflexivity.
  - rewrite IH by congruence. now destruct (f a).
Qed.

Lemma filter_combine_fst {A B} (f : A -> bool) (l : list A) (fs : list B) :
  length fs = length l ->
  map fst (filter (fun pf => f (fst pf)) (combine l fs)) = filter f l.
Proof.
  revert fs. induction l as [|a l IH]; intros [|b fs] H; simpl in *; try discriminate.
  - reflexivity.
  - destruct (f a); simpl; rewrite IH by congruence; reflexivity.
Qed.

Lemma filter_all_false {A} (f : A -> bool) (l : list A) :
  (forall x, In x l -> f x = false) -> filter f l = [].
Proof.
  induction l as [|a l IH]; simpl; intro H; [reflexivity|].
  rewrite (H a (or_introl eq_refl)). apply IH. intros x Hx. apply H. now right.
Qed.

(** ** Float32 comparisons *)

Lemma SFcompare_antisym (a b : spec_float) :
  SFcompare b a = option_map CompOpp (SFcompare a b).
Proof.
  destruct a as [sa|sa| |sa ma ea], b as [sb|sb| |sb mb eb];
    try destruct sa; try destruct sb; try reflexivity;
    cbn [SFcompare option_map]; f_equal;
    rewrite (Z.compare_antisym ea eb);
    destruct (ea ?= eb)%Z; cbn [CompOpp]; try reflexivity;
    rewrite (Pos.compare_cont_antisym ma mb Eq); reflexivity.
Qed.

(** [a < b] and [a >= b] never both hold. *)
Lemma f_lt_not_ge (a b : float32) : f_lt a b = true -> f_ge a b = false.
Proof.
  unfold f_lt, f_ge, SFltb, SFleb. rewrite (SFcompare_antisym a b).
  destruct (SFcompare a b) as [[| |]|]; cbn [option_map CompOpp];
    try discriminate; reflexivity.
Qed.

Lemma f_ge_not_lt (a b : float32) : f_ge a b = true -> f_lt a b = false.
Proof.
  intro H. destruct (f_lt a b) eqn:E; [|reflexivity].
  apply f_lt_not_ge in E. congruence.
Qed.

(** *** A converted scalar is a number *)

Lemma iter_pos_invariant {A} (P : A -> Prop) (f : A -> A) :
  (forall x, P x -> P (f x)) -> forall p x, P x -> P (iter_pos f p x).
Proof.
  intro Hf. induction p as [p IH|p IH|]; intros x Hx; simpl; auto.
Qed.

Lemma shr_1_nonneg (mrs : shr_record) :
  (0 <= shr_m mrs)%Z -> (0 <= shr_m (shr_1 mrs))%Z.
Proof.
  destruct mrs as [m r s]. simpl. destruct m as [|[p|p|]|[p|p|]]; simpl; lia.
Qed.

Lemma shr_fexp_nonneg (prec emax m e : Z) (l : location) :
  (0 <= m)%Z -> (0 <= shr_m (fst (shr_fexp prec emax m e l)))%Z.
Proof.
  intro Hm. unfold shr_fexp, shr.
  assert (H0 : (0 <= shr_m (shr_record_of_loc m l))%Z).
  { destruct l as [|[| |]]; exact Hm. }
  destruct (_ - e)%Z; simpl; try exact H0.
  apply iter_pos_invariant; [exact shr_1_nonneg|exact H0].
Qed.

Lemma round_nearest_even_nonneg (m : Z) (l : location) :
  (0 <= m)%Z -> (0 <= round_nearest_even m l)%Z.
Proof.
  intro Hm. unfold round_nearest_even. destruct l as [|[| |]]; try lia.
  destruct (Z.even m); lia.
Qed.

Lemma binary_round_aux_number (prec emax : Z) (s : bool) (m e : Z) (l : location) :
  (0 <= m)%Z -> binary_round_aux prec emax s m e l <> S754_nan.
Proof.
  intro Hm. unfold binary_round_aux.
  pose proof (shr_fexp_nonneg prec emax m e l Hm) as H1.
  destruct (shr_fexp prec emax m e l) as [mrs' e']. cbn [fst] in H1.
  pose proof (shr_fexp_nonneg prec emax
                (round_nearest_even (shr_m mrs') (loc_of_shr_record mrs')) e' loc_Exact
                (round_nearest_even_nonneg _ _ H1)) as H2.
  destruct (shr_fexp prec emax _ e' loc_Exact) as [mrs'' e'']. cbn [fst] in H2.
  destruct (shr_m mrs'') as [|p|p]; try discriminate.
  - destruct (e'' <=? emax - prec)%Z; discriminate.
  - lia.
Qed.

Lemma SFdiv_number (prec emax : Z) (s1 s2 : bool) (m1 m2 : positive) (e1 e2 : Z) :
  SFdiv prec emax (S754_finite s1 m1 e1) (S754_finite s2 m2 e2) <> S754_nan.
Proof.
  unfold SFdiv.
  destruct (SFdiv_core_binary prec emax (Z.pos m1) e1 (Z.pos m2) e2) as [[mz ez] lz] eqn:E.
  apply binary_round_aux_number.
  unfold SFdiv_core_binary in E.
  set (m' := match _ with Z.pos _ => _ | Z0 => _ | Z.neg _ => _ end) in E.
  assert (Hm' : (0 <= m')%Z).
  { unfold m'. destruct (_ - _ - _)%Z; try lia. apply Z.shiftl_nonneg. lia. }
  pose proof (Z.div_pos m' (Z.pos m2) Hm' eq_refl) as Hq.
  unfold Z.div in Hq. destruct (Z.div_eucl m' (Z.pos m2)) as [q r].
  injection E as <- _ _. exact Hq.
Qed.

Lemma round_Q_number (prec emax : Z) (q : Q) : round_Q prec emax q <> S754_nan.
Proof.
  unfold round_Q. destruct (Qnum q); [discriminate| |]; apply SFdiv_number.
Qed.

Lemma convert_number (prec emax : Z) (x : spec_float) :
  x <> S754_nan -> convert prec emax x <> S754_nan.
Proof.
  destruct x as [s|s| |s m e]; try (intros; assumption).
  intros _. unfold convert, binary_round.
  destruct (shl_align _ _ _) as [mz ez]. apply binary_round_aux_number. lia.
Qed.

Lemma SFleb_refl (x : spec_float) : x <> S754_nan -> SFleb x x = true.
Proof.
  destruct x as [s|s| |s m e]; intro H; try congruence; unfold SFleb; simpl.
  - reflexivity.
  - destruct s; reflexivity.
  - rewrite Z.compare_refl. destruct s; simpl.
    + fold (Pos.compare m m). now rewrite Pos.compare_refl.
    + fold (Pos.compare m m). now rewrite Pos.compare_refl.
Qed.

(** A Python scalar converted to float32 is never a NaN: it is at least
    itself. *)
Lemma scalar_is_number (q : Q) :
  f_ge (scalar_to_float32 q) (scalar_to_float32 q) = true.
Proof.
  apply SFleb_refl, convert_number, round_Q_number.
Qed.

(** Two ranges that share a threshold have no float32 distance in common. *)
Lemma range_test_exclusive (lower upper : Q * Q) (d : float32) :
  snd lower = fst upper -> range_test lower d && range_test upper d = false.
Proof.
  intro Hshare. unfold range_test. rewrite Hshare.
  destruct (f_lt d (scalar_to_float32 (fst upper))) eqn:E.
  - rewrite (f_lt_not_ge _ _ E). simpl. now rewrite andb_false_r.
  - now rewrite andb_false_r.
Qed.

(** ** The fine filter *)

(** The mask the fine filter ends with, when some point passes the clip. *)
Lemma fine_mask (K : Kernel) (self : BlockedGaussian) (cam : Camera) :
  mask_and
    (map (fun c => f_gt (c2 c) (scalar_to_float32 near_clip))
         (map (fun h => matmul K h (world_view_transform cam)) (map homo (xyz self))))
    (map (range_test (range self))
         (map (fun p => torch_norm K (tsub p (camera_center cam))) (xyz self)))
  = map (keep K cam (range self)) (xyz self).
Proof.
  rewrite !map_map. rewrite mask_and_map. reflexivity.
Qed.

Lemma clip_mask (K : Kernel) (self : BlockedGaussian) (cam : Camera) :
  map (fun c => f_gt (c2 c) (scalar_to_float32 near_clip))
      (map (fun h => matmul K h (world_view_transform cam)) (map homo (xyz self)))
  = map (fun p => f_gt (cam_depth K cam p) (scalar_to_float32 near_clip)) (xyz self).
Proof. rewrite !map_map. reflexivity. Qed.

(** What [get_feats_ptwise] returns, for any state of [self]. *)
Lemma get_feats_ptwise_result (K : Kernel) (self : BlockedGaussian) (cam : Camera) :
  snd (get_feats_ptwise K self cam)
  = if (mask_sum (map (fun p => f_gt (cam_depth K cam p) (scalar_to_float32 near_clip))
                      (xyz self)) =? 0)%nat
    then Ok ([], [])
    else if (0 <? mask_sum (map (keep K cam (range self)) (xyz self)))%nat
         then rbind (index_mask (xyz self) (map (keep K cam (range self)) (xyz self)))
                (fun out_xyz =>
                   rbind (index_mask (feats self) (map (keep K cam (range self)) (xyz self)))
                     (fun out_feats => Ok (out_xyz, out_feats)))
         else Ok ([], []).
Proof.
  unfold get_feats_ptwise. rewrite fine_mask, clip_mask.
  destruct (mask_sum _ =? 0)%nat; [reflexivity|].
  destruct (0 <? mask_sum _)%nat; reflexivity.
Qed.

Lemma selected_nil (K : Kernel) (cam : Camera) (r : Q * Q) (ps : list vec3)
      (fs : list feat) :
  (forall p, In p ps -> keep K cam r p = false) ->
  selected K cam r (combine ps fs) = [].
Proof.
  intro H. apply filter_all_false. intros [p f] Hin. simpl.
  apply H. eapply in_combine_l, Hin.
Qed.

Lemma clipped_not_kept (K : Kernel) (cam : Camera) (r : Q * Q) (p : vec3) :
  f_gt (cam_depth K cam p) (scalar_to_float32 near_clip) = false -> keep K cam r p = false.
Proof. unfold keep. now intros ->. Qed.

(** The pair the fine filter returns for a level whose feature rows match
    its points. *)
Lemma get_feats_ptwise_filter (K : Kernel) (self : BlockedGaussian) (cam : Camera) :
  length (feats self) = length (xyz self) ->
  snd (get_feats_ptwise K self cam)
  = Ok (map fst (selected K cam (range self) (combine (xyz self) (feats self))),
        map snd (selected K cam (range self) (combine (xyz self) (feats self)))).
Proof.
  intro Hlen. rewrite get_feats_ptwise_result.
  destruct (mask_sum _ =? 0)%nat eqn:E1.
  - apply Nat.eqb_eq in E1.
    pose proof (proj1 (mask_sum_map_zero _ _) E1) as Hclip.
    rewrite selected_nil; [reflexivity|].
    intros p Hp. apply clipped_not_kept, Hclip, Hp.
  - destruct (0 <? mask_sum _)%nat eqn:E2.
    + rewrite index_mask_map, (index_mask_rows _ _ _ Hlen). simpl.
      unfold selected. now rewrite filter_combine_fst.
    + apply Nat.ltb_ge in E2.
      assert (E3 : mask_sum (map (keep K cam (range self)) (xyz self)) = 0%nat) by lia.
      pose proof (proj1 (mask_sum_map_zero _ _) E3) as Hnone.
      now rewrite selected_nil.
Qed.

(** Every position the fine filter returns passed its per-point test. *)
Lemma out_positions_kept (K : Kernel) (self : BlockedGaussian) (cam : Camera) (p : vec3) :
  In p (out_positions K self cam) -> keep K cam (range self) p = true.
Proof.
  unfold out_positions. rewrite get_feats_ptwise_result.
  destruct (mask_sum _ =? 0)%nat; [intros []|].
  destruct (0 <? mask_sum _)%nat; [|intros []].
  rewrite index_mask_map. simpl.
  destruct (index_mask (feats self) _); simpl; [|intros []].
  intro H. apply filter_In in H. tauto.
Qed.

(** A point of a level whose feature rows match its points is returned
    when its mask entry holds. *)
Lemma kept_in_out_positions (K : Kernel) (self : BlockedGaussian) (cam : Camera)
      (p : vec3) :
  length (feats self) = length (xyz self) ->
  In p (xyz self) -> keep K cam (range self) p = true ->
  In p (out_positions K self cam).
Proof.
  intros Hlen Hin Hkeep. unfold out_positions.
  rewrite (get_feats_ptwise_filter K self cam Hlen).
  unfold selected. rewrite (filter_combine_fst _ _ _ Hlen).
  apply filter_In. now split.
Qed.

(** C7. For every kernel, every level whose feature rows match its points
    and every camera, [get_feats_ptwise] returns exactly the positions and
    the feature rows of the points whose float32 camera-space depth is above
    0.2 converted to float32 and whose float32 distance from the camera
    centre is at least [near] and below [far], both converted to float32, in
    their stored order; every other point is left out. *)
Theorem get_feats_ptwise_selects (K : Kernel) (self : BlockedGaussian) (cam : Camera) :
  length (feats self) = length (xyz self) ->
  snd (get_feats_ptwise K self cam)
  = Ok (map fst (selected K cam (range self) (combine (xyz self) (feats self))),
        map snd (selected K cam (range self) (combine (xyz self) (feats self))))
  /\ (forall p f,
         In (p, f) (selected K cam (range self) (combine (xyz self) (feats self)))
         <-> In (p, f) (combine (xyz self) (feats self))
             /\ f_gt (cam_depth K cam p) (scalar_to_float32 near_clip) = true
             /\ f_ge (cam_distance K cam p) (scalar_to_float32 (fst (range self))) = true
             /\ f_lt (cam_distance K cam p) (scalar_to_float32 (snd (range self))) = true).
Proof.
  intro Hlen. split.
  - exact (get_feats_ptwise_filter K self cam Hlen).
  - intros p f. unfold selected. rewrite filter_In. simpl.
    unfold keep, range_test. rewrite !andb_true_iff. tauto.
Qed.

Lemma get_feats_ptwise_selects_witness :
  length (feats near_level) = length (xyz near_level)
  /\ snd (get_feats_ptwise sequential near_level origin_cam)
     = Ok ([V3 0 0 1], [[half 1]]).
Proof.
  split; [reflexivity|].
  exact (proj1 (get_feats_ptwise_selects sequential near_level origin_cam eq_refl)).
Defined.

(** C7, the statement in exact arithmetic fails.  A point whose depth is
    the float32 nearest to 0.2, which is above 0.2, and whose distance is
    in the range is not returned; neither is the point [(1, 1, 1)], whose
    distance, the square root of 3, is below a far bound that rounds to the
    float32 the distance rounds to. *)
Lemma get_feats_ptwise_decides_in_float32 :
  (length (feats edge_level) = length (xyz edge_level)
   /\ xyz edge_level = [V3 0 0 (13421773 # 67108864)]
   /\ near_clip < depth origin_cam (V3 0 0 (13421773 # 67108864))
   /\ in_range (range edge_level) (distance origin_cam (V3 0 0 (13421773 # 67108864)))
      = true
   /\ snd (get_feats_ptwise sequential edge_level origin_cam) = Ok ([], []))
  /\ (length (feats diagonal_level) = length (xyz diagonal_level)
      /\ xyz diagonal_level = [V3 1 1 1]
      /\ near_clip < depth origin_cam (V3 1 1 1)
      /\ in_range (range diagonal_level) (distance origin_cam (V3 1 1 1)) = true
      /\ snd (get_feats_ptwise sequential diagonal_level origin_cam) = Ok ([], [])).
Proof. repeat split; vm_compute; reflexivity. Qed.

(** C8. When no point of a level passes the near-clip test (no float32
    camera-space depth is above 0.2), [get_feats_ptwise] returns the empty
    positions and features and raises nothing, whatever the state of the
    level. *)
Theorem get_feats_ptwise_all_clipped (K : Kernel) (self : BlockedGaussian) (cam : Camera) :
  (forall p, In p (xyz self) ->
             f_gt (cam_depth K cam p) (scalar_to_float32 near_clip) = false) ->
  snd (get_feats_ptwise K self cam) = Ok ([], []).
Proof.
  intro H. rewrite get_feats_ptwise_result.
  assert (E : mask_sum (map (fun p => f_gt (cam_depth K cam p)
                                          (scalar_to_float32 near_clip)) (xyz self))
              = 0%nat).
  { apply mask_sum_map_zero. intros p Hp. apply H, Hp. }
  now rewrite E.
Qed.

Lemma get_feats_ptwise_all_clipped_witness :
  (forall p, In p (xyz clipped_level) ->
             f_gt (cam_depth sequential origin_cam p) (scalar_to_float32 near_clip) = false)
  /\ snd (get_feats_ptwise sequential clipped_level origin_cam) = Ok ([], []).
Proof.
  assert (H : forall p, In p (xyz clipped_level) ->
                f_gt (cam_depth sequential origin_cam p) (scalar_to_float32 near_clip)
                = false).
  { intros p [<-|[<-|[]]]; vm_compute; reflexivity. }
  split; [exact H|].
  exact (get_feats_ptwise_all_clipped sequential clipped_level origin_cam H).
Defined.

(** C4. Range membership is decided by the float32 comparisons
    [distance >= near] and [distance < far], with no tolerance, in the coarse
    and in the fine filter alike.  For two levels that share a threshold [t]
    (the far bound of one is the near bound of the other) no float32
    distance passes both range tests and no point passes both fine filters
    for one camera.  A point whose float32 distance is [t] converted to
    float32 is never returned by the level ending at [t]; the level
    starting at [t] returns it when it is one of its points, in front of the
    near clip and below that level's far bound. *)
Theorem shared_threshold_exclusive
        (K : Kernel) (cam : Camera) (lower upper : BlockedGaussian) (p : vec3) :
  snd (range lower) = fst (range upper) ->
  (forall d, range_test (range lower) d && range_test (range upper) d = false)
  /\ ~ (In p (out_positions K lower cam) /\ In p (out_positions K upper cam))
  /\ (cam_distance K cam p = scalar_to_float32 (fst (range upper)) ->
      ~ In p (out_positions K lower cam)
      /\ (length (feats upper) = length (xyz upper) ->
          In p (xyz upper) ->
          f_gt (cam_depth K cam p) (scalar_to_float32 near_clip) = true ->
          f_lt (scalar_to_float32 (fst (range upper)))
               (scalar_to_float32 (snd (range upper))) = true ->
          In p (out_positions K upper cam))).
Proof.
  intro Hshare.
  assert (Hrange : forall d,
             range_test (range lower) d && range_test (range upper) d = false).
  { intro d. now apply range_test_exclusive. }
  split; [exact Hrange|]. split.
  - intros [H1 H2]. apply out_positions_kept in H1, H2.
    unfold keep in H1, H2. apply andb_true_iff in H1, H2.
    specialize (Hrange (cam_distance K cam p)).
    destruct H1 as [_ H1], H2 as [_ H2]. rewrite H1, H2 in Hrange. discriminate.
  - intros Hd.
    pose proof (scalar_is_number (fst (range upper))) as Hnum.
    split.
    + intro H. apply out_positions_kept in H.
      unfold keep, range_test in H. rewrite Hshare, Hd in H.
      rewrite (f_ge_not_lt _ _ Hnum) in H.
      rewrite !andb_false_r in H. discriminate.
    + intros Hlen Hin Hclip Hfar.
      apply (kept_in_out_positions K upper cam p Hlen Hin).
      unfold keep, range_test. now rewrite Hclip, Hd, Hnum, Hfar.
Qed.

Lemma shared_threshold_exclusive_witness :
  snd (range near_level) = fst (range far_level)
  /\ cam_distance sequential origin_cam (V3 0 0 2)
     = scalar_to_float32 (fst (range far_level))
  /\ ~ In (V3 0 0 2) (out_positions sequential near_level origin_cam)
  /\ In (V3 0 0 2) (out_positions sequential far_level origin_cam).
Proof.
  assert (Hs : snd (range near_level) = fst (range far_level)) by reflexivity.
  assert (Hd : cam_distance sequential origin_cam (V3 0 0 2)
               = scalar_to_float32 (fst (range far_level))) by reflexivity.
  split; [exact Hs|]. split; [exact Hd|].
  destruct (proj2 (proj2 (shared_threshold_exclusive sequential origin_cam near_level
                            far_level (V3 0 0 2) Hs)) Hd) as [Hlow Hup].
  split; [exact Hlow|].
  apply Hup; [reflexivity|simpl; tauto|reflexivity|reflexivity].
Defined.

(** C4, the statement in exact arithmetic fails.  The point [(1, 1, 1)] is
    at distance the square root of 3, below the shared threshold
    116235963/67108864, so it is in the range of the level ending there and
    not in the range of the level starting there; its float32 distance is
    the float32 the threshold rounds to, and the fine filter of the level
    starting at the threshold returns it while that of the level ending
    there does not. *)
Lemma shared_threshold_decided_in_float32 :
  snd (range rounded_lower) = fst (range rounded_upper)
  /\ xyz rounded_lower = [V3 1 1 1] /\ xyz rounded_upper = [V3 1 1 1]
  /\ in_range (range rounded_lower) (distance origin_cam (V3 1 1 1)) = true
  /\ in_range (range rounded_upper) (distance origin_cam (V3 1 1 1)) = false
  /\ out_positions sequential rounded_lower origin_cam = []
  /\ out_positions sequential rounded_upper origin_cam = [V3 1 1 1].
Proof. repeat split; vm_compute; reflexivity. Qed.

(** ** Robust cell boxes *)

Lemma insert_sorted_In (x y : Q) (l : list Q) :
  In y (insert_sorted x l) <-> y = x \/ In y l.
Proof.
  induction l as [|a l IH]; simpl.
  - intuition.
  - destruct (Qle_bool x a); simpl; [intuition|].
    rewrite IH. intuition.
Qed.

Lemma sort_asc_In (y : Q) (l : list Q) : In y (sort_asc l) <-> In y l.
Proof.
  induction l as [|a l IH]; simpl; [reflexivity|].
  rewrite insert_sorted_In, IH. intuition.
Qed.

Lemma insert_sorted_length (x : Q) (l : list Q) :
  length (insert_sorted x l) = S (length l).
Proof.
  induction l as [|a l IH]; simpl; [reflexivity|].
  destruct (Qle_bool x a); simpl; [reflexivity|now rewrite IH].
Qed.

Lemma sort_asc_length (l : list Q) : length (sort_asc l) = length l.
Proof.
  induction l as [|a l IH]; simpl; [reflexivity|].
  now rewrite insert_sorted_length, IH.
Qed.

(** [torch.median] succeeds on a non-empty column and returns one of its entries. *)
Lemma median_member (l : list Q) :
  l <> [] -> exists m, median l = Ok m /\ In m l.
Proof.
  destruct l as [|a l]; [congruence|]. intros _.
  unfold median, py_index.
  destruct (nth_error (sort_asc (a :: l)) ((length (a :: l) - 1) / 2)) as [m|] eqn:E.
  - exists m. split; [reflexivity|].
    apply sort_asc_In. eapply nth_error_In, E.
  - exfalso. apply nth_error_None in E. rewrite sort_asc_length in E.
    simpl length in E.
    assert (H : ((S (length l) - 1) / 2 <= S (length l) - 1)%nat)
      by (apply Nat.Div0.div_le_upper_bound; lia).
    lia.
Qed.

Lemma fold_min_spec (l : list Q) (a : Q) :
  fold_left py_min l a <= a
  /\ (forall x, In x l -> fold_left py_min l a <= x)
  /\ (fold_left py_min l a = a \/ In (fold_left py_min l a) l).
Proof.
  revert a. induction l as [|b l IH]; intro a; simpl.
  - split; [apply Qle_refl|]. split; [intros x []|now left].
  - destruct (IH (py_min a b)) as (H1 & H2 & H3).
    split; [eapply Qle_trans; [exact H1|apply py_min_le_l]|].
    split.
    + intros x [<-|Hx]; [eapply Qle_trans; [exact H1|apply py_min_le_r]|auto].
    + destruct H3 as [H3|H3]; [|now right; right].
      rewrite H3. unfold py_min. destruct (Qlt_bool b a); [right; now left|now left].
Qed.

Lemma fold_max_spec (l : list Q) (a : Q) :
  a <= fold_left py_max l a
  /\ (forall x, In x l -> x <= fold_left py_max l a)
  /\ (fold_left py_max l a = a \/ In (fold_left py_max l a) l).
Proof.
  revert a. induction l as [|b l IH]; intro a; simpl.
  - split; [apply Qle_refl|]. split; [intros x []|now left].
  - destruct (IH (py_max a b)) as (H1 & H2 & H3).
    split; [eapply Qle_trans; [apply py_max_ge_l|exact H1]|].
    split.
    + intros x [<-|Hx]; [eapply Qle_trans; [apply py_max_ge_r|exact H1]|auto].
    + destruct H3 as [H3|H3]; [|now right; right].
      rewrite H3. unfold py_max. destruct (Qlt_bool a b); [right; now left|now left].
Qed.

Lemma amin_least (l : list Q) :
  l <> [] -> exists a, amin l = Ok a /\ In a l /\ (forall x, In x l -> a <= x).
Proof.
  destruct l as [|b l]; [congruence|]. intros _.
  destruct (fold_min_spec l b) as (H1 & H2 & H3).
  exists (fold_left py_min l b). split; [reflexivity|]. split.
  - destruct H3 as [->|H3]; [now left|now right].
  - intros x [<-|Hx]; auto.
Qed.

Lemma amax_greatest (l : list Q) :
  l <> [] -> exists a, amax l = Ok a /\ In a l /\ (forall x, In x l -> x <= a).
Proof.
  destruct l as [|b l]; [congruence|]. intros _.
  destruct (fold_max_spec l b) as (H1 & H2 & H3).
  exists (fold_left py_max l b). split; [reflexivity|]. split.
  - destruct H3 as [->|H3]; [now left|now right].
  - intros x [<-|Hx]; auto.
Qed.

(** One axis of the box: clamped into the extent of the column, around its median. *)
Lemma axis_box (n : Q) (xs : list Q) :
  0 <= n -> xs <> [] ->
  exists med dev lo hi,
    median xs = Ok med
    /\ median (map (fun x => Qabs (x - med)) xs) = Ok dev
    /\ amin xs = Ok lo /\ amax xs = Ok hi
    /\ (forall x, In x xs -> lo <= x <= hi)
    /\ lo <= py_max (med - n * dev) lo
    /\ py_max (med - n * dev) lo <= med
    /\ med <= py_min (med + n * dev) hi
    /\ py_min (med + n * dev) hi <= hi.
Proof.
  intros Hn Hne.
  destruct (median_member xs Hne) as (med & Hmed & Hin).
  assert (Hne' : map (fun x => Qabs (x - med)) xs <> []).
  { destruct xs; [congruence|discriminate]. }
  destruct (median_member _ Hne') as (dev & Hdev & Hdin).
  destruct (amin_least xs Hne) as (lo & Hlo & _ & Hle).
  destruct (amax_greatest xs Hne) as (hi & Hhi & _ & Hge).
  exists med, dev, lo, hi. repeat (split; [assumption|]).
  assert (Hdev0 : 0 <= dev).
  { apply in_map_iff in Hdin. destruct Hdin as (x & <- & _). apply Qabs_nonneg. }
  assert (Hnd : 0 <= n * dev) by (apply Qmult_le_0_compat; assumption).
  split; [intros x Hx; split; auto|].
  split; [apply py_max_ge_r|].
  split; [apply py_max_lub; [lra|auto]|].
  split; [apply py_min_glb; [lra|auto]|].
  apply py_min_le_r.
Qed.

Lemma map_axis_deviation (proj : vec3 -> Q) (med : vec3) (members : list vec3) :
  (forall a, proj (vabs a) = Qabs (proj a)) ->
  (forall a b, proj (vsub a b) = proj a - proj b) ->
  map proj (map (fun p => vabs (vsub p med)) members)
  = map (fun x => Qabs (x - proj med)) (map proj members).
Proof.
  intros Habs Hsub. rewrite !map_map. apply map_ext. intro p.
  now rewrite Habs, Hsub.
Qed.

Lemma map_nonempty {A B} (f : A -> B) (l : list A) : l <> [] -> map f l <> [].
Proof. destruct l; [congruence|discriminate]. Qed.

(** C2, as the code has it.  For a cell with at least one member point the
    box of [cell_divider] is the candidate box [median -/+ n * MAD] clamped
    into the per-axis extent of the members: on every axis
    [min <= xyz_min <= median <= xyz_max <= max], where [min] and [max] bound
    every member.  The box therefore lies inside the true extent and holds
    the median; it need not reach the true minimum and maximum. *)
Theorem cell_bbox_within_extent (n : Q) (members : list vec3) :
  0 <= n -> members <> [] ->
  exists xyz_min xyz_max med lo hi,
    cell_bbox n members = Ok (xyz_min, xyz_max)
    /\ median_dim0 members = Ok med
    /\ min_dim0 members = Ok lo
    /\ max_dim0 members = Ok hi
    /\ (forall p, In p members -> inside lo hi p)
    /\ vle lo xyz_min /\ vle xyz_min med /\ vle med xyz_max /\ vle xyz_max hi.
Proof.
  intros Hn Hne.
  destruct (axis_box n (map vx members) Hn (map_nonempty vx members Hne))
    as (mx & dx & lx & hx & Hmx & Hdx & Hlx & Hhx & Bx & X1 & X2 & X3 & X4).
  destruct (axis_box n (map vy members) Hn (map_nonempty vy members Hne))
    as (my & dy & ly & hy & Hmy & Hdy & Hly & Hhy & By & Y1 & Y2 & Y3 & Y4).
  destruct (axis_box n (map vz members) Hn (map_nonempty vz members Hne))
    as (mz & dz & lz & hz & Hmz & Hdz & Hlz & Hhz & Bz & Z1 & Z2 & Z3 & Z4).
  assert (Emed : median_dim0 members = Ok (V3 mx my mz)).
  { unfold median_dim0, reduce_dim0. now rewrite Hmx, Hmy, Hmz. }
  assert (Edev : median_dim0 (map (fun p => vabs (vsub p (V3 mx my mz))) members)
                 = Ok (V3 dx dy dz)).
  { unfold median_dim0, reduce_dim0.
    rewrite (map_axis_deviation vx), (map_axis_deviation vy), (map_axis_deviation vz);
      try reflexivity.
    cbn [vx vy vz]. now rewrite Hdx, Hdy, Hdz. }
  assert (Emin : min_dim0 members = Ok (V3 lx ly lz)).
  { unfold min_dim0, reduce_dim0. now rewrite Hlx, Hly, Hlz. }
  assert (Emax : max_dim0 members = Ok (V3 hx hy hz)).
  { unfold max_dim0, reduce_dim0. now rewrite Hhx, Hhy, Hhz. }
  eexists _, _, (V3 mx my mz), (V3 lx ly lz), (V3 hx hy hz).
  split.
  { unfold cell_bbox. rewrite Emed. simpl. rewrite Edev. simpl.
    rewrite Emin. simpl. rewrite Emax. simpl. reflexivity. }
  repeat (split; [assumption|]).
  split.
  { intros p Hp. unfold inside, vle. simpl.
    pose proof (Bx _ (in_map vx _ _ Hp)).
    pose proof (By _ (in_map vy _ _ Hp)).
    pose proof (Bz _ (in_map vz _ _ Hp)).
    tauto. }
  unfold vle. simpl. tauto.
Qed.

Lemma cell_bbox_within_extent_witness :
  0 <= 4 /\ outlier_cell <> []
  /\ exists xyz_min xyz_max med lo hi,
       cell_bbox 4 outlier_cell = Ok (xyz_min, xyz_max)
       /\ median_dim0 outlier_cell = Ok med
       /\ min_dim0 outlier_cell = Ok lo
       /\ max_dim0 outlier_cell = Ok hi
       /\ (forall p, In p outlier_cell -> inside lo hi p)
       /\ vle lo xyz_min /\ vle xyz_min med /\ vle med xyz_max /\ vle xyz_max hi.
Proof.
  assert (H4 : 0 <= 4) by (vm_compute; discriminate).
  assert (Hne : outlier_cell <> []) by discriminate.
  split; [exact H4|]. split; [exact Hne|].
  exact (cell_bbox_within_extent 4 outlier_cell H4 Hne).
Defined.

(** C2, as the specification states it, fails: of five points on the x axis at
    0, 0, 0, 0 and 100 the median is 0 and the MAD is 0, the box collapses
    to the origin, and the member at 100 (the true maximum) is outside. *)
Lemma cell_bbox_excludes_member :
  cell_bbox 4 outlier_cell = Ok (V3 0 0 0, V3 0 0 0)
  /\ max_dim0 outlier_cell = Ok (V3 100 0 0)
  /\ In (V3 100 0 0) outlier_cell
  /\ ~ inside (V3 0 0 0) (V3 0 0 0) (V3 100 0 0).
Proof.
  split; [reflexivity|]. split; [reflexivity|].
  split; [simpl; tauto|].
  intros [_ [H _]]. simpl in H. revert H. vm_compute. intro H. now apply H.
Qed.

(** ** Lists *)

Lemma nth_map_seq {A} (f : nat -> A) (n i : nat) (d : A) :
  (i < n)%nat -> nth i (map f (seq 0 n)) d = f i.
Proof.
  intro Hi.
  rewrite (nth_indep _ d (f 0%nat)) by (rewrite length_map, length_seq; exact Hi).
  rewrite map_nth, seq_nth by exact Hi. reflexivity.
Qed.

(** ** Construction keeps the assigned range *)

Lemma rbind_ok {A B} (r : result A) (k : A -> result B) (b : B) :
  rbind r k = Ok b -> exists a, r = Ok a /\ k a = Ok b.
Proof. destruct r as [a|e]; simpl; [eauto|discriminate]. Qed.

Lemma cell_step_range bf (n : Q) (self self' : BlockedGaussian) (c : nat) :
  cell_step bf n self c = Ok self' -> range self' = range self.
Proof.
  unfold cell_step. intro H.
  apply rbind_ok in H. destruct H as (ids & _ & H).
  apply rbind_ok in H. destruct H as (members & _ & H).
  apply rbind_ok in H. destruct H as (box & _ & H).
  injection H as <-. reflexivity.
Qed.

Lemma cell_loop_range bf (n : Q) (cells : list nat) :
  forall self self', cell_loop bf n self cells = Ok self' -> range self' = range self.
Proof.
  induction cells as [|c cells IH]; simpl; intros self self' H.
  - now injection H as <-.
  - destruct (cell_step bf n self c) as [s1|e] eqn:E; [|discriminate].
    rewrite (IH _ _ H). eapply cell_step_range, E.
Qed.

Lemma BlockedGaussian_init_range bf (g : GaussianModel) (lp : ModelParams)
      (rng : Q * Q) (scl : Q) (cov : bool) (level : BlockedGaussian) :
  BlockedGaussian_init bf g lp rng scl cov = Ok level -> range level = rng.
Proof.
  unfold BlockedGaussian_init, cell_divider. intro H.
  apply rbind_ok in H. destruct H as (self & H & Hstack).
  destruct (cell_corners self); [discriminate|]. injection Hstack as <-.
  apply rbind_ok in H. destruct H as (geometry & _ & H).
  apply rbind_ok in H. destruct H as (flat & _ & H).
  apply rbind_ok in H. destruct H as (head & _ & H).
  apply rbind_ok in H. destruct H as (fs & _ & H).
  apply cell_loop_range in H. exact H.
Qed.

(** ** Threshold lists *)

Lemma py_index_nth (l : list Q) (i : nat) (x : Q) :
  py_index l i = Ok x -> x = nth i l 0 /\ (i < length l)%nat.
Proof.
  unfold py_index. destruct (nth_error l i) as [y|] eqn:E; [|discriminate].
  intro H. injection H as <-. split.
  - symmetry. now apply nth_error_nth.
  - apply nth_error_Some. congruence.
Qed.

Lemma ascending_head (a : Q) (t : list Q) :
  ascending (a :: t) = true -> forall j, (j < length t)%nat -> a <= nth j t 0.
Proof.
  revert a. induction t as [|b t IH]; intros a H j Hj; [simpl in Hj; lia|].
  simpl in H. apply andb_true_iff in H. destruct H as [Hab Hrest].
  apply Qle_bool_iff in Hab.
  destruct j as [|j]; [exact Hab|].
  simpl. simpl in Hj. eapply Qle_trans; [exact Hab|]. apply IH; [exact Hrest|lia].
Qed.

Lemma ascending_tail (a : Q) (t : list Q) :
  ascending (a :: t) = true -> ascending t = true.
Proof.
  destruct t as [|b t]; [reflexivity|]. simpl. intro H.
  apply andb_true_iff in H. tauto.
Qed.

Lemma ascending_nth (t : list Q) :
  ascending t = true ->
  forall i j, (i <= j < length t)%nat -> nth i t 0 <= nth j t 0.
Proof.
  induction t as [|a t IH]; intros H i j Hij; [simpl in Hij; lia|].
  destruct i as [|i]; destruct j as [|j]; try lia.
  - apply Qle_refl.
  - simpl. apply ascending_head; [exact H|simpl in Hij; lia].
  - simpl. apply IH; [eapply ascending_tail, H|simpl in Hij; lia].
Qed.

Lemma last_default {A} (l : list A) (a d : A) :
  l <> [] -> last l a = last l d.
Proof.
  induction l as [|c l IH]; [congruence|]. intros _.
  destruct l as [|e l]; [reflexivity|].
  change (last (e :: l) a = last (e :: l) d). apply IH. discriminate.
Qed.

Lemma last_cons {A} (l : list A) (b a : A) : last (b :: l) a = last l b.
Proof.
  destruct l as [|c l]; [reflexivity|].
  change (last (c :: l) a = last (c :: l) b). apply last_default. discriminate.
Qed.

(** Along a list that starts at or below [d] and ends above it, some
    adjacent pair encloses [d]. *)
Lemma crossing (d : dist) (l : list Q) :
  forall a,
    dist_ge d a = true -> dist_ge d (last l a) = false ->
    exists i, (i < length l)%nat
              /\ dist_ge d (nth i (a :: l) 0) = true
              /\ dist_ge d (nth (S i) (a :: l) 0) = false.
Proof.
  induction l as [|b l IH]; intros a Ha Hlast.
  - simpl in Hlast. congruence.
  - destruct (dist_ge d b) eqn:Eb.
    + assert (Hl : dist_ge d (last l b) = false).
      { rewrite <- (last_cons l b a). exact Hlast. }
      destruct (IH b Eb Hl) as (i & Hi & H1 & H2).
      exists (S i). split; [simpl; lia|]. split; assumption.
    + exists 0%nat. split; [simpl; lia|]. split; assumption.
Qed.

(** The ranges cut from [[0] + t + [1e6]] for [len(t) + 1] levels. *)
Lemma synthesized_ranges (t : list Q) (n : nat) :
  n = S (length t) ->
  let thr := [0] ++ t ++ [far_sentinel] in
  let rs := map (fun i => (nth i thr 0, nth (i + 1) thr 0)) (seq 0 n) in
  length rs = n
  /\ (forall i, (S i < length rs)%nat ->
                snd (nth i rs (0, 0)) = fst (nth (S i) rs (0, 0)))
  /\ fst (nth 0 rs (0, 0)) = 0
  /\ snd (last rs (0, 0)) = far_sentinel
  /\ (forall d, dist_lt d far_sentinel = true ->
                exists i, (i < n)%nat /\ in_range (nth i rs (0, 0)) d = true)
  /\ (ascending t = true ->
      forall d i j, (i < n)%nat -> (j < n)%nat ->
                    in_range (nth i rs (0, 0)) d = true ->
                    in_range (nth j rs (0, 0)) d = true -> i = j).
Proof.
  intros Hn thr rs.
  assert (Hlen : length rs = n) by (unfold rs; now rewrite length_map, length_seq).
  assert (Hnth : forall i, (i < n)%nat ->
                   nth i rs (0, 0) = (nth i thr 0, nth (S i) thr 0)).
  { intros i Hi. unfold rs. rewrite nth_map_seq by exact Hi.
    now rewrite Nat.add_1_r. }
  assert (Hmid : forall m, (m < length t)%nat -> nth (S m) thr 0 = nth m t 0).
  { intros m Hm. unfold thr. simpl. now rewrite app_nth1. }
  split; [exact Hlen|]. split.
  { intros i Hi. rewrite Hlen in Hi. rewrite !Hnth by lia. reflexivity. }
  split; [rewrite Hnth by lia; reflexivity|]. split.
  { unfold rs. subst n. rewrite seq_S, map_app. simpl map. rewrite last_last.
    unfold thr. simpl. rewrite Nat.add_1_r. simpl.
    rewrite app_nth2 by lia. now rewrite Nat.sub_diag. }
  split.
  { intros d Hd.
    assert (H0 : dist_ge d 0 = true) by reflexivity.
    assert (HM : dist_ge d (last (t ++ [far_sentinel]) 0) = false).
    { rewrite last_last. rewrite dist_lt_negb_ge in Hd.
      now apply negb_true_iff in Hd. }
    destruct (crossing d (t ++ [far_sentinel]) 0 H0 HM) as (i & Hi & H1 & H2).
    rewrite length_app in Hi. simpl in Hi.
    exists i. split; [lia|]. rewrite Hnth by lia.
    unfold in_range. cbn [fst snd]. rewrite dist_lt_negb_ge.
    change (0 :: t ++ [far_sentinel]) with thr in H1, H2.
    now rewrite H1, H2. }
  intro Hasc.
  assert (Hlt : forall d i j, (i < j)%nat -> (j < n)%nat ->
                  in_range (nth i rs (0, 0)) d = true ->
                  in_range (nth j rs (0, 0)) d = true -> False).
  { intros d i j Hij Hj Hi1 Hj1. rewrite Hnth in Hi1, Hj1 by lia.
    unfold in_range in Hi1, Hj1. cbn [fst snd] in Hi1, Hj1.
    apply andb_true_iff in Hi1, Hj1. destruct Hi1 as [_ Hi1], Hj1 as [Hj1 _].
    destruct j as [|j]; [lia|].
    rewrite Hmid in Hi1, Hj1 by lia.
    rewrite dist_lt_negb_ge in Hi1. apply negb_true_iff in Hi1.
    rewrite (dist_ge_mono d (nth i t 0) (nth j t 0)) in Hi1;
      [discriminate|apply ascending_nth; [exact Hasc|lia]|exact Hj1]. }
  intros d i j Hi Hj Hi1 Hj1.
  destruct (Nat.lt_trichotomy i j) as [H|[H|H]]; [|exact H|].
  - exfalso. eapply Hlt; eauto.
  - exfalso. eapply Hlt; eauto.
Qed.

(** *** Sorted ranges *)

Lemma ascending_cons (a : Q) (l : list Q) :
  ascending l = true -> (forall x, In x l -> a <= x) -> ascending (a :: l) = true.
Proof.
  intros Hl Ha. destruct l as [|b l]; [reflexivity|].
  cbn [ascending]. apply andb_true_iff. split; [|exact Hl].
  apply Qle_bool_iff, Ha. now left.
Qed.

Lemma ascending_snoc (l : list Q) (m : Q) :
  ascending l = true -> (forall x, In x l -> x <= m) -> ascending (l ++ [m]) = true.
Proof.
  induction l as [|a l IH]; intros Hl Hm; [reflexivity|].
  destruct l as [|b l].
  - simpl. rewrite andb_true_r. apply Qle_bool_iff, Hm. now left.
  - change ((a :: b :: l) ++ [m]) with (a :: (b :: l) ++ [m]).
    change ((b :: l) ++ [m]) with (b :: l ++ [m]) in *.
    cbn [ascending] in Hl |- *. apply andb_true_iff in Hl. destruct Hl as [Hab Hl].
    apply andb_true_iff. split; [exact Hab|].
    apply IH; [exact Hl|]. intros x Hx. apply Hm. now right.
Qed.

(** The bounds of the ranges cut from adjacent entries of a list ascend
    exactly when the list does. *)
Lemma bounds_adjacent (l : list Q) :
  forall a,
    ascending (bounds (map (fun i => (nth i (a :: l) 0, nth (i + 1) (a :: l) 0))
                           (seq 0 (length l))))
    = ascending (a :: l).
Proof.
  induction l as [|b l IH]; intro a; [reflexivity|].
  cbn [length]. rewrite <- cons_seq, <- seq_shift. cbn [map]. rewrite map_map.
  change (ascending
            (a :: b :: bounds (map (fun i => (nth i (b :: l) 0, nth (i + 1) (b :: l) 0))
                                   (seq 0 (length l))))
          = ascending (a :: b :: l)).
  specialize (IH b).
  destruct l as [|c l]; [reflexivity|].
  cbn [length] in IH |- *. rewrite <- cons_seq in IH |- *.
  change (ascending
            (b :: c :: bounds (map (fun i => (nth i (b :: c :: l) 0,
                                               nth (i + 1) (b :: c :: l) 0))
                                   (seq 1 (length l))))
          = ascending (b :: c :: l)) in IH.
  change (ascending
            (a :: b :: b :: c
               :: bounds (map (fun i => (nth i (b :: c :: l) 0,
                                         nth (i + 1) (b :: c :: l) 0))
                              (seq 1 (length l))))
          = ascending (a :: b :: c :: l)).
  remember (bounds (map (fun i => (nth i (b :: c :: l) 0, nth (i + 1) (b :: c :: l) 0))
                        (seq 1 (length l)))) as rest.
  cbn [ascending] in IH |- *. rewrite <- IH.
  assert (Hbb : Qle_bool b b = true) by apply Qle_bool_iff, Qle_refl.
  now rewrite Hbb.
Qed.

(** The ranges cut from [[0] + t + [1e6]] are sorted ascending exactly
    when every threshold lies between 0 and 1e6. *)
Lemma synthesized_sorted (t : list Q) :
  ascending t = true ->
  let thr := [0] ++ t ++ [far_sentinel] in
  let rs := map (fun i => (nth i thr 0, nth (i + 1) thr 0)) (seq 0 (S (length t))) in
  ascending (bounds rs) = true
  <-> Forall (fun x => 0 <= x /\ x <= far_sentinel) t.
Proof.
  intros Hasc thr rs.
  assert (E : ascending (bounds rs) = ascending thr).
  { unfold rs, thr. cbn [app].
    replace (S (length t)) with (length (t ++ [far_sentinel]))
      by (rewrite length_app; simpl; lia).
    apply bounds_adjacent. }
  rewrite E. unfold thr. cbn [app]. rewrite Forall_forall. split.
  - intros H x Hx. apply (In_nth _ _ 0) in Hx. destruct Hx as (m & Hm & <-).
    pose proof (ascending_nth _ H) as Hnth.
    assert (L : length (0 :: t ++ [far_sentinel]) = S (S (length t)))
      by (simpl; rewrite length_app; simpl; lia).
    split.
    + specialize (Hnth 0%nat (S m)). cbn [nth] in Hnth.
      rewrite app_nth1 in Hnth by exact Hm. apply Hnth. lia.
    + specialize (Hnth (S m) (S (length t))). cbn [nth] in Hnth.
      rewrite app_nth1 in Hnth by exact Hm.
      rewrite app_nth2, Nat.sub_diag in Hnth by lia. apply Hnth. lia.
  - intro H. apply ascending_cons.
    + apply ascending_snoc; [exact Hasc|]. intros x Hx. apply H, Hx.
    + intros x Hx. apply in_app_or in Hx. destruct Hx as [Hx|[<-|[]]].
      * apply H, Hx.
      * discriminate.
Qed.

(** ** The drivers *)

Lemma py_range_sweep :
  py_range 500 2525 25
  = map (fun i => (500 + 25 * Z.of_nat i)%Z) (seq 0 81).
Proof. reflexivity. Qed.

Section DriverProperties.

Variables View Image Frame Cfg : Type.
Variable wall_clock : nat -> Q.
Variable lp : ModelParams.
Variable pp : PipelineParams.
Variable loadCamV2 : ModelParams -> nat -> View -> Q -> Q -> Q -> Camera.
Variable to_uint8_frame : Image -> Frame.
Variable block_filtering :
  nat -> list vec3 -> list Q -> nat * nat * nat -> Q -> list bool.
Variable yaml_load : string -> Cfg.
Variable parse_cfg : Cfg -> ModelParams.
Variable LargeScene : ModelParams -> option Z -> bool -> GaussianModel * Scene View.
Variable render_lod :
  Camera -> list BlockedGaussian -> PipelineParams -> list Q -> Image.
Variables stem basename : string -> string.

Local Abbreviation run_set := (render_set wall_clock lp loadCamV2 to_uint8_frame).
Local Abbreviation run_body := (sweep_body wall_clock lp loadCamV2 to_uint8_frame).
Local Abbreviation run_levels :=
  (load_levels (Frame := Frame) lp pp block_filtering yaml_load parse_cfg LargeScene stem).
Local Abbreviation run_sets :=
  (render_sets wall_clock lp pp loadCamV2 to_uint8_frame block_filtering yaml_load
               parse_cfg LargeScene render_lod stem basename).

(** C5. When the number of thresholds is not the number of level
    configurations minus one, [render_sets] raises at its first statement:
    the world is left as it was, so no scene variant has been loaded and
    no rendering work has been done. *)
Theorem render_sets_count_mismatch
        (dataset : ModelParams) (iteration : option Z) (pipeline : PipelineParams)
        (load_vq skip_train skip_test : bool) (custom_test : option string)
        (pitch : Q) (height : pyval) (w : world View Frame) :
  (Z.of_nat (length (lod_configs dataset)) - 1
   <> Z.of_nat (length (dist_threshold dataset)))%Z ->
  run_sets dataset iteration pipeline load_vq skip_train skip_test custom_test
           pitch height w
  = (w, Raise AssertionError).
Proof.
  intro H. apply Z.eqb_neq in H.
  unfold render_sets, bind, py_assert. rewrite H. reflexivity.
Qed.

(** C10. The [height] argument of [render_set] has no effect: the loop
    variable overwrites it before it is read, so two calls that differ in
    that argument only leave the same world (the same frames and
    durations handed to the video writer, the same printed lines) and
    return the same result. *)
Theorem render_set_ignores_height
        (G : Type) (render : Camera -> G -> PipelineParams -> list Q -> Image)
        (model_path name : string) (iteration : Z) (views : list View)
        (gaussians : G) (pipeline : PipelineParams) (background : list Q)
        (pitch : Q) (h1 h2 : pyval) (w : world View Frame) :
  run_set render model_path name iteration views gaussians pipeline background
          pitch h1 w
  = run_set render model_path name iteration views gaussians pipeline background
            pitch h2 w.
Proof.
  unfold render_set. rewrite py_range_sweep.
  change (seq 0 81) with (0%nat :: seq 1 80).
  cbn [map for_each]. reflexivity.
Qed.

(** *** The sweep loop *)

Section Sweep.

Variable G : Type.
Variable render : Camera -> G -> PipelineParams -> list Q -> Image.
Variables (views : list View) (gaussians : G) (pipeline : PipelineParams)
          (background : list Q) (pitch : Q) (idx : nat) (view : View).
Hypothesis base_view : py_index views idx = Ok view.

(** One iteration, when the base view exists: two clock readings, four
    events, one more frame and one more duration. *)
Lemma sweep_body_ok (s : locals Frame) (h : Z) (w : world View Frame) :
  run_body render views gaussians pipeline background pitch idx s h w
  = ({| ticks := S (S (ticks w));
        log := ((((log w ++ [EvLoadCam idx view 1 pitch (inject_Z h / 100)])
                  ++ [EvSynchronize])
                 ++ [EvRender (loadCamV2 lp idx view 1 pitch (inject_Z h / 100))])
                ++ [EvSynchronize]) |},
     Ok {| height := PyInt h;
           frames :=
             frames s
             ++ [to_uint8_frame
                   (render (loadCamV2 lp idx view 1 pitch (inject_Z h / 100))
                           gaussians pipeline background)];
           duration_list :=
             duration_list s ++ [wall_clock (S (ticks w)) - wall_clock (ticks w)];
           avg_render_time :=
             avg_render_time s + (wall_clock (S (ticks w)) - wall_clock (ticks w));
           max_render_time :=
             py_max (max_render_time s)
                    (wall_clock (S (ticks w)) - wall_clock (ticks w)) |}).
Proof.
  unfold sweep_body, bind, lift. rewrite base_view. reflexivity.
Qed.

(** The loop runs to its end and accounts for every height in order. *)
Lemma sweep_loop_ok (hs : list Z) :
  forall (s : locals Frame) (w : world View Frame),
  exists (s' : locals Frame) (w' : world View Frame) (ds : list Q),
    for_each (run_body render views gaussians pipeline background pitch idx) s hs w
    = (w', Ok s')
    /\ cam_requests (log w')
       = cam_requests (log w)
         ++ map (fun h => (idx, view, 1, pitch, inject_Z h / 100)) hs
    /\ printed_avg_fps (log w') = printed_avg_fps (log w)
    /\ printed_min_fps (log w') = printed_min_fps (log w)
    /\ saved_durations (log w') = saved_durations (log w)
    /\ length ds = length hs
    /\ duration_list s' = duration_list s ++ ds
    /\ avg_render_time s' == avg_render_time s + Qsum ds
    /\ max_render_time s' = fold_left py_max ds (max_render_time s)
    /\ (hs <> [] -> height s' = PyInt (last hs 0%Z)).
Proof.
  induction hs as [|h hs IH]; intros s w.
  - exists s, w, []. simpl. rewrite !app_nil_r. unfold Qsum. simpl.
    repeat split; try reflexivity; try (now rewrite Qplus_0_r); congruence.
  - cbn [for_each]. unfold bind at 1. rewrite sweep_body_ok.
    match goal with
    | |- context [for_each _ ?s1 hs ?w1] =>
        destruct (IH s1 w1)
          as (s' & w' & ds & E & Hc & Ha & Hm & Hs & Hl & Hd & Havg & Hmax & Hh)
    end.
    exists s', w', ((wall_clock (S (ticks w)) - wall_clock (ticks w)) :: ds).
    split; [exact E|].
    cbn [log] in Hc, Ha, Hm, Hs.
    unfold cam_requests, printed_avg_fps, printed_min_fps, saved_durations in *.
    rewrite !flat_map_app in Hc, Ha, Hm, Hs. cbn [flat_map app] in Hc, Ha, Hm, Hs.
    rewrite !app_nil_r in Ha, Hm, Hs. rewrite app_nil_r in Hc.
    split; [rewrite Hc, <- !app_assoc; reflexivity|].
    repeat (split; [assumption|]).
    split; [simpl; now rewrite Hl|].
    split; [rewrite Hd; cbn [duration_list]; now rewrite <- app_assoc|].
    split; [rewrite Havg; unfold Qsum; cbn [avg_render_time fold_right]; ring|].
    split; [rewrite Hmax; reflexivity|].
    intros _. destruct hs as [|h' hs'].
    + simpl in E. unfold ret in E. injection E as _ <-. reflexivity.
    + rewrite Hh by discriminate. reflexivity.
Qed.

End Sweep.

(** What one call of [render_set] leaves in the log, when the base view
    exists: the 81 camera requests, the duration list handed to the
    video writer, and the two reported rates. *)
Lemma render_set_trace
      (G : Type) (render : Camera -> G -> PipelineParams -> list Q -> Image)
      (model_path name : string) (iteration : Z) (views : list View)
      (gaussians : G) (pipeline : PipelineParams) (background : list Q)
      (pitch : Q) (height : pyval) (w : world View Frame) (view : View) :
  py_index views 481 = Ok view ->
  let out := run_set render model_path name iteration views gaussians pipeline
                     background pitch height w in
  exists (ds : list Q) (total worst : Q),
    length ds = 81%nat
    /\ total == Qsum ds
    /\ worst = fold_left py_max ds 0
    /\ cam_requests (log (fst out))
       = cam_requests (log w)
         ++ map (fun h => (481%nat, view, 1, pitch, inject_Z h / 100))
                (py_range 500 2525 25)
    /\ saved_durations (log (fst out)) = saved_durations (log w) ++ [ds]
    /\ (total == 0 -> snd out = Raise ZeroDivisionError)
    /\ (~ total == 0 ->
        printed_avg_fps (log (fst out))
        = printed_avg_fps (log w) ++ [inject_Z (Z.of_nat (length views)) / total])
    /\ (~ total == 0 -> ~ worst == 0 ->
        printed_min_fps (log (fst out)) = printed_min_fps (log w) ++ [1 / worst]
        /\ snd out = Ok tt).
Proof.
  intros Hv out.
  destruct (sweep_loop_ok G render views gaussians pipeline background pitch 481 view Hv
              (py_range 500 2525 25) (Build_locals height [] [] 0 0)
              {| ticks := ticks w;
                 log := log w ++ [EvMakedirs [model_path; name; "ours_lod_video"%string]] |})
    as (s' & w' & ds & E & Hc & Ha & Hm & Hs & Hl & Hd & Havg & Hmax & _).
  destruct s' as [hfin fr dl total worst].
  cbn [log duration_list avg_render_time max_render_time] in *.
  unfold cam_requests, printed_avg_fps, printed_min_fps, saved_durations in *.
  rewrite !flat_map_app in Hc, Ha, Hm, Hs. cbn [flat_map app] in Hc, Ha, Hm, Hs.
  rewrite !app_nil_r in Hc, Ha, Hm, Hs.
  exists ds, total, worst.
  split; [exact Hl|].
  split; [rewrite Havg; ring|].
  split; [exact Hmax|].
  assert (Eout : out
                 = (let w1 := {| ticks := ticks w';
                                 log := ((log w' ++ [EvMimsave
                                           ([model_path; name; "ours_lod_video"%string]
                                              ++ ["video.gif"%string]) fr dl])
                                         ++ [EvPrint (PSaved [model_path; name;
                                                              "ours_lod_video"%string])])
                                        ++ [EvPrint (PHeight hfin)] |} in
                    match py_div (inject_Z (Z.of_nat (length views))) total with
                    | Raise e => (w1, Raise e)
                    | Ok avg =>
                        let w2 := {| ticks := ticks w1;
                                     log := log w1 ++ [EvPrint (PAverageFPS avg)] |} in
                        match py_div 1 worst with
                        | Raise e => (w2, Raise e)
                        | Ok m => ({| ticks := ticks w2;
                                      log := log w2 ++ [EvPrint (PMinFPS m)] |}, Ok tt)
                        end
                    end)).
  { subst out. unfold render_set. unfold bind at 1. unfold emit at 1.
    unfold bind at 1. rewrite E. unfold bind, emit, lift. cbn [ticks log].
    destruct (py_div (inject_Z (Z.of_nat (length views))) total); [|reflexivity].
    destruct (py_div 1 worst); reflexivity. }
  rewrite Eout. clear Eout out. cbn zeta. unfold py_div.
  destruct (Qeq_bool total 0) eqn:Et.
  - apply Qeq_bool_iff in Et. cbn [fst snd log].
    rewrite !flat_map_app. cbn [flat_map app]. rewrite !app_nil_r.
    rewrite Hc, Hs, Hd. cbn [app].
    repeat split; try reflexivity; intros; exfalso; auto.
  - assert (Hnz : ~ total == 0) by (intro C; apply Qeq_bool_iff in C; congruence).
    destruct (Qeq_bool worst 0) eqn:Ew.
    + apply Qeq_bool_iff in Ew. cbn [fst snd log ticks].
      rewrite !flat_map_app. cbn [flat_map app]. rewrite !app_nil_r.
      rewrite Hc, Hs, Hd, Ha. cbn [app].
      repeat split; try reflexivity; intros; exfalso; auto.
    + assert (Hwz : ~ worst == 0) by (intro C; apply Qeq_bool_iff in C; congruence).
      cbn [fst snd log ticks].
      rewrite !flat_map_app. cbn [flat_map app]. rewrite !app_nil_r.
      rewrite Hc, Hs, Hd, Ha, Hm. cbn [app].
      repeat split; try reflexivity; intros; exfalso; auto.
Qed.


(** *** The level loop *)

(** One iteration of the level loop, spelled out. *)
Lemma load_levels_cons
      (dataset : ModelParams) (iteration : option Z) (load_vq : bool)
      (custom_test : option string) (acc : list BlockedGaussian)
      (scene : option (Scene View)) (i : nat) (rest : list nat)
      (w : world View Frame) :
  run_levels dataset iteration load_vq custom_test acc scene (i :: rest) w
  = match py_index (lod_configs dataset) i with
    | Raise e => (w, Raise e)
    | Ok config =>
        let loaded :=
          LargeScene
            (with_model_path
               (with_source_path (parse_cfg (yaml_load config)) custom_test)
               ("output/" ++ stem config)%string)
            iteration load_vq in
        let w1 :=
          {| ticks := ticks w;
             log := (log w ++ [EvLoadGaussians (stem config) custom_test])
                    ++ [EvPrint (PInit (stem config)
                                       (length (get_opacity (fst loaded))))] |} in
        match py_index (dist_threshold dataset) i with
        | Raise e => (w1, Raise e)
        | Ok near =>
            match py_index (dist_threshold dataset) (i + 1) with
            | Raise e => (w1, Raise e)
            | Ok far =>
                match BlockedGaussian_init block_filtering (fst loaded) lp
                        (near, far) 1 (compute_cov3D_python pp) with
                | Raise e => (w1, Raise e)
                | Ok lod_gs =>
                    run_levels dataset iteration load_vq custom_test
                               (acc ++ [lod_gs]) (Some (snd loaded)) rest w1
                end
            end
        end
    end.
Proof.
  cbn [load_levels]. unfold load_gaussians. unfold bind, lift, emit, ret.
  destruct (py_index (lod_configs dataset) i) as [config|e]; [|reflexivity].
  cbn [ticks log].
  destruct (py_index (dist_threshold dataset) i) as [near|e]; [|reflexivity].
  destruct (py_index (dist_threshold dataset) (i + 1)) as [far|e]; [|reflexivity].
  destruct (BlockedGaussian_init _ _ _ _ _ _) as [lod_gs|e]; reflexivity.
Qed.

(** The level loop does no rendering work; when it ends normally, the
    levels it added carry the ranges cut from the threshold list at the
    loop indices, and the local [scene] is assigned unless the loop had
    nothing to do. *)
Lemma load_levels_inv
      (dataset : ModelParams) (iteration : option Z) (load_vq : bool)
      (custom_test : option string) (indices : list nat) :
  forall (acc : list BlockedGaussian) (scene : option (Scene View))
         (w : world View Frame),
    filter rendering_work
           (log (fst (run_levels dataset iteration load_vq custom_test acc scene
                                 indices w)))
    = filter rendering_work (log w)
    /\ forall levels scene',
        snd (run_levels dataset iteration load_vq custom_test acc scene indices w)
        = Ok (levels, scene') ->
        level_ranges levels
        = level_ranges acc
          ++ map (fun i => (nth i (dist_threshold dataset) 0,
                            nth (i + 1) (dist_threshold dataset) 0)) indices
        /\ (scene' = None -> indices = [] /\ scene = None).
Proof.
  induction indices as [|i rest IH]; intros acc scene w.
  - simpl. split; [reflexivity|]. intros levels scene' H.
    injection H as <- <-. rewrite app_nil_r.
    split; [reflexivity|intro Hs; split; [reflexivity|exact Hs]].
  - rewrite load_levels_cons.
    destruct (py_index (lod_configs dataset) i) as [config|e];
      [|split; [reflexivity|discriminate]].
    cbv zeta.
    set (loaded := LargeScene _ iteration load_vq).
    set (w1 := Build_world _ _).
    assert (Hw1 : filter rendering_work (log w1) = filter rendering_work (log w)).
    { unfold w1. cbn [log]. rewrite !filter_app. simpl. now rewrite !app_nil_r. }
    destruct (py_index (dist_threshold dataset) i) as [near|e] eqn:En;
      [|split; [exact Hw1|discriminate]].
    destruct (py_index (dist_threshold dataset) (i + 1)) as [far|e] eqn:Ef;
      [|split; [exact Hw1|discriminate]].
    destruct (BlockedGaussian_init _ _ _ _ _ _) as [lod_gs|e] eqn:Eb;
      [|split; [exact Hw1|discriminate]].
    destruct (IH (acc ++ [lod_gs]) (Some (snd loaded)) w1) as [Hlog Hok].
    split; [now rewrite Hlog|].
    intros levels scene' H. destruct (Hok _ _ H) as [Hr Hs].
    split.
    + rewrite Hr. unfold level_ranges. rewrite map_app, <- app_assoc. simpl.
      apply BlockedGaussian_init_range in Eb. rewrite Eb.
      apply py_index_nth in En, Ef. destruct En as [-> _], Ef as [-> _].
      reflexivity.
    + intro Hnone. destruct (Hs Hnone) as [_ C]. discriminate.
Qed.

(** C1, as the code has it.  For [k] ascending thresholds and [k + 1]
    level configurations, the levels built by [render_sets] carry the
    ranges cut from [[0] + thresholds + [1e6]]: there are [k + 1] of them,
    each ends where the next begins, the first begins at 0 and the last
    ends at the finite bound 1e6.  Every distance below 1e6 lies in the
    range of some level, and no distance in the ranges of two.  The ranges
    are sorted ascending exactly when every threshold lies between 0 and
    1e6. *)
Theorem lod_ranges_partition
        (dataset : ModelParams) (iteration : option Z) (load_vq : bool)
        (custom_test : option string) (w w1 : world View Frame)
        (levels : list BlockedGaussian) (scene : option (Scene View)) :
  (Z.of_nat (length (lod_configs dataset)) - 1
   = Z.of_nat (length (dist_threshold dataset)))%Z ->
  ascending (dist_threshold dataset) = true ->
  run_levels
    (with_dist_threshold dataset ([0] ++ dist_threshold dataset ++ [far_sentinel]))
    iteration load_vq custom_test [] None
    (seq 0 (length (lod_configs dataset))) w
  = (w1, Ok (levels, scene)) ->
  let rs := level_ranges levels in
  length rs = length (lod_configs dataset)
  /\ (forall i, (S i < length rs)%nat ->
                snd (nth i rs (0, 0)) = fst (nth (S i) rs (0, 0)))
  /\ fst (nth 0 rs (0, 0)) = 0
  /\ snd (last rs (0, 0)) = far_sentinel
  /\ (forall d, dist_lt d far_sentinel = true -> covered levels d = true)
  /\ (forall d i j, (i < length rs)%nat -> (j < length rs)%nat ->
                    in_range (nth i rs (0, 0)) d = true ->
                    in_range (nth j rs (0, 0)) d = true -> i = j)
  /\ (ascending (bounds rs) = true
      <-> Forall (fun t => 0 <= t /\ t <= far_sentinel) (dist_threshold dataset)).
Proof.
  intros Hcount Hasc Hrun rs.
  assert (Hn : length (lod_configs dataset) = S (length (dist_threshold dataset)))
    by lia.
  destruct (load_levels_inv
              (with_dist_threshold dataset
                 ([0] ++ dist_threshold dataset ++ [far_sentinel]))
              iteration load_vq custom_test
              (seq 0 (length (lod_configs dataset))) [] None w) as [_ Hok].
  rewrite Hrun in Hok. destruct (Hok levels scene eq_refl) as [Hr _].
  cbn [dist_threshold with_dist_threshold] in Hr.
  change (level_ranges []) with (@nil (Q * Q)) in Hr. rewrite app_nil_l in Hr.
  destruct (synthesized_ranges (dist_threshold dataset)
              (length (lod_configs dataset)) Hn)
    as (S1 & S2 & S3 & S4 & S5 & S6).
  cbv zeta in S1, S2, S3, S4, S5, S6.
  unfold covered. fold rs. change (level_ranges levels) with rs in Hr.
  rewrite Hr.
  split; [exact S1|]. split; [exact S2|]. split; [exact S3|]. split; [exact S4|].
  split; [|split].
  - intros d Hd. destruct (S5 d Hd) as (i & Hi & Hin).
    apply existsb_exists. eexists. split; [|exact Hin].
    apply nth_In. now rewrite S1.
  - intros d i j Hi Hj. rewrite S1 in Hi, Hj. now apply S6.
  - rewrite Hn. exact (synthesized_sorted (dist_threshold dataset) Hasc).
Qed.

(** C9. In the multi-level driver, when no custom test path is given and
    the train or the test split is not skipped, [render_sets] ends in an
    error without doing any rendering work.  Once the count check has
    passed and the levels are loaded, that error is the read of the local
    [views], which only the custom-test branch assigns. *)
Theorem render_sets_views_unbound
        (dataset : ModelParams) (iteration : option Z) (pipeline : PipelineParams)
        (load_vq skip_train skip_test : bool) (custom_test : option string)
        (pitch : Q) (height : pyval) (w : world View Frame) :
  truthy custom_test = false ->
  skip_train && skip_test = false ->
  let out := run_sets dataset iteration pipeline load_vq skip_train skip_test
                      custom_test pitch height w in
  (exists e, snd out = Raise e)
  /\ filter rendering_work (log (fst out)) = filter rendering_work (log w)
  /\ (forall w1 built,
        (Z.of_nat (length (lod_configs dataset)) - 1
         = Z.of_nat (length (dist_threshold dataset)))%Z ->
        run_levels
          (with_dist_threshold dataset
             ([0] ++ dist_threshold dataset ++ [far_sentinel]))
          iteration load_vq custom_test [] None
          (seq 0 (length (lod_configs dataset))) w
        = (w1, Ok built) ->
        out = (w1, Raise (UnboundLocalError "views"))).
Proof.
  intros Hcustom Hskip out.
  assert (Hout :
    out
    = if (Z.of_nat (length (lod_configs dataset)) - 1
          =? Z.of_nat (length (dist_threshold dataset)))%Z
      then
        match run_levels
                (with_dist_threshold dataset
                   ([0] ++ dist_threshold dataset ++ [far_sentinel]))
                iteration load_vq custom_test [] None
                (seq 0 (length (lod_configs dataset))) w with
        | (w1, Raise e) => (w1, Raise e)
        | (w1, Ok built) =>
            match snd built with
            | None => (w1, Raise (UnboundLocalError "scene"))
            | Some _ => (w1, Raise (UnboundLocalError "views"))
            end
        end
      else (w, Raise AssertionError)).
  { subst out. unfold render_sets. unfold bind at 1. unfold py_assert.
    destruct (_ =? _)%Z; [|reflexivity].
    unfold ret at 1. unfold bind at 1.
    cbn [lod_configs with_dist_threshold].
    destruct (run_levels _ iteration load_vq custom_test [] None _ w)
      as [w1 [built|e]]; [|reflexivity].
    rewrite Hcustom.
    destruct skip_train; simpl in Hskip.
    - subst skip_test. unfold bind, ret, read_local, raise. simpl.
      destruct (snd built); reflexivity.
    - unfold bind, ret, read_local, raise. simpl.
      destruct (snd built); reflexivity. }
  destruct (load_levels_inv
              (with_dist_threshold dataset
                 ([0] ++ dist_threshold dataset ++ [far_sentinel]))
              iteration load_vq custom_test
              (seq 0 (length (lod_configs dataset))) [] None w) as [Hlog Hok].
  rewrite Hout. clear Hout out.
  destruct (_ =? _)%Z eqn:Ec.
  - destruct (run_levels _ iteration load_vq custom_test [] None _ w)
      as [w1 [built|e]] eqn:Erun; cbn [fst snd] in Hlog, Hok.
    + split; [destruct (snd built); eexists; reflexivity|].
      split; [destruct (snd built); exact Hlog|].
      intros w1' built' Hcount H. injection H as <- <-.
      destruct built as [levels scene]. cbn [snd].
      destruct scene as [sc|]; [reflexivity|].
      destruct (Hok levels None eq_refl) as [_ Hs].
      destruct (Hs eq_refl) as [Hnil _].
      assert (Hlen : length (seq 0 (length (lod_configs dataset))) = 0%nat)
        by now rewrite Hnil.
      rewrite length_seq in Hlen. lia.
    + split; [eexists; reflexivity|]. split; [exact Hlog|].
      intros w1' built' _ H. discriminate.
  - split; [eexists; reflexivity|]. split; [reflexivity|].
    intros w1 built Hcount _. apply Z.eqb_neq in Ec. contradiction.
Qed.

End DriverProperties.


(** C3, on the code.  With 482 views and every frame taking one hundredth
    of a second, the sweep renders 81 frames in 0.81 s: frame count over
    summed duration is 100, and one over the longest duration is 100.  The
    minimum is reported as 100, but the average as 482 / 0.81, the number
    of views over the summed duration. *)
Theorem average_fps_counts_views :
  let out := sample_render_set PyNone in
  let ds := hd [] (saved_durations (log (fst out))) in
  saved_durations (log (fst out)) = [ds]
  /\ length ds = 81%nat
  /\ map Qred ds = repeat (1 # 100) 81
  /\ Qred (inject_Z (Z.of_nat (length ds)) / Qsum ds) = 100
  /\ Qred (1 / Qmaximum ds) = 100
  /\ map Qred (printed_min_fps (log (fst out))) = [100]
  /\ map Qred (printed_avg_fps (log (fst out))) = [48200 # 81]
  /\ Qred (inject_Z (Z.of_nat (length (seq 0 482))) / Qsum ds) = 48200 # 81.
Proof.
  cbv zeta. repeat split; vm_compute; reflexivity.
Qed.

Lemma render_sets_count_mismatch_witness :
  (Z.of_nat (length (lod_configs missing_threshold)) - 1
   <> Z.of_nat (length (dist_threshold missing_threshold)))%Z
  /\ sample_render_sets missing_threshold false false None
     = (sample_world, Raise AssertionError).
Proof.
  assert (H : (Z.of_nat (length (lod_configs missing_threshold)) - 1
               <> Z.of_nat (length (dist_threshold missing_threshold)))%Z)
    by (vm_compute; discriminate).
  split; [exact H|].
  exact (render_sets_count_mismatch nat nat nat string sample_clock (sample_lp [] [])
           sample_pp sample_loadCam (fun i : nat => i) sample_block_filtering
           (fun s => s) (fun _ => sample_lp [] []) sample_LargeScene sample_render_lod
           (fun s => s) (fun s => s)
           missing_threshold None sample_pp false false false None (-180) PyNone
           sample_world H).
Defined.

Lemma sample_loaded_ok :
  sample_loaded = (fst sample_loaded, Ok (sample_levels, sample_scene_local)).
Proof. vm_compute. reflexivity. Defined.

Lemma lod_ranges_partition_witness :
  (Z.of_nat (length (lod_configs two_levels)) - 1
   = Z.of_nat (length (dist_threshold two_levels)))%Z
  /\ ascending (dist_threshold two_levels) = true
  /\ sample_loaded = (fst sample_loaded, Ok (sample_levels, sample_scene_local))
  /\ length (level_ranges sample_levels) = 2%nat
  /\ covered sample_levels (Sqrt 400) = true
  /\ ascending (bounds (level_ranges sample_levels)) = true.
Proof.
  split; [reflexivity|]. split; [reflexivity|]. split; [exact sample_loaded_ok|].
  pose proof (lod_ranges_partition nat nat string (sample_lp [] []) sample_pp
                sample_block_filtering (fun s => s) (fun _ => sample_lp [] [])
                sample_LargeScene (fun s => s)
                two_levels None false None sample_world (fst sample_loaded)
                sample_levels sample_scene_local eq_refl eq_refl sample_loaded_ok)
    as H.
  split; [exact (proj1 H)|].
  split; [exact (proj1 (proj2 (proj2 (proj2 (proj2 H)))) (Sqrt 400) eq_refl)|].
  apply (proj2 (proj2 (proj2 (proj2 (proj2 (proj2 H)))))).
  repeat constructor; discriminate.
Defined.

(** C1, as the specification states it, fails in two places.  The last
    range ends at 1e6, not at infinity: with the single threshold 10 the two
    ranges are [0, 10) and [10, 1e6), and the distance 2e6 (the root of 4e12)
    is in neither.  And ascending thresholds do not make the ranges sorted:
    with the single threshold 2e6 the ranges are [0, 2e6) and [2e6, 1e6),
    the last of which ends below its start. *)
Lemma lod_ranges_miss_far_distance :
  (snd sample_loaded = Ok (sample_levels, sample_scene_local)
   /\ level_ranges sample_levels = [(0, 10); (10, 1000000)]
   /\ snd (last (level_ranges sample_levels) (0, 0)) = 1000000
   /\ radicand (Sqrt 4000000000000) == 2000000 * 2000000
   /\ dist_ge (Sqrt 4000000000000) 0 = true
   /\ covered sample_levels (Sqrt 4000000000000) = false)
  /\ ((Z.of_nat (length (lod_configs beyond_sentinel)) - 1
       = Z.of_nat (length (dist_threshold beyond_sentinel)))%Z
      /\ ascending (dist_threshold beyond_sentinel) = true
      /\ snd beyond_loaded = Ok (beyond_levels, sample_scene_local)
      /\ level_ranges beyond_levels = [(0, 2000000); (2000000, 1000000)]
      /\ ascending (bounds (level_ranges beyond_levels)) = false).
Proof. repeat split; vm_compute; reflexivity. Qed.

Lemma render_sets_views_unbound_witness :
  truthy None = false
  /\ false && true = false
  /\ (Z.of_nat (length (lod_configs two_levels)) - 1
      = Z.of_nat (length (dist_threshold two_levels)))%Z
  /\ sample_loaded = (fst sample_loaded, Ok (sample_levels, sample_scene_local))
  /\ sample_render_sets two_levels false true None
     = (fst sample_loaded, Raise (UnboundLocalError "views")).
Proof.
  split; [reflexivity|]. split; [reflexivity|]. split; [reflexivity|].
  split; [exact sample_loaded_ok|].
  exact (proj2 (proj2
    (render_sets_views_unbound nat nat nat string sample_clock (sample_lp [] [])
       sample_pp sample_loadCam (fun i : nat => i) sample_block_filtering
       (fun s => s) (fun _ => sample_lp [] []) sample_LargeScene sample_render_lod
       (fun s => s) (fun s => s)
       two_levels None sample_pp false false true None (-180) PyNone sample_world
       eq_refl eq_refl))
    (fst sample_loaded) (sample_levels, sample_scene_local) eq_refl sample_loaded_ok).
Defined.

(** * Further properties of the code *)

(** ** The sweep in closed form *)

Lemma clock_durations_length (wall_clock : nat -> Q) (n : nat) :
  forall t0, length (clock_durations wall_clock t0 n) = n.
Proof. induction n as [|n IH]; intro t0; simpl; [reflexivity|now rewrite IH]. Qed.

Lemma clock_durations_nth (wall_clock : nat -> Q) (n : nat) :
  forall t0 i, (i < n)%nat ->
    nth i (clock_durations wall_clock t0 n) 0
    = wall_clock (t0 + 2 * i + 1)%nat - wall_clock (t0 + 2 * i)%nat.
Proof.
  induction n as [|n IH]; intros t0 i Hi; [lia|].
  destruct i as [|i]; cbn [clock_durations nth].
  - now rewrite Nat.mul_0_r, !Nat.add_0_r, Nat.add_1_r.
  - rewrite IH by lia.
    replace (S (S t0) + 2 * i + 1)%nat with (t0 + 2 * S i + 1)%nat by lia.
    replace (S (S t0) + 2 * i)%nat with (t0 + 2 * S i)%nat by lia.
    reflexivity.
Qed.


Section SweepClosedForm.

Variables View Image Frame : Type.
Variable wall_clock : nat -> Q.
Variable lp : ModelParams.
Variable loadCamV2 : ModelParams -> nat -> View -> Q -> Q -> Q -> Camera.
Variable to_uint8_frame : Image -> Frame.
Variable G : Type.
Variable render : Camera -> G -> PipelineParams -> list Q -> Image.
Variables (views : list View) (gaussians : G) (pipeline : PipelineParams)
          (background : list Q) (pitch : Q) (view : View).
Hypothesis base_view : py_index views 481 = Ok view.

Local Abbreviation frame_of :=
  (rendered_frame lp loadCamV2 to_uint8_frame render gaussians pipeline background
                  view pitch).

(** The loop of [render_set], spelled out for any list of heights. *)
Lemma sweep_loop_exact (hs : list Z) :
  forall (s : locals Frame) (w : world View Frame),
    for_each (sweep_body wall_clock lp loadCamV2 to_uint8_frame render views gaussians
                         pipeline background pitch 481) s hs w
    = ({| ticks := ticks w + 2 * length hs;
          log := log w ++ flat_map (frame_events Frame lp loadCamV2 view pitch) hs |},
       Ok {| height := match hs with [] => height s | _ :: _ => PyInt (last hs 0%Z) end;
             frames := frames s ++ map frame_of hs;
             duration_list :=
               duration_list s ++ clock_durations wall_clock (ticks w) (length hs);
             avg_render_time :=
               fold_left Qplus (clock_durations wall_clock (ticks w) (length hs))
                         (avg_render_time s);
             max_render_time :=
               fold_left py_max (clock_durations wall_clock (ticks w) (length hs))
                         (max_render_time s) |}).
Proof.
  induction hs as [|h hs IH]; intros s w.
  - destruct s, w. simpl. unfold ret. rewrite Nat.add_0_r, !app_nil_r. reflexivity.
  - cbn [for_each]. unfold bind at 1.
    rewrite (sweep_body_ok View Image Frame wall_clock lp loadCamV2 to_uint8_frame
               G render views gaussians pipeline background pitch 481 view base_view).
    rewrite IH. cbn [ticks log height frames duration_list avg_render_time
                     max_render_time length clock_durations fold_left flat_map map].
    f_equal.
    + f_equal; [lia|]. unfold frame_events at 2, pose. rewrite <- !app_assoc.
      reflexivity.
    + f_equal. rewrite <- !app_assoc. f_equal.
      destruct hs; reflexivity.
Qed.

End SweepClosedForm.

Lemma match_nonempty {A B} (l : list A) (a b : B) :
  l <> [] -> match l with [] => a | _ :: _ => b end = b.
Proof. destruct l; [congruence|reflexivity]. Qed.

Lemma flat_map_nil {A B} (l : list A) : flat_map (fun _ : A => @nil B) l = [].
Proof. induction l as [|a l IH]; simpl; [reflexivity|exact IH]. Qed.


Section RenderSetProperties.

Variables View Image Frame : Type.
Variable wall_clock : nat -> Q.
Variable lp : ModelParams.
Variable loadCamV2 : ModelParams -> nat -> View -> Q -> Q -> Q -> Camera.
Variable to_uint8_frame : Image -> Frame.
Variable G : Type.
Variable render : Camera -> G -> PipelineParams -> list Q -> Image.

Local Abbreviation run_set := (render_set wall_clock lp loadCamV2 to_uint8_frame render).

(** The whole effect of one call of [render_set] whose base view exists. *)
Lemma render_set_exact
      (model_path name : string) (iteration : Z) (views : list View)
      (gaussians : G) (pipeline : PipelineParams) (background : list Q)
      (pitch : Q) (height : pyval) (w : world View Frame) (view : View) :
  py_index views 481 = Ok view ->
  let heights := py_range 500 2525 25 in
  let ds := clock_durations wall_clock (ticks w) 81 in
  let video_path : path := [model_path; name; "ours_lod_video"%string] in
  let done :=
    log w
    ++ [EvMakedirs video_path]
    ++ flat_map (frame_events Frame lp loadCamV2 view pitch) heights
    ++ [EvMimsave (video_path ++ ["video.gif"%string])
                  (map (rendered_frame lp loadCamV2 to_uint8_frame render gaussians
                                       pipeline background view pitch) heights)
                  ds;
        EvPrint (PSaved video_path);
        EvPrint (PHeight (PyInt 2500))] in
  run_set model_path name iteration views gaussians pipeline background pitch height w
  = match py_div (inject_Z (Z.of_nat (length views))) (fold_left Qplus ds 0) with
    | Raise e => ({| ticks := ticks w + 162; log := done |}, Raise e)
    | Ok avg =>
        match py_div 1 (fold_left py_max ds 0) with
        | Raise e =>
            ({| ticks := ticks w + 162; log := done ++ [EvPrint (PAverageFPS avg)] |},
             Raise e)
        | Ok worst =>
            ({| ticks := ticks w + 162;
                log := done ++ [EvPrint (PAverageFPS avg); EvPrint (PMinFPS worst)] |},
             Ok tt)
        end
    end.
Proof.
  intros Hv heights ds video_path done.
  unfold render_set. unfold bind at 1. unfold emit at 1. unfold bind at 1.
  rewrite (sweep_loop_exact View Image Frame wall_clock lp loadCamV2 to_uint8_frame
             G render views gaussians pipeline background pitch view Hv).
  fold heights.
  assert (Hlen : length heights = 81%nat) by reflexivity.
  assert (Hlast : last heights 0%Z = 2500%Z) by reflexivity.
  assert (Hne : heights <> []) by (intro C; rewrite C in Hlen; discriminate).
  rewrite (match_nonempty heights _ _ Hne), Hlen, Hlast.
  cbn [ticks log frames duration_list avg_render_time max_render_time app].
  change (2 * 81)%nat with 162%nat. fold ds. fold video_path.
  unfold bind, emit, lift. cbn [ticks log].
  subst done.
  destruct (py_div (inject_Z (Z.of_nat (length views))) (fold_left Qplus ds 0));
    [|rewrite <- !app_assoc; reflexivity].
  destruct (py_div 1 (fold_left py_max ds 0));
    rewrite <- !app_assoc; reflexivity.
Qed.

(** What the log readers see of the frames of a sweep. *)
Lemma frames_rendering_work (view : View) (pitch : Q) (hs : list Z) :
  filter rendering_work (flat_map (frame_events Frame lp loadCamV2 view pitch) hs)
  = flat_map (frame_events Frame lp loadCamV2 view pitch) hs.
Proof.
  induction hs as [|h hs IH]; [reflexivity|].
  cbn [flat_map]. rewrite filter_app, IH. reflexivity.
Qed.

Lemma frames_no_video (view : View) (pitch : Q) (hs : list Z) :
  saved_videos (flat_map (frame_events Frame lp loadCamV2 view pitch) hs) = [].
Proof.
  induction hs as [|h hs IH]; [reflexivity|].
  unfold saved_videos in *. cbn [flat_map]. rewrite flat_map_app, IH. reflexivity.
Qed.



(** The sweep on a view list without index 481. *)
Lemma render_set_short
      (model_path name : string) (iteration : Z) (views : list View)
      (gaussians : G) (pipeline : PipelineParams) (background : list Q)
      (pitch : Q) (height : pyval) (w : world View Frame) :
  (length views <= 481)%nat ->
  run_set model_path name iteration views gaussians pipeline background pitch height w
  = ({| ticks := ticks w;
        log := log w ++ [EvMakedirs [model_path; name; "ours_lod_video"%string]] |},
     Raise IndexError).
Proof.
  intro Hlen.
  assert (Hidx : py_index views 481 = Raise IndexError).
  { unfold py_index. apply nth_error_None in Hlen. now rewrite Hlen. }
  unfold render_set. rewrite py_range_sweep.
  change (seq 0 81) with (0%nat :: seq 1 80). cbn [map for_each].
  unfold bind, emit, sweep_body, lift. rewrite Hidx. reflexivity.
Qed.

(** [render_set] needs a view at index 481: on a shorter list the first
    iteration raises [IndexError] when only the output directory has been
    created; the clock is not read, nothing is rendered or saved. *)
Theorem render_set_too_few_views
        (model_path name : string) (iteration : Z) (views : list View)
        (gaussians : G) (pipeline : PipelineParams) (background : list Q)
        (pitch : Q) (height : pyval) (w : world View Frame) :
  (length views <= 481)%nat ->
  run_set model_path name iteration views gaussians pipeline background pitch height w
  = ({| ticks := ticks w;
        log := log w ++ [EvMakedirs [model_path; name; "ours_lod_video"%string]] |},
     Raise IndexError).
Proof.
  intro Hlen.
  assert (Hidx : py_index views 481 = Raise IndexError).
  { unfold py_index. apply nth_error_None in Hlen. now rewrite Hlen. }
  unfold render_set. rewrite py_range_sweep.
  change (seq 0 81) with (0%nat :: seq 1 80). cbn [map for_each].
  unfold bind, emit, sweep_body, lift. rewrite Hidx. reflexivity.
Qed.

(** When the base view exists, [render_set] writes exactly one video, to
    [<model_path>/<name>/ours_lod_video/video.gif], with 81 frames and 81
    durations: frame [i] is the render of the pose at height [500 + 25 i],
    and its duration is the difference of the two clock readings taken
    around that render.  This holds whether or not the FPS report that
    follows raises. *)
Theorem render_set_saves_video
        (model_path name : string) (iteration : Z) (views : list View)
        (gaussians : G) (pipeline : PipelineParams) (background : list Q)
        (pitch : Q) (height : pyval) (w : world View Frame) (view : View) :
  nth_error views 481 = Some view ->
  exists (fs : list Frame) (ds : list Q),
    saved_videos
      (log (fst (run_set model_path name iteration views gaussians pipeline background
                         pitch height w)))
    = saved_videos (log w)
      ++ [([model_path; name; "ours_lod_video"; "video.gif"]%string, fs, ds)]
    /\ length fs = 81%nat /\ length ds = 81%nat
    /\ (forall i d, (i < 81)%nat ->
          nth i fs d
          = to_uint8_frame
              (render (loadCamV2 lp 481 view 1 pitch
                                 (inject_Z (500 + 25 * Z.of_nat i) / 100))
                      gaussians pipeline background))
    /\ (forall i, (i < 81)%nat ->
          nth i ds 0
          = wall_clock (ticks w + 2 * i + 1)%nat - wall_clock (ticks w + 2 * i)%nat).
Proof.
  intro Hv.
  assert (Hidx : py_index views 481 = Ok view) by (unfold py_index; now rewrite Hv).
  pose proof (render_set_exact model_path name iteration views gaussians pipeline
                background pitch height w view Hidx) as E.
  cbv zeta in E.
  eexists _, (clock_durations wall_clock (ticks w) 81).
  split; [|split; [|split; [apply clock_durations_length|split]]].
  - rewrite E.
    destruct (py_div _ _) as [avg|e];
      [destruct (py_div _ _) as [worst|e]|]; cbn [fst log];
      unfold saved_videos; rewrite !flat_map_app;
      fold (saved_videos (flat_map (frame_events Frame lp loadCamV2 view pitch)
                                   (py_range 500 2525 25)));
      rewrite frames_no_video; cbn [flat_map app];
      rewrite ?app_nil_r; reflexivity.
  - rewrite length_map. reflexivity.
  - intros i d Hi. rewrite py_range_sweep, map_map.
    rewrite nth_map_seq by exact Hi. reflexivity.
  - intros i Hi. now apply clock_durations_nth.
Qed.

(** When the base view exists, the rendering work of [render_set] is, in
    order: create the output directory; then for each of the 81 heights
    request the camera, synchronise, render, synchronise; then write the
    video.  The clock is read exactly 162 times, one reading after the first
    barrier and one after the second barrier of every frame. *)
Theorem render_set_barriers
        (model_path name : string) (iteration : Z) (views : list View)
        (gaussians : G) (pipeline : PipelineParams) (background : list Q)
        (pitch : Q) (height : pyval) (w : world View Frame) (view : View) :
  nth_error views 481 = Some view ->
  let out := run_set model_path name iteration views gaussians pipeline background
                     pitch height w in
  ticks (fst out) = (ticks w + 162)%nat
  /\ exists fs ds,
      filter rendering_work (log (fst out))
      = filter rendering_work (log w)
        ++ [EvMakedirs [model_path; name; "ours_lod_video"%string]]
        ++ flat_map (fun h => [EvLoadCam 481 view 1 pitch (inject_Z h / 100);
                               EvSynchronize;
                               EvRender (loadCamV2 lp 481 view 1 pitch (inject_Z h / 100));
                               EvSynchronize])
                    (py_range 500 2525 25)
        ++ [EvMimsave [model_path; name; "ours_lod_video"; "video.gif"]%string fs ds].
Proof.
  intros Hv out.
  assert (Hidx : py_index views 481 = Ok view) by (unfold py_index; now rewrite Hv).
  pose proof (render_set_exact model_path name iteration views gaussians pipeline
                background pitch height w view Hidx) as E.
  cbv zeta in E. subst out. rewrite E.
  change (fun h : Z =>
            [EvLoadCam 481 view 1 pitch (inject_Z h / 100); EvSynchronize;
             EvRender (loadCamV2 lp 481 view 1 pitch (inject_Z h / 100));
             EvSynchronize])
    with (frame_events Frame lp loadCamV2 view pitch).
  destruct (py_div _ _) as [avg|e];
    [destruct (py_div _ _) as [worst|e]|]; cbn [fst ticks log];
    (split; [reflexivity|]); eexists _, _;
    rewrite !filter_app, frames_rendering_work; cbn [filter rendering_work app];
    rewrite ?app_nil_r; reflexivity.
Qed.






End RenderSetProperties.

Lemma render_set_too_few_views_witness :
  (length (seq 0 100) <= 481)%nat
  /\ sample_sweep sample_clock (seq 0 100)
     = ({| ticks := 0; log := [EvMakedirs ["output/demo"; "test"; "ours_lod_video"]%string] |},
        Raise IndexError).
Proof.
  assert (H : (length (seq 0 100) <= 481)%nat) by (vm_compute; lia).
  split; [exact H|].
  exact (render_set_too_few_views nat nat nat sample_clock (sample_lp [] [])
           sample_loadCam (fun i : nat => i) GaussianModel sample_render
           "output/demo" "test" 30000 (seq 0 100) sample_model sample_pp [0; 0; 0]
           (-180) PyNone sample_world H).
Defined.

Lemma render_set_saves_video_witness :
  nth_error (seq 0 482) 481 = Some 481%nat
  /\ exists (fs : list nat) (ds : list Q),
       saved_videos (log (fst (sample_sweep sample_clock (seq 0 482))))
       = [(["output/demo"; "test"; "ours_lod_video"; "video.gif"]%string, fs, ds)]
       /\ length fs = 81%nat /\ length ds = 81%nat.
Proof.
  split; [reflexivity|].
  destruct (render_set_saves_video nat nat nat sample_clock (sample_lp [] [])
              sample_loadCam (fun i : nat => i) GaussianModel sample_render
              "output/demo" "test" 30000 (seq 0 482) sample_model sample_pp [0; 0; 0]
              (-180) PyNone sample_world 481%nat eq_refl)
    as (fs & ds & E & Hf & Hd & _).
  exists fs, ds. split; [exact E|]. split; [exact Hf|exact Hd].
Defined.

Lemma render_set_barriers_witness :
  nth_error (seq 0 482) 481 = Some 481%nat
  /\ ticks (fst (sample_sweep sample_clock (seq 0 482))) = 162%nat.
Proof.
  split; [reflexivity|].
  exact (proj1 (render_set_barriers nat nat nat sample_clock (sample_lp [] [])
                  sample_loadCam (fun i : nat => i) GaussianModel sample_render
                  "output/demo" "test" 30000 (seq 0 482) sample_model sample_pp
                  [0; 0; 0] (-180) PyNone sample_world 481%nat eq_refl)).
Defined.





(** ** The multi-level driver *)

Lemma map_nth_seq {A B} (f : A -> B) (l : list A) (d : A) :
  map (fun i => f (nth i l d)) (seq 0 (length l)) = map f l.
Proof.
  induction l as [|a l IH]; [reflexivity|].
  cbn [length seq map nth]. f_equal.
  rewrite <- seq_shift, map_map. exact IH.
Qed.

Lemma nth_last_seq {A} (l : list A) (d : A) :
  l <> [] -> nth (last (seq 0 (length l)) 0%nat) l d = last l d.
Proof.
  intro Hne.
  destruct (exists_last Hne) as (l' & a & ->).
  rewrite length_app. cbn [length]. rewrite Nat.add_1_r, seq_S, !last_last.
  cbn [Nat.add]. rewrite app_nth2 by lia. now rewrite Nat.sub_diag.
Qed.

Section MultiLevelProperties.

Variables View Image Frame Cfg : Type.
Variable wall_clock : nat -> Q.
Variable lp : ModelParams.
Variable pp : PipelineParams.
Variable loadCamV2 : ModelParams -> nat -> View -> Q -> Q -> Q -> Camera.
Variable to_uint8_frame : Image -> Frame.
Variable block_filtering :
  nat -> list vec3 -> list Q -> nat * nat * nat -> Q -> list bool.
Variable yaml_load : string -> Cfg.
Variable parse_cfg : Cfg -> ModelParams.
Variable LargeScene : ModelParams -> option Z -> bool -> GaussianModel * Scene View.
Variable render_lod :
  Camera -> list BlockedGaussian -> PipelineParams -> list Q -> Image.
Variables stem basename : string -> string.

Local Abbreviation run_levels :=
  (load_levels (Frame := Frame) lp pp block_filtering yaml_load parse_cfg LargeScene stem).
Local Abbreviation run_sets :=
  (render_sets wall_clock lp pp loadCamV2 to_uint8_frame block_filtering yaml_load
               parse_cfg LargeScene render_lod stem basename).
Local Abbreviation run_set :=
  (render_set wall_clock lp loadCamV2 to_uint8_frame render_lod).

(** What [load_gaussians] hands back for one configuration file. *)
Local Abbreviation loaded_from config iteration load_vq custom_test :=
  (LargeScene
     (with_model_path (with_source_path (parse_cfg (yaml_load config)) custom_test)
                      ("output/" ++ stem config)%string)
     iteration load_vq).

(** The level loop, on the loads and the scene it leaves: every index is
    loaded once, in order, from the custom test path, and the local [scene]
    ends as the scene of the last index. *)
Lemma load_levels_loads
      (dataset : ModelParams) (iteration : option Z) (load_vq : bool)
      (custom_test : option string) (indices : list nat) :
  forall (acc : list BlockedGaussian) (scene : option (Scene View))
         (w w1 : world View Frame) (levels : list BlockedGaussian)
         (scene' : option (Scene View)),
    run_levels dataset iteration load_vq custom_test acc scene indices w
    = (w1, Ok (levels, scene')) ->
    loads (log w1)
    = loads (log w)
      ++ map (fun i => (stem (nth i (lod_configs dataset) ""%string), custom_test))
             indices
    /\ cam_requests (log w1) = cam_requests (log w)
    /\ made_dirs (log w1) = made_dirs (log w)
    /\ ticks w1 = ticks w
    /\ length levels = (length acc + length indices)%nat
    /\ scene'
       = match indices with
         | [] => scene
         | _ :: _ =>
             Some (snd (loaded_from (nth (last indices 0%nat) (lod_configs dataset)
                                         ""%string)
                                    iteration load_vq custom_test))
         end.
Proof.
  induction indices as [|i rest IH]; intros acc scene w w1 levels scene' H.
  - simpl in H. unfold ret in H. injection H as <- <- <-.
    rewrite app_nil_r, Nat.add_0_r. repeat split; reflexivity.
  - rewrite load_levels_cons in H.
    destruct (py_index (lod_configs dataset) i) as [config|e] eqn:Ec; [|discriminate].
    cbv zeta in H.
    destruct (py_index (dist_threshold dataset) i) as [near|e]; [|discriminate].
    destruct (py_index (dist_threshold dataset) (i + 1)) as [far|e]; [|discriminate].
    destruct (BlockedGaussian_init _ _ _ _ _ _) as [lod_gs|e]; [|discriminate].
    apply IH in H. destruct H as (Hl & Hc & Hm & Ht & Hn & Hs).
    cbn [log ticks] in Hl, Hc, Hm, Ht.
    unfold loads, cam_requests, made_dirs in *.
    rewrite !flat_map_app in Hl, Hc, Hm. cbn [flat_map app] in Hl, Hc, Hm.
    rewrite !app_nil_r in Hc, Hm.
    assert (Econf : config = nth i (lod_configs dataset) ""%string).
    { unfold py_index in Ec.
      destruct (nth_error (lod_configs dataset) i) as [c|] eqn:En; [|discriminate].
      injection Ec as <-. symmetry. now apply nth_error_nth. }
    split; [rewrite Hl, Econf, <- !app_assoc; reflexivity|].
    split; [exact Hc|]. split; [exact Hm|]. split; [exact Ht|].
    split; [rewrite Hn, length_app; simpl; lia|].
    rewrite Hs. destruct rest as [|j rest']; [now rewrite Econf|].
    f_equal.
Qed.

(** The multi-level driver loads every configured level exactly once, in
    configuration order and each from the custom test path (or from no path
    when none is given), builds one level per configuration, and does all
    of this before any rendering work and without reading the clock. *)
Theorem render_sets_loads_in_order
        (dataset : ModelParams) (iteration : option Z) (load_vq : bool)
        (custom_test : option string) (w w1 : world View Frame)
        (levels : list BlockedGaussian) (scene : option (Scene View)) :
  run_levels
    (with_dist_threshold dataset ([0] ++ dist_threshold dataset ++ [far_sentinel]))
    iteration load_vq custom_test [] None
    (seq 0 (length (lod_configs dataset))) w
  = (w1, Ok (levels, scene)) ->
  loads (log w1)
  = loads (log w) ++ map (fun config => (stem config, custom_test)) (lod_configs dataset)
  /\ length levels = length (lod_configs dataset)
  /\ filter rendering_work (log w1) = filter rendering_work (log w)
  /\ ticks w1 = ticks w.
Proof.
  intro H.
  destruct (load_levels_loads _ _ _ _ _ _ _ _ _ _ _ H) as (Hl & _ & _ & Ht & Hn & _).
  cbn [lod_configs with_dist_threshold] in Hl.
  rewrite (map_nth_seq (fun c => (stem c, custom_test))) in Hl.
  rewrite length_seq in Hn.
  destruct (load_levels_inv View Frame Cfg lp pp block_filtering yaml_load parse_cfg
              LargeScene stem
              (with_dist_threshold dataset
                 ([0] ++ dist_threshold dataset ++ [far_sentinel]))
              iteration load_vq custom_test
              (seq 0 (length (lod_configs dataset))) [] None w)
    as [Hw _].
  rewrite H in Hw.
  repeat split; assumption.
Qed.

(** Without a custom test path the multi-level driver never does any
    rendering work, whatever the skip flags; with both splits skipped, a
    passing count check and all levels loaded, it returns normally. *)
Theorem render_sets_without_custom_test
        (dataset : ModelParams) (iteration : option Z) (pipeline : PipelineParams)
        (load_vq skip_train skip_test : bool) (custom_test : option string)
        (pitch : Q) (height : pyval) (w : world View Frame) :
  truthy custom_test = false ->
  let out := run_sets dataset iteration pipeline load_vq skip_train skip_test
                      custom_test pitch height w in
  filter rendering_work (log (fst out)) = filter rendering_work (log w)
  /\ (forall w1 built,
        skip_train = true -> skip_test = true ->
        (Z.of_nat (length (lod_configs dataset)) - 1
         = Z.of_nat (length (dist_threshold dataset)))%Z ->
        run_levels
          (with_dist_threshold dataset
             ([0] ++ dist_threshold dataset ++ [far_sentinel]))
          iteration load_vq custom_test [] None
          (seq 0 (length (lod_configs dataset))) w
        = (w1, Ok built) ->
        out = (w1, Ok tt)).
Proof.
  intros Hcustom out.
  assert (Hout :
    out
    = if (Z.of_nat (length (lod_configs dataset)) - 1
          =? Z.of_nat (length (dist_threshold dataset)))%Z
      then
        match run_levels
                (with_dist_threshold dataset
                   ([0] ++ dist_threshold dataset ++ [far_sentinel]))
                iteration load_vq custom_test [] None
                (seq 0 (length (lod_configs dataset))) w with
        | (w1, Raise e) => (w1, Raise e)
        | (w1, Ok built) =>
            if skip_train && skip_test then (w1, Ok tt)
            else match snd built with
                 | None => (w1, Raise (UnboundLocalError "scene"))
                 | Some _ => (w1, Raise (UnboundLocalError "views"))
                 end
        end
      else (w, Raise AssertionError)).
  { subst out. unfold render_sets. unfold bind at 1. unfold py_assert.
    destruct (_ =? _)%Z; [|reflexivity].
    unfold ret at 1. unfold bind at 1.
    cbn [lod_configs with_dist_threshold].
    destruct (load_levels _ _ _ _ _ _ _ _ iteration load_vq custom_test [] None _ w)
      as [w1 [built|e]]; [|reflexivity].
    rewrite Hcustom.
    destruct skip_train, skip_test; unfold bind, ret, read_local, raise; simpl;
      destruct (snd built); reflexivity. }
  destruct (load_levels_inv View Frame Cfg lp pp block_filtering yaml_load parse_cfg
              LargeScene stem
              (with_dist_threshold dataset
                 ([0] ++ dist_threshold dataset ++ [far_sentinel]))
              iteration load_vq custom_test
              (seq 0 (length (lod_configs dataset))) [] None w) as [Hlog _].
  rewrite Hout. clear Hout out.
  destruct (_ =? _)%Z eqn:Ec.
  - destruct (load_levels _ _ _ _ _ _ _ _ iteration load_vq custom_test [] None _ w)
      as [w1 [built|e]] eqn:Erun; cbn [fst] in Hlog.
    + split.
      * destruct (skip_train && skip_test); [exact Hlog|].
        destruct (snd built); exact Hlog.
      * intros w1' built' -> -> _ H. injection H as <- <-. reflexivity.
    + split; [exact Hlog|]. intros w1' built' _ _ _ H. discriminate.
  - split; [reflexivity|].
    intros w1 built _ _ Hcount _. apply Z.eqb_neq in Ec. contradiction.
Qed.

(** With a custom test path, once the count check has passed and the levels
    are loaded, the multi-level driver makes exactly one call of
    [render_set], whatever the skip flags: it is named after the basename
    of the path, and its camera list is the train cameras followed by the
    test cameras of the scene loaded for the last configuration.  The
    driver then prints its closing line, or passes on what that call raised. *)
Theorem render_sets_custom_test
        (dataset : ModelParams) (iteration : option Z) (pipeline : PipelineParams)
        (load_vq skip_train skip_test : bool) (test_path : string)
        (pitch : Q) (height : pyval) (w w1 : world View Frame)
        (levels : list BlockedGaussian) (scene : option (Scene View)) :
  truthy (Some test_path) = true ->
  (Z.of_nat (length (lod_configs dataset)) - 1
   = Z.of_nat (length (dist_threshold dataset)))%Z ->
  run_levels
    (with_dist_threshold dataset ([0] ++ dist_threshold dataset ++ [far_sentinel]))
    iteration load_vq (Some test_path) [] None
    (seq 0 (length (lod_configs dataset))) w
  = (w1, Ok (levels, scene)) ->
  let last_scene :=
    snd (loaded_from (last (lod_configs dataset) ""%string) iteration load_vq
                     (Some test_path)) in
  let sweep :=
    run_set (model_path dataset) (basename test_path) (loaded_iter last_scene)
            (getTrainCameras last_scene ++ getTestCameras last_scene) levels pipeline
            (if white_background dataset then [1; 1; 1] else [0; 0; 0])
            pitch height w1 in
  run_sets dataset iteration pipeline load_vq skip_train skip_test (Some test_path)
           pitch height w
  = match snd sweep with
    | Ok _ =>
        ({| ticks := ticks (fst sweep);
            log := log (fst sweep)
                   ++ [EvPrint (PText "Skip both train and test, render all views")] |},
         Ok tt)
    | Raise e => (fst sweep, Raise e)
    end.
Proof.
  intros Hcustom Hcount Hrun last_scene sweep.
  assert (Hne : lod_configs dataset <> []).
  { intro C. rewrite C in Hcount. simpl in Hcount. lia. }
  destruct (load_levels_loads _ _ _ _ _ _ _ _ _ _ _ Hrun) as (_ & _ & _ & _ & _ & Hs).
  cbn [lod_configs with_dist_threshold] in Hs.
  destruct (seq 0 (length (lod_configs dataset))) as [|i0 rest] eqn:Eseq.
  { apply (f_equal (@length nat)) in Eseq. rewrite length_seq in Eseq.
    destruct (lod_configs dataset); [congruence|discriminate]. }
  rewrite <- Eseq in Hs, Hrun. rewrite nth_last_seq in Hs by exact Hne.
  fold last_scene in Hs.
  unfold render_sets. unfold bind at 1. unfold py_assert.
  apply Z.eqb_eq in Hcount. rewrite Hcount.
  unfold ret at 1. unfold bind at 1.
  cbn [lod_configs with_dist_threshold]. rewrite Hrun, Hcustom.
  cbn [fst snd]. rewrite Hs.
  cbn [source_path with_source_path with_dist_threshold option_map
       white_background model_path].
  unfold read_local. unfold bind at 1. unfold ret at 1.
  unfold bind at 1. unfold ret at 1. unfold bind at 1. unfold ret at 1.
  unfold bind at 1. unfold ret at 1. unfold bind at 1.
  fold sweep. destruct sweep as [w2 [u|e]]; reflexivity.
Qed.

End MultiLevelProperties.

Lemma render_sets_loads_in_order_witness :
  sample_loaded = (fst sample_loaded, Ok (sample_levels, sample_scene_local))
  /\ loads (log (fst sample_loaded))
     = [("fine.yaml"%string, None); ("coarse.yaml"%string, None)]
  /\ length sample_levels = 2%nat.
Proof.
  split; [exact sample_loaded_ok|].
  pose proof (render_sets_loads_in_order nat nat string (sample_lp [] []) sample_pp
                sample_block_filtering (fun s => s) (fun _ => sample_lp [] [])
                sample_LargeScene (fun s => s)
                two_levels None false None sample_world (fst sample_loaded)
                sample_levels sample_scene_local sample_loaded_ok) as H.
  split; [exact (proj1 H)|exact (proj1 (proj2 H))].
Defined.

Lemma render_sets_without_custom_test_witness :
  truthy None = false
  /\ (Z.of_nat (length (lod_configs two_levels)) - 1
      = Z.of_nat (length (dist_threshold two_levels)))%Z
  /\ sample_loaded = (fst sample_loaded, Ok (sample_levels, sample_scene_local))
  /\ sample_render_sets two_levels true true None = (fst sample_loaded, Ok tt).
Proof.
  split; [reflexivity|]. split; [reflexivity|]. split; [exact sample_loaded_ok|].
  exact (proj2
    (render_sets_without_custom_test nat nat nat string sample_clock (sample_lp [] [])
       sample_pp sample_loadCam (fun i : nat => i) sample_block_filtering
       (fun s => s) (fun _ => sample_lp [] []) sample_LargeScene sample_render_lod
       (fun s => s) (fun s => s)
       two_levels None sample_pp false true true None (-180) PyNone sample_world
       eq_refl)
    (fst sample_loaded) (sample_levels, sample_scene_local) eq_refl eq_refl eq_refl
    sample_loaded_ok).
Defined.

Lemma sample_loaded_custom_ok :
  sample_loaded_custom = (fst sample_loaded_custom, Ok (sample_levels, Some sample_scene)).
Proof. vm_compute. reflexivity. Defined.

Lemma render_sets_custom_test_witness :
  truthy (Some "data/custom"%string) = true
  /\ (Z.of_nat (length (lod_configs two_levels)) - 1
      = Z.of_nat (length (dist_threshold two_levels)))%Z
  /\ sample_loaded_custom
     = (fst sample_loaded_custom, Ok (sample_levels, Some sample_scene))
  /\ sample_render_sets two_levels false true (Some "data/custom"%string)
     = match snd sample_custom_sweep with
       | Ok _ =>
           ({| ticks := ticks (fst sample_custom_sweep);
               log := log (fst sample_custom_sweep)
                      ++ [EvPrint (PText "Skip both train and test, render all views")] |},
            Ok tt)
       | Raise e => (fst sample_custom_sweep, Raise e)
       end.
Proof.
  split; [reflexivity|]. split; [reflexivity|]. split; [exact sample_loaded_custom_ok|].
  exact (render_sets_custom_test nat nat nat string sample_clock (sample_lp [] [])
           sample_pp sample_loadCam (fun i : nat => i) sample_block_filtering
           (fun s => s) (fun _ => sample_lp [] []) sample_LargeScene sample_render_lod
           (fun s => s) (fun s => s)
           two_levels None sample_pp false false true "data/custom" (-180) PyNone
           sample_world (fst sample_loaded_custom) sample_levels (Some sample_scene)
           eq_refl eq_refl sample_loaded_custom_ok).
Defined.

(** ** The single-model driver *)

Section SingleDriverProperties.

Variables View Image Frame : Type.
Variable wall_clock : nat -> Q.
Variable lp : ModelParams.
Variable loadCamV2 : ModelParams -> nat -> View -> Q -> Q -> Q -> Camera.
Variable to_uint8_frame : Image -> Frame.
Variable LargeScene : ModelParams -> option Z -> bool -> GaussianModel * Scene View.
Variable render : Camera -> GaussianModel -> PipelineParams -> list Q -> Image.
Variable basename : string -> string.

Local Abbreviation run_set := (render_set wall_clock lp loadCamV2 to_uint8_frame render).
Local Abbreviation run_single :=
  (render_video.render_sets wall_clock lp loadCamV2 to_uint8_frame LargeScene render
                            basename).

(** A call of [render_set] only appends to the log. *)
Lemma render_set_extends
      (model_path name : string) (iteration : Z) (views : list View)
      (gaussians : GaussianModel) (pipeline : PipelineParams) (background : list Q)
      (pitch : Q) (height : pyval) (w : world View Frame) :
  exists suffix,
    log (fst (run_set model_path name iteration views gaussians pipeline background
                      pitch height w))
    = log w ++ suffix.
Proof.
  destruct (nth_error views 481) as [view|] eqn:Hv.
  - assert (Hidx : py_index views 481 = Ok view) by (unfold py_index; now rewrite Hv).
    rewrite (render_set_exact View Image Frame wall_clock lp loadCamV2 to_uint8_frame
               GaussianModel render model_path name iteration views gaussians pipeline
               background pitch height w view Hidx).
    cbv zeta.
    destruct (py_div _ _) as [avg|e];
      [destruct (py_div _ _) as [worst|e]|]; cbn [fst log];
      rewrite <- ?app_assoc; eexists; reflexivity.
  - apply nth_error_None in Hv.
    rewrite (render_set_short View Image Frame wall_clock lp loadCamV2
               to_uint8_frame GaussianModel render model_path name iteration views
               gaussians pipeline background pitch height w Hv).
    cbn [fst log]. eexists. reflexivity.
Qed.

(** The single-model driver renders each split from its own cameras: with
    no custom test path and the train split not skipped, it first sweeps
    from view 481 of the train cameras of the scene, into
    [<model_path>/train/ours_lod_video]; the test split, if not skipped,
    comes after it. *)
Theorem single_driver_renders_train
        (dataset : ModelParams) (iteration : option Z) (pipeline : PipelineParams)
        (load_vq skip_test : bool) (custom_test : option string)
        (pitch : Q) (height : pyval) (w : world View Frame) (view : View) :
  truthy custom_test = false ->
  nth_error (getTrainCameras (snd (LargeScene dataset iteration load_vq))) 481
  = Some view ->
  let out := run_single dataset iteration pipeline load_vq false skip_test custom_test
                        pitch height w in
  exists more_requests more_dirs,
    cam_requests (log (fst out))
    = cam_requests (log w)
      ++ map (fun h => (481%nat, view, 1, pitch, inject_Z h / 100))
             (py_range 500 2525 25)
      ++ more_requests
    /\ made_dirs (log (fst out))
       = made_dirs (log w)
         ++ [[model_path dataset; "train"; "ours_lod_video"]%string] ++ more_dirs
    /\ (skip_test = true -> more_requests = [] /\ more_dirs = []).
Proof.
  intros Hcustom Hv out. subst out.
  unfold render_video.render_sets. rewrite Hcustom. cbn [negb].
  set (sc := snd (LargeScene dataset iteration load_vq)) in *.
  set (g := fst (LargeScene dataset iteration load_vq)).
  set (bg := if white_background dataset then [1; 1; 1] else [0; 0; 0]).
  assert (Hidx : py_index (getTrainCameras sc) 481 = Ok view)
    by (unfold py_index; now rewrite Hv).
  destruct (render_set_trace View Image Frame wall_clock lp loadCamV2 to_uint8_frame
              GaussianModel render (model_path dataset) "train" (loaded_iter sc)
              (getTrainCameras sc) g pipeline bg pitch height w view Hidx)
    as (ds & total & worst & _ & _ & _ & Hc & _).
  pose proof (render_set_exact View Image Frame wall_clock lp loadCamV2 to_uint8_frame
                GaussianModel render (model_path dataset) "train" (loaded_iter sc)
                (getTrainCameras sc) g pipeline bg pitch height w view Hidx) as E.
  cbv zeta in E.
  assert (Hd : made_dirs
                 (log (fst (run_set (model_path dataset) "train" (loaded_iter sc)
                                    (getTrainCameras sc) g pipeline bg pitch height w)))
               = made_dirs (log w)
                 ++ [[model_path dataset; "train"; "ours_lod_video"]%string]).
  { rewrite E.
    assert (Hf : forall hs,
              made_dirs (flat_map (frame_events Frame lp loadCamV2 view pitch) hs) = []).
    { induction hs as [|h hs IH]; [reflexivity|].
      unfold made_dirs in *. cbn [flat_map]. rewrite flat_map_app, IH. reflexivity. }
    destruct (py_div _ _) as [avg|e];
      [destruct (py_div _ _) as [wst|e]|]; cbn [fst log];
      unfold made_dirs; rewrite !flat_map_app;
      fold (made_dirs (flat_map (frame_events Frame lp loadCamV2 view pitch)
                                (py_range 500 2525 25)));
      rewrite Hf; cbn [flat_map app]; rewrite ?app_nil_r; reflexivity. }
  clear E. unfold bind.
  destruct (run_set (model_path dataset) "train" (loaded_iter sc) (getTrainCameras sc)
                    g pipeline bg pitch height w) as [w1 [u|e]] eqn:Etrain;
    cbn [fst] in Hc, Hd.
  - destruct skip_test; cbn [negb].
    + unfold ret. cbn [fst]. exists [], []. rewrite !app_nil_r.
      split; [exact Hc|]. split; [exact Hd|]. intros _. split; reflexivity.
    + destruct (render_set_extends (model_path dataset) "test" (loaded_iter sc)
                  (getTestCameras sc) g pipeline bg pitch height w1) as (suffix & Es).
      rewrite Es. unfold cam_requests, made_dirs in *. rewrite !flat_map_app, Hc, Hd.
      eexists _, _. rewrite <- !app_assoc.
      split; [reflexivity|]. split; [reflexivity|]. discriminate.
  - cbn [fst]. exists [], []. rewrite !app_nil_r.
    split; [exact Hc|]. split; [exact Hd|]. intros _. split; reflexivity.
Qed.

(** A train split with fewer than 482 cameras stops the single-model
    driver: with no custom test path and the train split not skipped, the
    call raises [IndexError] once the train output directory exists, and
    the test split is not started, whether skipped or not. *)
Theorem single_driver_short_train_split
        (dataset : ModelParams) (iteration : option Z) (pipeline : PipelineParams)
        (load_vq skip_test : bool) (custom_test : option string)
        (pitch : Q) (height : pyval) (w : world View Frame) :
  truthy custom_test = false ->
  (length (getTrainCameras (snd (LargeScene dataset iteration load_vq))) <= 481)%nat ->
  run_single dataset iteration pipeline load_vq false skip_test custom_test
             pitch height w
  = ({| ticks := ticks w;
        log := log w
               ++ [EvMakedirs [model_path dataset; "train"; "ours_lod_video"]%string] |},
     Raise IndexError).
Proof.
  intros Hcustom Hlen.
  unfold render_video.render_sets. rewrite Hcustom. cbn [negb].
  unfold bind at 1.
  rewrite (render_set_short View Image Frame wall_clock lp loadCamV2
             to_uint8_frame GaussianModel render _ _ _ _ _ _ _ _ _ _ Hlen).
  reflexivity.
Qed.

End SingleDriverProperties.

Lemma single_driver_renders_train_witness :
  truthy None = false
  /\ nth_error (getTrainCameras wide_scene) 481 = Some 481%nat
  /\ cam_requests (log (fst (sample_single wide_scene false true None)))
     = map (fun h => (481%nat, 481%nat, 1, - (180), inject_Z h / 100))
           (py_range 500 2525 25).
Proof.
  split; [reflexivity|]. split; [reflexivity|].
  destruct (single_driver_renders_train nat nat nat sample_clock (sample_lp [] [])
              sample_loadCam (fun i : nat => i) (fun _ _ _ => (sample_model, wide_scene))
              sample_render (fun s => s)
              two_levels None sample_pp false true None (-180) PyNone sample_world
              481%nat eq_refl eq_refl)
    as (more & dirs & Hc & _ & Hnone).
  destruct (Hnone eq_refl) as [Hm _]. rewrite Hm, app_nil_r in Hc. exact Hc.
Defined.

Lemma single_driver_short_train_split_witness :
  truthy None = false
  /\ (length (getTrainCameras sample_scene) <= 481)%nat
  /\ sample_single sample_scene false false None
     = ({| ticks := 0;
           log := [EvMakedirs ["output/demo"; "train"; "ours_lod_video"]%string] |},
        Raise IndexError).
Proof.
  assert (H : (length (getTrainCameras sample_scene) <= 481)%nat)
    by (vm_compute; lia).
  split; [reflexivity|]. split; [exact H|].
  exact (single_driver_short_train_split nat nat nat sample_clock (sample_lp [] [])
           sample_loadCam (fun i : nat => i) (fun _ _ _ => (sample_model, sample_scene))
           sample_render (fun s => s)
           two_levels None sample_pp false false None (-180) PyNone sample_world
           eq_refl H).
Defined.

(** ** The two filters *)

Lemma index_mask_length {A} (t : list A) :
  forall m r, index_mask t m = Ok r -> length m = length t.
Proof.
  induction t as [|a t IH]; intros [|b m] r H; simpl in H; try discriminate.
  - reflexivity.
  - destruct (index_mask t m) as [r'|e] eqn:E; [|discriminate].
    simpl. f_equal. eapply IH, E.
Qed.

Lemma index_mask_mismatch {A} (t : list A) :
  forall m, length m <> length t -> index_mask t m = Raise IndexError.
Proof.
  induction t as [|a t IH]; intros [|b m] H; simpl in *; try congruence.
  rewrite IH by congruence. reflexivity.
Qed.

(** After a call of the fine filter that returned, the scratch mask left on
    the level selects exactly the returned positions, and everything else
    the level stores (points, features, cell ids, boxes, range) is as
    before the call. *)
Theorem get_feats_ptwise_leaves_mask
        (K : Kernel) (self : BlockedGaussian) (cam : Camera) (out_xyz : list vec3)
        (out_feats : list feat) :
  snd (get_feats_ptwise K self cam) = Ok (out_xyz, out_feats) ->
  let self' := fst (get_feats_ptwise K self cam) in
  index_mask (xyz self) (mask self') = Ok out_xyz
  /\ length (mask self') = length (xyz self)
  /\ xyz self' = xyz self /\ feats self' = feats self
  /\ cell_ids self' = cell_ids self /\ cell_corners self' = cell_corners self
  /\ range self' = range self.
Proof.
  unfold get_feats_ptwise. rewrite fine_mask, clip_mask.
  destruct (mask_sum _ =? 0)%nat eqn:E1; cbn [fst snd set_mask mask xyz feats
                                               cell_ids cell_corners range].
  - intro H. injection H as <- <-.
    apply Nat.eqb_eq in E1.
    pose proof (proj1 (mask_sum_map_zero _ _) E1) as Hnone.
    rewrite index_mask_map, (filter_all_false _ _ Hnone), length_map.
    repeat split; reflexivity.
  - destruct (0 <? mask_sum _)%nat eqn:E2; cbn [fst snd set_mask mask xyz feats
                                                  cell_ids cell_corners range].
    + rewrite index_mask_map. cbn [rbind].
      destruct (index_mask (feats self) _) as [fs|e]; cbn [rbind]; [|discriminate].
      intro H. injection H as <- <-. rewrite length_map. repeat split; reflexivity.
    + intro H. injection H as <- <-.
      apply Nat.ltb_ge in E2.
      assert (E3 : mask_sum (map (keep K cam (range self)) (xyz self)) = 0%nat) by lia.
      pose proof (proj1 (mask_sum_map_zero _ _) E3) as Hnone.
      rewrite index_mask_map, (filter_all_false _ _ Hnone), length_map.
      repeat split; reflexivity.
Qed.

(** A level whose feature rows do not match its points in number makes the
    fine filter raise [IndexError] as soon as one point passes the test
    (with no point passing, the call still returns the empty pair). *)
Theorem get_feats_ptwise_feature_mismatch
        (K : Kernel) (self : BlockedGaussian) (cam : Camera) (p : vec3) :
  In p (xyz self) -> keep K cam (range self) p = true ->
  length (feats self) <> length (xyz self) ->
  snd (get_feats_ptwise K self cam) = Raise IndexError.
Proof.
  intros Hin Hkeep Hlen. rewrite get_feats_ptwise_result.
  destruct (mask_sum _ =? 0)%nat eqn:E1.
  - apply Nat.eqb_eq in E1.
    pose proof (proj1 (mask_sum_map_zero _ _) E1 p Hin) as C. cbv beta in C.
    unfold keep in Hkeep. rewrite C in Hkeep. discriminate.
  - destruct (0 <? mask_sum _)%nat eqn:E2.
    + rewrite index_mask_map. cbn [rbind].
      rewrite index_mask_mismatch; [reflexivity|].
      rewrite length_map. congruence.
    + apply Nat.ltb_ge in E2.
      assert (E3 : mask_sum (map (keep K cam (range self)) (xyz self)) = 0%nat) by lia.
      pose proof (proj1 (mask_sum_map_zero _ _) E3 p Hin) as C.
      rewrite C in Hkeep. discriminate.
Qed.

(** When no cell distance passes the level's range test, the coarse filter
    returns the empty pair and leaves the level untouched, scratch mask
    included. *)
Theorem get_feats_no_cell_in_range
        (self : BlockedGaussian) (indices : list nat) (distances : list float32) :
  (forall d, In d distances -> range_test (range self) d = false) ->
  get_feats self indices distances = (self, Ok ([], [])).
Proof.
  intro H. unfold get_feats.
  assert (E : mask_sum (map (range_test (range self)) distances) = 0%nat)
    by (apply mask_sum_map_zero; exact H).
  rewrite E. reflexivity.
Qed.

(** On a level with one cell id and one feature row per point, given one
    distance per cell index, the coarse filter returns the positions and
    the feature rows of exactly the points whose cell id is among the
    indices with a distance that passes the level's range test, in stored
    order. *)
Theorem get_feats_selects_cells
        (self : BlockedGaussian) (indices : list nat) (distances : list float32) :
  length indices = length distances ->
  length (xyz self) = length (cell_ids self) ->
  length (feats self) = length (cell_ids self) ->
  let wanted := wanted_cells (range self) indices distances in
  snd (get_feats self indices distances)
  = Ok (rows_of_cells wanted (cell_ids self) (xyz self),
        rows_of_cells wanted (cell_ids self) (feats self))
  /\ (forall c, In c wanted <->
                exists d, In (d, c) (combine distances indices)
                          /\ f_ge d (scalar_to_float32 (fst (range self))) = true
                          /\ f_lt d (scalar_to_float32 (snd (range self))) = true).
Proof.
  intros Hi Hx Hf wanted. split.
  - unfold get_feats.
    destruct (0 <? mask_sum _)%nat eqn:E.
    + rewrite (index_mask_rows _ _ _ Hi). fold (wanted_cells (range self) indices distances).
      fold wanted. cbn [snd].
      rewrite (index_mask_rows (fun c => existsb (Nat.eqb c) wanted) _ _ Hx).
      rewrite (index_mask_rows (fun c => existsb (Nat.eqb c) wanted) _ _ Hf).
      reflexivity.
    + apply Nat.ltb_ge in E.
      assert (E0 : mask_sum (map (range_test (range self)) distances) = 0%nat) by lia.
      pose proof (proj1 (mask_sum_map_zero _ _) E0) as Hnone.
      assert (Hw : wanted = []).
      { unfold wanted, wanted_cells.
        rewrite filter_all_false; [reflexivity|].
        intros [d c] Hin. cbn [fst]. apply Hnone. eapply in_combine_l, Hin. }
      rewrite Hw. cbn [snd]. unfold rows_of_cells. cbn [existsb].
      rewrite !filter_all_false by reflexivity. reflexivity.
  - intro c. unfold wanted, wanted_cells. rewrite in_map_iff. split.
    + intros ([d c'] & Hc & Hin). cbn [snd] in Hc. subst c'.
      apply filter_In in Hin. cbn [fst] in Hin. exists d.
      unfold range_test in Hin. rewrite andb_true_iff in Hin. tauto.
    + intros (d & Hin & Hge & Hlt). exists (d, c). split; [reflexivity|].
      apply filter_In. cbn [fst]. unfold range_test. rewrite Hge, Hlt. tauto.
Qed.

Lemma get_feats_ptwise_leaves_mask_witness :
  snd (get_feats_ptwise sequential near_level origin_cam) = Ok ([V3 0 0 1], [[half 1]])
  /\ index_mask (xyz near_level)
                (mask (fst (get_feats_ptwise sequential near_level origin_cam)))
     = Ok [V3 0 0 1].
Proof.
  split; [reflexivity|].
  exact (proj1 (get_feats_ptwise_leaves_mask sequential near_level origin_cam
                  [V3 0 0 1] [[half 1]] eq_refl)).
Defined.

Lemma get_feats_ptwise_feature_mismatch_witness :
  In (V3 0 0 1) (xyz broken_level)
  /\ keep sequential origin_cam (range broken_level) (V3 0 0 1) = true
  /\ length (feats broken_level) <> length (xyz broken_level)
  /\ snd (get_feats_ptwise sequential broken_level origin_cam) = Raise IndexError.
Proof.
  assert (Hin : In (V3 0 0 1) (xyz broken_level)) by (simpl; tauto).
  assert (Hlen : length (feats broken_level) <> length (xyz broken_level))
    by discriminate.
  split; [exact Hin|]. split; [reflexivity|]. split; [exact Hlen|].
  exact (get_feats_ptwise_feature_mismatch sequential broken_level origin_cam (V3 0 0 1)
           Hin eq_refl Hlen).
Defined.

Lemma get_feats_no_cell_in_range_witness :
  (forall d, In d [to_float32 3; to_float32 4] ->
             range_test (range celled_level) d = false)
  /\ get_feats celled_level [0; 2]%nat [to_float32 3; to_float32 4]
     = (celled_level, Ok ([], [])).
Proof.
  assert (H : forall d, In d [to_float32 3; to_float32 4] ->
                        range_test (range celled_level) d = false).
  { intros d [<-|[<-|[]]]; reflexivity. }
  split; [exact H|].
  exact (get_feats_no_cell_in_range celled_level [0; 2]%nat
           [to_float32 3; to_float32 4] H).
Defined.

Lemma get_feats_selects_cells_witness :
  length [0; 1; 2]%nat = length [to_float32 1; to_float32 3; to_float32 (1 # 2)]
  /\ length (xyz celled_level) = length (cell_ids celled_level)
  /\ length (feats celled_level) = length (cell_ids celled_level)
  /\ snd (get_feats celled_level [0; 1; 2]%nat
            [to_float32 1; to_float32 3; to_float32 (1 # 2)])
     = Ok ([V3 0 0 1; V3 0 0 2; V3 0 0 (-1)], [[half 1]; [half 2]; [half 4]]).
Proof.
  split; [reflexivity|]. split; [reflexivity|]. split; [reflexivity|].
  exact (proj1 (get_feats_selects_cells celled_level [0; 1; 2]%nat
                  [to_float32 1; to_float32 3; to_float32 (1 # 2)]
                  eq_refl eq_refl eq_refl)).
Defined.

(** ** The partitioner *)

Lemma assign_mask_spec {A} (t : list A) (v : A) :
  forall m r, assign_mask t m v = Ok r ->
    length r = length t /\ length m = length t
    /\ forall i d, nth i r d = if nth i m false then v else nth i t d.
Proof.
  induction t as [|a t IH]; intros [|b m] r H; simpl in H; try discriminate.
  - injection H as <-. repeat split. intros [|i] d; reflexivity.
  - destruct (assign_mask t m v) as [r'|e] eqn:E; [|discriminate].
    injection H as <-. destruct (IH _ _ E) as (H1 & H2 & H3).
    split; [simpl; now rewrite H1|]. split; [simpl; now rewrite H2|].
    intros [|i] d; simpl; [reflexivity|apply H3].
Qed.

Lemma index_mask_nil_sum {A} (t : list A) :
  forall m, index_mask t m = Ok [] -> mask_sum m = 0%nat.
Proof.
  induction t as [|a t IH]; intros [|b m] H; simpl in H; try discriminate.
  - reflexivity.
  - destruct (index_mask t m) as [r|e] eqn:E; [|discriminate].
    destruct b; [discriminate|]. injection H as ->.
    unfold mask_sum in *. simpl. apply IH. exact E.
Qed.

Lemma cat_dim1_spec (a : list (list Q)) :
  forall b r, cat_dim1 a b = Ok r ->
    length r = length a /\ length b = length a
    /\ forall i, nth i r [] = nth i a [] ++ nth i b [].
Proof.
  induction a as [|x a IH]; intros [|y b] r H; simpl in H; try discriminate.
  - injection H as <-. repeat split. intros [|i]; reflexivity.
  - destruct (cat_dim1 a b) as [r'|e] eqn:E; [|discriminate].
    injection H as <-. destruct (IH _ _ E) as (H1 & H2 & H3).
    split; [simpl; now rewrite H1|]. split; [simpl; now rewrite H2|].
    intros [|i]; simpl; [reflexivity|apply H3].
Qed.

(** Rows of one width, flattened and regrouped into as many rows, are
    unchanged. *)
Lemma regroup_rows (width : nat) (t : list (list Q)) :
  Forall (fun row => length row = width) t ->
  map (fun i => firstn width (skipn (i * width) (concat t))) (seq 0 (length t)) = t.
Proof.
  induction t as [|r t IH]; intro H; [reflexivity|].
  inversion H as [|r' t' Hr Ht]; subst r' t'.
  cbn [length concat]. rewrite <- cons_seq, <- seq_shift. cbn [map]. rewrite map_map.
  f_equal.
  - cbn [Nat.mul skipn]. rewrite firstn_app, <- Hr, Nat.sub_diag, firstn_all.
    cbn [firstn]. apply app_nil_r.
  - rewrite <- (IH Ht) at 2. apply map_ext. intro i.
    cbn [Nat.mul]. rewrite skipn_app.
    rewrite skipn_all2 by (rewrite Hr; lia).
    replace (width + i * width - length r)%nat with (i * width)%nat by (rewrite Hr; lia).
    reflexivity.
Qed.

Lemma concat_rows_length (width : nat) (t : list (list Q)) :
  Forall (fun row => length row = width) t ->
  length (concat t) = (length t * width)%nat.
Proof.
  induction 1 as [|r t Hr Ht IH]; [reflexivity|].
  cbn [concat length]. rewrite length_app, IH, Hr. reflexivity.
Qed.

(** [reshape_rows] on a tensor that already has the asked number of rows. *)
Lemma reshape_rows_same (width : nat) (t : list (list Q)) :
  t <> [] -> Forall (fun row => length row = width) t ->
  reshape_rows (length t) t = Ok t.
Proof.
  intros Hne H. unfold reshape_rows.
  destruct (length t) as [|n] eqn:L; [destruct t; [congruence|discriminate]|].
  rewrite (concat_rows_length width t H), L, (Nat.mul_comm (S n) width).
  rewrite Nat.Div0.mod_mul, Nat.div_mul by lia. cbn [Nat.eqb].
  rewrite <- L. now rewrite regroup_rows.
Qed.

Section PartitionerProperties.

Variable block_filtering :
  nat -> list vec3 -> list Q -> nat * nat * nat -> Q -> list bool.

Local Abbreviation cell_mask_of self c :=
  (block_filtering c (xyz self) (aabb self) (block_dim self) (scale self)).

(** One iteration of the cell loop that returned: what it kept and what it
    changed. *)
Lemma cell_step_spec (n : Q) (self self' : BlockedGaussian) (c : nat) :
  cell_step block_filtering n self c = Ok self' ->
  xyz self' = xyz self /\ feats self' = feats self /\ mask self' = mask self
  /\ block_dim self' = block_dim self /\ num_cell self' = num_cell self
  /\ aabb self' = aabb self /\ scale self' = scale self
  /\ length (cell_ids self') = length (cell_ids self)
  /\ length (cell_mask_of self c) = length (xyz self)
  /\ length (cell_ids self) = length (xyz self)
  /\ (0 < mask_sum (cell_mask_of self c))%nat
  /\ (forall i, nth i (cell_ids self') 0%nat
                = if nth i (cell_mask_of self c) false then c
                  else nth i (cell_ids self) 0%nat)
  /\ exists box, cell_corners self' = cell_corners self ++ [corners_of (fst box) (snd box)].
Proof.
  unfold cell_step. intro H.
  apply rbind_ok in H. destruct H as (ids & Hids & H).
  apply rbind_ok in H. destruct H as (members & Hmem & H).
  apply rbind_ok in H. destruct H as (box & Hbox & H).
  injection H as <-. cbn.
  destruct (assign_mask_spec _ _ _ _ Hids) as (L1 & L2 & Hnth).
  pose proof (index_mask_length _ _ _ Hmem) as L3.
  repeat (split; [reflexivity|]).
  split; [exact L1|]. split; [exact L3|]. split; [congruence|].
  split.
  - destruct members as [|p members].
    + simpl in Hbox. discriminate.
    + destruct (mask_sum (cell_mask_of self c)) eqn:E; [|lia].
      exfalso.
      assert (Hall : forall b, In b (cell_mask_of self c) -> b = false).
      { intros b Hb. destruct b; [|reflexivity].
        unfold mask_sum in E. apply (count_occ_not_In bool_dec) in E. contradiction. }
      clear - Hmem Hall.
      revert Hmem Hall. generalize (cell_mask_of self c) as m. generalize (xyz self) as t.
      induction t as [|a t IH]; intros [|b m] Hm Hall; simpl in Hm; try discriminate.
      destruct (index_mask t m) as [r|e] eqn:E; [|discriminate].
      rewrite (Hall b (or_introl eq_refl)) in Hm.
      injection Hm as ->.
      eapply IH; [exact E|]. intros b' Hb'. apply Hall. now right.
  - split; [intro i; apply Hnth|]. exists box. reflexivity.
Qed.

(** The cell loop that returned: the frame it keeps, one box per cell, no
    empty cell, and for every point the last cell that claimed it. *)
Lemma cell_loop_spec (n : Q) (cells : list nat) :
  forall self self',
    cell_loop block_filtering n self cells = Ok self' ->
    xyz self' = xyz self /\ feats self' = feats self /\ mask self' = mask self
    /\ block_dim self' = block_dim self /\ num_cell self' = num_cell self
    /\ aabb self' = aabb self /\ scale self' = scale self
    /\ length (cell_ids self') = length (cell_ids self)
    /\ length (cell_corners self') = (length (cell_corners self) + length cells)%nat
    /\ (Forall (fun cs => length cs = 8%nat) (cell_corners self) ->
        Forall (fun cs => length cs = 8%nat) (cell_corners self'))
    /\ (forall c, In c cells ->
                  (0 < mask_sum (cell_mask_of self c))%nat
                  /\ length (cell_mask_of self c) = length (xyz self)
                  /\ length (cell_ids self) = length (xyz self))
    /\ (forall i, nth i (cell_ids self') 0%nat
                  = fold_left (fun id c => if nth i (cell_mask_of self c) false
                                           then c else id)
                              cells (nth i (cell_ids self) 0%nat)).
Proof.
  induction cells as [|c cells IH]; intros self self' H; simpl in H.
  - injection H as <-. rewrite Nat.add_0_r.
    repeat split; try reflexivity; try tauto; try (intros c []).
  - destruct (cell_step block_filtering n self c) as [s1|e] eqn:E; [|discriminate].
    destruct (cell_step_spec _ _ _ _ E)
      as (X & F & M & B & N & A & S & L & Lm & Li & Hpos & Hnth & (box & Hc)).
    destruct (IH _ _ H)
      as (X' & F' & M' & B' & N' & A' & S' & L' & Lc' & H8 & Hcells & Hfold).
    rewrite X, A, B, S in Hcells, Hfold.
    split; [congruence|]. split; [congruence|]. split; [congruence|].
    split; [congruence|]. split; [congruence|]. split; [congruence|].
    split; [congruence|]. split; [congruence|].
    split; [rewrite Lc', Hc, length_app; simpl; lia|].
    split.
    { intro H0. apply H8. rewrite Hc. apply Forall_app. split; [exact H0|].
      constructor; [reflexivity|constructor]. }
    split.
    { intros c' [<-|Hin]; [tauto|].
      destruct (Hcells c' Hin) as (P1 & P2 & P3). rewrite L in P3. tauto. }
    intro i. rewrite Hfold. cbn [fold_left]. rewrite Hnth. reflexivity.
Qed.

(** What a constructor call that returned went through. *)
Lemma BlockedGaussian_init_spec
      (g : GaussianModel) (lp : ModelParams) (rng : Q * Q) (scl : Q) (cov : bool)
      (level : BlockedGaussian) :
  BlockedGaussian_init block_filtering g lp rng scl cov = Ok level ->
  exists geometry fs self1,
    geometry = (if cov then Ok (get_covariance g scl)
                else cat_dim1 (get_scaling g) (get_rotation g))
    /\ (exists geo flat head,
          geometry = Ok geo
          /\ reshape_rows (length geo) (get_features g) = Ok flat
          /\ cat_dim1 (get_opacity g) flat = Ok head
          /\ cat_dim1 head geo = Ok fs)
    /\ xyz self1 = get_xyz g /\ feats self1 = map (map half) fs
    /\ cell_ids self1 = repeat 0%nat (length (get_opacity g))
    /\ mask self1 = repeat false (length (get_opacity g))
    /\ cell_corners self1 = []
    /\ block_dim self1 = lp_block_dim lp /\ aabb self1 = lp_aabb lp
    /\ scale self1 = scl
    /\ num_cell self1
       = (fst (fst (lp_block_dim lp)) * snd (fst (lp_block_dim lp))
          * snd (lp_block_dim lp))%nat
    /\ cell_loop block_filtering 4 self1 (seq 0 (num_cell self1)) = Ok level
    /\ cell_corners level <> [].
Proof.
  unfold BlockedGaussian_init, cell_divider. intro H.
  apply rbind_ok in H. destruct H as (self & H & Hstack).
  destruct (cell_corners self) as [|cs rest] eqn:Ecs; [discriminate|].
  injection Hstack as <-.
  cbn [scale] in H.
  apply rbind_ok in H. destruct H as (geo & Hgeo & H).
  apply rbind_ok in H. destruct H as (flat & Hflat & H).
  apply rbind_ok in H. destruct H as (head & Hhead & H).
  apply rbind_ok in H. destruct H as (fs & Hfs & H).
  match type of H with
  | cell_loop _ _ ?s _ = _ =>
      exists (if cov then Ok (get_covariance g scl)
              else cat_dim1 (get_scaling g) (get_rotation g)), fs, s
  end.
  split; [reflexivity|].
  split; [exists geo, flat, head; repeat split; assumption|].
  repeat (split; [reflexivity|]).
  split; [exact H|]. rewrite Ecs. discriminate.
Qed.

(** The constructor does not accept an empty cell: when it returns, the
    grid has at least one cell and every cell of the grid holds at least
    one point (on an empty cell the median raises, and on an empty grid the
    stacking of the boxes does). *)
Theorem constructor_needs_populated_cells
        (g : GaussianModel) (lp : ModelParams) (rng : Q * Q) (scl : Q) (cov : bool)
        (level : BlockedGaussian) :
  BlockedGaussian_init block_filtering g lp rng scl cov = Ok level ->
  (1 <= num_cell level)%nat
  /\ forall c, (c < num_cell level)%nat ->
       (0 < mask_sum (block_filtering c (get_xyz g) (lp_aabb lp) (lp_block_dim lp) scl))%nat.
Proof.
  intro H.
  destruct (BlockedGaussian_init_spec _ _ _ _ _ _ H)
    as (geometry & fs & self1 & _ & _ & X & F & I & M & C & B & A & Sc & N & Hloop & Hne).
  destruct (cell_loop_spec _ _ _ _ Hloop)
    as (_ & _ & _ & _ & N' & _ & _ & _ & Lc & _ & Hcells & _).
  rewrite C, length_seq in Lc. simpl in Lc.
  assert (Hpos : (1 <= num_cell self1)%nat).
  { destruct (cell_corners level); [congruence|]. simpl in Lc. lia. }
  rewrite N'. split; [exact Hpos|].
  intros c Hc. destruct (Hcells c) as (P & _ & _); [apply in_seq; lia|].
  rewrite X, A, B, Sc in P. exact P.
Qed.

(** A level that was constructed is well formed: its points are those of
    the model; it has one feature row, one cell id and one mask entry per
    point; one box of eight corners per grid cell; the grid size is the
    product of the three block dimensions; and it carries the range it was
    given. *)
Theorem constructor_shapes
        (g : GaussianModel) (lp : ModelParams) (rng : Q * Q) (scl : Q) (cov : bool)
        (level : BlockedGaussian) :
  BlockedGaussian_init block_filtering g lp rng scl cov = Ok level ->
  xyz level = get_xyz g
  /\ length (feats level) = length (xyz level)
  /\ length (cell_ids level) = length (xyz level)
  /\ length (mask level) = length (xyz level)
  /\ length (cell_corners level) = num_cell level
  /\ Forall (fun corners => length corners = 8%nat) (cell_corners level)
  /\ num_cell level
     = (fst (fst (lp_block_dim lp)) * snd (fst (lp_block_dim lp))
        * snd (lp_block_dim lp))%nat
  /\ range level = rng.
Proof.
  intro H.
  pose proof (BlockedGaussian_init_range _ _ _ _ _ _ _ H) as Hr.
  destruct (BlockedGaussian_init_spec _ _ _ _ _ _ H)
    as (geometry & fs & self1 & _ & (geo & flat & head & _ & _ & Hhead & Hfs)
        & X & F & I & M & C & B & A & Sc & N & Hloop & Hne).
  destruct (cell_loop_spec _ _ _ _ Hloop)
    as (X' & F' & M' & _ & N' & _ & _ & L & Lc & H8 & Hcells & _).
  rewrite C, length_seq in Lc. simpl in Lc.
  assert (Hpos : (0 < num_cell self1)%nat).
  { destruct (cell_corners level); [congruence|]. simpl in Lc. lia. }
  destruct (Hcells 0%nat) as (_ & _ & Li); [apply in_seq; lia|].
  rewrite I, repeat_length in Li, L.
  destruct (cat_dim1_spec _ _ _ Hhead) as (Lh & _ & _).
  destruct (cat_dim1_spec _ _ _ Hfs) as (Lf & _ & _).
  rewrite X', F', M', N', X, F, M, repeat_length.
  rewrite X in Li.
  split; [reflexivity|].
  split; [rewrite length_map; exact (eq_trans Lf (eq_trans Lh Li))|]. split; [congruence|].
  split; [congruence|]. split; [exact Lc|].
  split; [apply H8; rewrite C; constructor|]. split; [exact N|exact Hr].
Qed.

Lemma fold_choice (P : nat -> bool) (cells : list nat) :
  forall d, In (fold_left (fun id c => if P c then c else id) cells d) (d :: cells).
Proof.
  induction cells as [|c cells IH]; intro d; simpl; [now left|].
  destruct (IH (if P c then c else d)) as [E|Hin].
  - rewrite <- E. destruct (P c); [right; now left|now left].
  - right. now right.
Qed.

Lemma fold_no_choice (P : nat -> bool) (cells : list nat) :
  (forall c, In c cells -> P c = false) ->
  forall d, fold_left (fun id c => if P c then c else id) cells d = d.
Proof.
  induction cells as [|c cells IH]; intros H d; simpl; [reflexivity|].
  rewrite (H c (or_introl eq_refl)). apply IH. intros c' Hc'. apply H. now right.
Qed.

(** Every cell id of a constructed level is a cell of its grid. *)
Theorem constructor_cell_ids_in_grid
        (g : GaussianModel) (lp : ModelParams) (rng : Q * Q) (scl : Q) (cov : bool)
        (level : BlockedGaussian) :
  BlockedGaussian_init block_filtering g lp rng scl cov = Ok level ->
  Forall (fun id => (id < num_cell level)%nat) (cell_ids level).
Proof.
  intro H.
  destruct (BlockedGaussian_init_spec _ _ _ _ _ _ H)
    as (geometry & fs & self1 & _ & _ & X & F & I & M & C & B & A & Sc & N & Hloop & Hne).
  destruct (cell_loop_spec _ _ _ _ Hloop)
    as (_ & _ & _ & _ & N' & _ & _ & L & Lc & _ & _ & Hfold).
  rewrite C, length_seq in Lc. simpl in Lc.
  assert (Hpos : (0 < num_cell self1)%nat).
  { destruct (cell_corners level); [congruence|]. simpl in Lc. lia. }
  apply Forall_forall. intros id Hin.
  destruct (In_nth _ _ 0%nat Hin) as (i & Hi & <-).
  rewrite Hfold, N'.
  match goal with
  | |- (fold_left ?f ?cells ?d < _)%nat =>
      destruct (fold_choice (fun c => nth i (cell_mask_of self1 c) false) cells d)
        as [E|Hc]
  end.
  - rewrite <- E, I.
    destruct (Nat.lt_ge_cases i (length (get_opacity g))) as [Hlt|Hge].
    + rewrite nth_repeat_lt by exact Hlt. exact Hpos.
    + rewrite nth_overflow by (rewrite repeat_length; exact Hge). exact Hpos.
  - apply in_seq in Hc. lia.
Qed.

(** The cell id of a point is the last cell of the grid whose membership
    mask holds the point: when cell [c] claims point [i] and no later cell
    does, the constructed level records [c] for it. *)
Theorem constructor_last_cell_wins
        (g : GaussianModel) (lp : ModelParams) (rng : Q * Q) (scl : Q) (cov : bool)
        (level : BlockedGaussian) (c i : nat) :
  BlockedGaussian_init block_filtering g lp rng scl cov = Ok level ->
  (c < num_cell level)%nat ->
  nth i (block_filtering c (get_xyz g) (lp_aabb lp) (lp_block_dim lp) scl) false = true ->
  (forall c', (c < c' < num_cell level)%nat ->
     nth i (block_filtering c' (get_xyz g) (lp_aabb lp) (lp_block_dim lp) scl) false
     = false) ->
  nth i (cell_ids level) 0%nat = c.
Proof.
  intros H Hc Hmine Hlater.
  destruct (BlockedGaussian_init_spec _ _ _ _ _ _ H)
    as (geometry & fs & self1 & _ & _ & X & F & I & M & C & B & A & Sc & N & Hloop & Hne).
  destruct (cell_loop_spec _ _ _ _ Hloop)
    as (_ & _ & _ & _ & N' & _ & _ & _ & _ & _ & _ & Hfold).
  rewrite Hfold, X, A, B, Sc. rewrite N' in Hc, Hlater.
  replace (num_cell self1) with (c + S (num_cell self1 - S c))%nat by lia.
  rewrite seq_app, fold_left_app. cbn [seq fold_left Nat.add]. rewrite Hmine.
  apply (fold_no_choice
           (fun c' => nth i (block_filtering c' (get_xyz g) (lp_aabb lp)
                                             (lp_block_dim lp) scl) false)).
  intros c' Hin. apply in_seq in Hin. apply Hlater. lia.
Qed.

(** With covariances not precomputed and a model that has one row of
    colour features per point, all of one width, the feature row of every
    point of a constructed level is, converted to half precision, its
    opacity, then its colour features, then its scaling, then its
    rotation. *)
Theorem constructor_feature_rows
        (g : GaussianModel) (lp : ModelParams) (rng : Q * Q) (scl : Q)
        (level : BlockedGaussian) (width i : nat) :
  BlockedGaussian_init block_filtering g lp rng scl false = Ok level ->
  length (get_features g) = length (get_scaling g) ->
  Forall (fun row => length row = width) (get_features g) ->
  nth i (feats level) []
  = map half (nth i (get_opacity g) [] ++ nth i (get_features g) []
              ++ nth i (get_scaling g) [] ++ nth i (get_rotation g) []).
Proof.
  intros H Hrows Hwidth.
  destruct (BlockedGaussian_init_spec _ _ _ _ _ _ H)
    as (geometry & fs & self1 & Hg & (geo & flat & head & Hgeo & Hflat & Hhead & Hfs)
        & X & F & I & M & C & B & A & Sc & N & Hloop & Hne).
  destruct (cell_loop_spec _ _ _ _ Hloop) as (_ & F' & _).
  rewrite F', F.
  rewrite Hg in Hgeo.
  destruct (cat_dim1_spec _ _ _ Hgeo) as (Lg & _ & G3).
  destruct (cat_dim1_spec _ _ _ Hhead) as (_ & _ & H3).
  destruct (cat_dim1_spec _ _ _ Hfs) as (_ & _ & F3).
  rewrite Lg, <- Hrows in Hflat.
  assert (Hne' : get_features g <> []).
  { intro E. rewrite E in Hflat. discriminate. }
  rewrite (reshape_rows_same _ _ Hne' Hwidth) in Hflat. injection Hflat as <-.
  change (@nil float16) with (map half []). rewrite map_nth.
  rewrite F3, H3, G3, <- app_assoc. reflexivity.
Qed.

End PartitionerProperties.

Lemma split_built_ok : split_built = Ok split_level.
Proof. vm_compute. reflexivity. Defined.

Lemma constructor_needs_populated_cells_witness :
  split_built = Ok split_level
  /\ (1 <= num_cell split_level)%nat
  /\ (0 < mask_sum (split_block_filtering 1 (get_xyz sample_model) (lp_aabb split_lp)
                                          (lp_block_dim split_lp) 1))%nat.
Proof.
  split; [exact split_built_ok|].
  pose proof (constructor_needs_populated_cells split_block_filtering sample_model
                split_lp (0, 10) 1 false split_level split_built_ok) as H.
  split; [exact (proj1 H)|].
  apply (proj2 H 1%nat). vm_compute. lia.
Defined.

Lemma constructor_shapes_witness :
  split_built = Ok split_level
  /\ length (feats split_level) = length (xyz split_level)
  /\ length (cell_corners split_level) = 2%nat.
Proof.
  split; [exact split_built_ok|].
  pose proof (constructor_shapes split_block_filtering sample_model split_lp (0, 10) 1
                false split_level split_built_ok) as H.
  split; [exact (proj1 (proj2 H))|].
  exact (proj1 (proj2 (proj2 (proj2 (proj2 H))))).
Defined.

Lemma constructor_cell_ids_in_grid_witness :
  split_built = Ok split_level
  /\ Forall (fun id => (id < 2)%nat) (cell_ids split_level).
Proof.
  split; [exact split_built_ok|].
  exact (constructor_cell_ids_in_grid split_block_filtering sample_model split_lp
           (0, 10) 1 false split_level split_built_ok).
Defined.

Lemma constructor_last_cell_wins_witness :
  split_built = Ok split_level
  /\ (0 < num_cell split_level)%nat
  /\ nth 0 (split_block_filtering 0 (get_xyz sample_model) (lp_aabb split_lp)
                                  (lp_block_dim split_lp) 1) false = true
  /\ nth 0 (cell_ids split_level) 0%nat = 0%nat.
Proof.
  assert (Hc : (0 < num_cell split_level)%nat) by (vm_compute; lia).
  assert (Hlater : forall c', (0 < c' < num_cell split_level)%nat ->
            nth 0 (split_block_filtering c' (get_xyz sample_model) (lp_aabb split_lp)
                                         (lp_block_dim split_lp) 1) false = false).
  { intros c' Hc'. change (num_cell split_level) with 2%nat in Hc'.
    assert (E : c' = 1%nat) by lia. subst c'. reflexivity. }
  split; [exact split_built_ok|]. split; [exact Hc|]. split; [reflexivity|].
  exact (constructor_last_cell_wins split_block_filtering sample_model split_lp
           (0, 10) 1 false split_level 0%nat 0%nat split_built_ok Hc eq_refl Hlater).
Defined.

Lemma constructor_feature_rows_witness :
  split_built = Ok split_level
  /\ length (get_features sample_model) = length (get_scaling sample_model)
  /\ Forall (fun row => length row = 1%nat) (get_features sample_model)
  /\ nth 1 (feats split_level) [] = map half [1; 1 # 3; 1; 0].
Proof.
  assert (Hw : Forall (fun row : list Q => length row = 1%nat)
                      (get_features sample_model))
    by (repeat constructor).
  split; [exact split_built_ok|]. split; [reflexivity|]. split; [exact Hw|].
  exact (constructor_feature_rows split_block_filtering sample_model split_lp (0, 10) 1
           split_level 1%nat 1%nat split_built_ok eq_refl Hw).
Defined.

(** ** More on the cell boxes *)

Lemma py_max_pick (a b : Q) : a == b -> py_max a b == b.
Proof. intro E. unfold py_max. destruct (Qlt_bool a b); [reflexivity|exact E]. Qed.

Lemma py_min_pick (a b : Q) : a == b -> py_min a b == b.
Proof. intro E. unfold py_min. destruct (Qlt_bool b a); [reflexivity|exact E]. Qed.

Lemma no_spread (n x : Q) :
  x - n * Qabs (x - x) == x /\ x + n * Qabs (x - x) == x.
Proof.
  assert (E : Qabs (x - x) == 0).
  { assert (E0 : x - x == 0) by ring. rewrite E0. reflexivity. }
  rewrite E. split; ring.
Qed.

(** A cell with a single member gets the box of zero size at that member,
    for every spread factor. *)
Theorem cell_bbox_single_member (n : Q) (p : vec3) :
  exists xyz_min xyz_max,
    cell_bbox n [p] = Ok (xyz_min, xyz_max) /\ veq xyz_min p /\ veq xyz_max p.
Proof.
  destruct p as [x y z].
  eexists (vmax (vsub (V3 x y z) (vscale n (vabs (vsub (V3 x y z) (V3 x y z)))))
                (V3 x y z)),
          (vmin (vadd (V3 x y z) (vscale n (vabs (vsub (V3 x y z) (V3 x y z)))))
                (V3 x y z)).
  split; [reflexivity|].
  unfold veq, vmax, vmin, vsub, vadd, vscale, vabs, vmap2, vmap. cbn [vx vy vz].
  repeat split; first [apply py_max_pick|apply py_min_pick]; apply no_spread.
Qed.


